(** * SKU analytics: a shallow embedding of [scripts/data_transformation.py]

    The script cleans locale-formatted numbers, labels products by keyword,
    scores every SKU, derives ratio columns and computes rolling means of the
    daily figures.  The first part embeds each Python function under its own
    name, the second holds the reference definitions the theorems compare
    the code with, and the third holds the theorems.

    Conventions of the embedding:
    - a Python [float] is a binary64 value, Rocq's primitive [float]; the
      operations [/], [*], [abs], [<], [==] are the IEEE ones;
    - a Python [int] is an unbounded [Z];
    - a raised exception is the [Raise] outcome of type [result];
    - a [str] is a [string] of 8-bit characters: the embedding covers ASCII
      text, and leaves characters above 127 untouched and unparsed;
    - a pandas row ([Series]) read with [row.get] is a finite map from column
      names to cells;
    - the pandas routines the script calls ([sort_values], the rolling mean)
      are not part of the script: they are embedded after pandas' own code,
      and the theorems on them say which of its properties they use. *)

From Stdlib Require Import ZArith QArith Qpower Qcanon Floats Lia.
From Stdlib Require Import Ascii String Decimal DecimalNat DecimalString.
From stdpp Require Import base option list strings gmap sorting.

Set Warnings "-inexact-float".

(** ** Python values and exceptions *)

Inductive pyerr : Type :=
  | TypeError
  | ValueError
  | OverflowError
  | ZeroDivisionError.

Inductive result (A : Type) : Type :=
  | Ok (a : A)
  | Raise (e : pyerr).
Arguments Ok {A} a.
Arguments Raise {A} e.

#[global] Instance result_ret : MRet result := fun A a => Ok a.
#[global] Instance result_bind : MBind result := fun A B k m =>
  match m with
  | Ok a => k a
  | Raise e => Raise e
  end.

(** A cell of a table read from CSV, or any scalar handed to one of the
    script's functions: [None], a [bool], an [int], a [float] (with [nan] for
    a missing number) or a [str]. *)
Inductive cell : Type :=
  | CNone
  | CBool (b : bool)
  | CInt (z : Z)
  | CFloat (f : float)
  | CStr (s : string).

(** The numbers among the cells; [bool] is a subclass of [int]. *)
Inductive num : Type :=
  | NInt (z : Z)
  | NFloat (f : float).

Definition as_num (v : cell) : result num :=
  match v with
  | CBool b => Ok (NInt (Z.b2z b))
  | CInt z => Ok (NInt z)
  | CFloat f => Ok (NFloat f)
  | CNone | CStr _ => Raise TypeError
  end.

Definition numeric (v : cell) : Prop :=
  match v with
  | CBool _ | CInt _ | CFloat _ => True
  | CNone | CStr _ => False
  end.

(** The binary64 value nearest to an integer (ties to even), the conversion
    applied to an [int] operand that meets a [float]. *)
Definition Z_to_float (z : Z) : float :=
  SF2Prim (binary_normalize prec emax z 0 false).

(** [x > k], [x < k], [x >= k] and [x == k] for a number [x] and an [int]
    literal [k]. *)
Definition num_gt (x : num) (k : Z) : bool :=
  match x with
  | NInt z => (k <? z)%Z
  | NFloat f => PrimFloat.ltb (Z_to_float k) f
  end.

Definition num_lt (x : num) (k : Z) : bool :=
  match x with
  | NInt z => (z <? k)%Z
  | NFloat f => PrimFloat.ltb f (Z_to_float k)
  end.

Definition num_ge (x : num) (k : Z) : bool :=
  match x with
  | NInt z => (k <=? z)%Z
  | NFloat f => PrimFloat.leb (Z_to_float k) f
  end.

Definition num_eq (x : num) (k : Z) : bool :=
  match x with
  | NInt z => (z =? k)%Z
  | NFloat f => PrimFloat.eqb f (Z_to_float k)
  end.

(** Ordering a [str] or [None] against an [int] raises [TypeError];
    [==] never raises and is [False] across types. *)
Definition py_gt (v : cell) (k : Z) : result bool := x ← as_num v; Ok (num_gt x k).
Definition py_lt (v : cell) (k : Z) : result bool := x ← as_num v; Ok (num_lt x k).
Definition py_ge (v : cell) (k : Z) : result bool := x ← as_num v; Ok (num_ge x k).
Definition py_eq (v : cell) (k : Z) : result bool :=
  match as_num v with
  | Ok x => Ok (num_eq x k)
  | Raise _ => Ok false
  end.

(** [row.get(key, default)] on a row. *)
Definition row_get (row : gmap string cell) (key : string) (dflt : cell) : cell :=
  default dflt (row !! key).

(** ** [calculate_health_score] *)

Module HealthScore.
Local Open Scope Z_scope.

(** The four blocks of the function body, each taking the running [score]
    and returning the updated one. *)
Definition profit_block (row : gmap string cell) (score : Z) : result Z :=
  let net_profit := row_get row "Net_Profit" (CInt 0) in
  c ← py_gt net_profit 500; if c : bool then Ok (score + 20) else
  c ← py_gt net_profit 200; if c : bool then Ok (score + 15) else
  c ← py_gt net_profit 100; if c : bool then Ok (score + 10) else
  c ← py_gt net_profit 50; if c : bool then Ok (score + 5) else
  c ← py_lt net_profit 0; if c : bool then Ok (score - 15) else
  Ok score.

Definition velocity_block (row : gmap string cell) (score : Z) : result Z :=
  let units := row_get row "Units_Sold" (CInt 0) in
  c ← py_gt units 50; if c : bool then Ok (score + 15) else
  c ← py_gt units 25; if c : bool then Ok (score + 10) else
  c ← py_gt units 10; if c : bool then Ok (score + 5) else
  c ← py_eq units 0; if c : bool then Ok (score - 10) else
  Ok score.

Definition roi_block (row : gmap string cell) (score : Z) : result Z :=
  let roi := row_get row "ROI_Pct" (CInt 0) in
  c ← py_gt roi 50; if c : bool then Ok (score + 10) else
  c ← py_gt roi 25; if c : bool then Ok (score + 5) else
  c ← py_lt roi 0; if c : bool then Ok (score - 10) else
  Ok score.

Definition margin_block (row : gmap string cell) (score : Z) : result Z :=
  let margin := row_get row "Margin_Pct" (CInt 0) in
  c ← py_gt margin 20; if c : bool then Ok (score + 5) else
  c ← py_lt margin 5; if c : bool then Ok (score - 5) else
  Ok score.

(** The score as it stands just before the final [max(0, min(100, score))]. *)
Definition score_before_clamp (row : gmap string cell) : result Z :=
  let score := 50 in
  score ← profit_block row score;
  score ← velocity_block row score;
  score ← roi_block row score;
  margin_block row score.

Definition calculate_health_score (row : gmap string cell) : result Z :=
  score ← score_before_clamp row;
  Ok (Z.max 0 (Z.min 100 score)).

(** The four columns the function reads. *)
Definition score_columns : list string :=
  ["Net_Profit"; "Units_Sold"; "ROI_Pct"; "Margin_Pct"].

Definition numeric_inputs (row : gmap string cell) : Prop :=
  Forall (fun key => numeric (row_get row key (CInt 0))) score_columns.

End HealthScore.

(** ** [assign_performance_tier] *)

Module Tier.

Definition assign_performance_tier (health_score : cell) : result string :=
  c ← py_ge health_score 80; if c : bool then Ok "Star" else
  c ← py_ge health_score 60; if c : bool then Ok "Strong" else
  c ← py_ge health_score 45; if c : bool then Ok "Average" else
  Ok "Weak".

End Tier.

(** ** Strings *)

Module Str.

Definition code (c : ascii) : N := N_of_ascii c.

Definition is_digit (c : ascii) : bool := (48 <=? code c)%N && (code c <=? 57)%N.

Definition digit_value (c : ascii) : Z := Z.of_N (code c) - 48.

(** [str.lower] on ASCII letters. *)
Definition lower_char (c : ascii) : ascii :=
  if (65 <=? code c)%N && (code c <=? 90)%N then ascii_of_N (code c + 32) else c.

Fixpoint lower (s : string) : string :=
  match s with
  | EmptyString => EmptyString
  | String c s' => String (lower_char c) (lower s')
  end.

(** [kw in s]: [kw] occurs in [s] as a contiguous run of characters. *)
Fixpoint contains (kw s : string) : bool :=
  if String.prefix kw s then true
  else match s with
       | EmptyString => false
       | String _ s' => contains kw s'
       end.

(** [s.replace(old, new)] for a one-character [old]. *)
Fixpoint replace (old : ascii) (new : string) (s : string) : string :=
  match s with
  | EmptyString => EmptyString
  | String c s' =>
      if Ascii.eqb c old then new +:+ replace old new s'
      else String c (replace old new s')
  end.

(** Every character of [s] passes the test [p]. *)
Fixpoint all_chars (p : ascii → bool) (s : string) : bool :=
  match s with
  | EmptyString => true
  | String c s' => p c && all_chars p s'
  end.

(** The characters of a cleaned numeral: digits, the sign and the point. *)
Definition plain (c : ascii) : bool :=
  is_digit c || Ascii.eqb c "-" || Ascii.eqb c ".".

(** [str(n)] for a natural number. *)
Definition of_nat (n : nat) : string := NilZero.string_of_uint (Nat.to_uint n).

Fixpoint zeros (n : nat) : string :=
  match n with
  | O => EmptyString
  | S n' => String "0" (zeros n')
  end.

(** [s.zfill(width)]: zeros go after a leading sign. *)
Definition zfill (width : nat) (s : string) : string :=
  let fill := zeros (width - String.length s) in
  match s with
  | String c s' =>
      if Ascii.eqb c "+" || Ascii.eqb c "-" then String c (fill +:+ s')
      else fill +:+ s
  | EmptyString => fill
  end.

End Str.

(** ** [assign_category] *)

Module Category.

(** The dict literal [category_keywords]; a dict iterates in insertion
    order, so it is an ordered list of pairs. *)
Definition category_keywords : list (string * list string) :=
  [ ("Electronics & Home",
      ["electronic"; "cable"; "charger"; "adapter"; "battery";
       "home"; "kitchen"; "appliance"; "tool"]);
    ("Fragrances", ["perfume"; "cologne"; "fragrance"; "scent"; "eau de"]);
    ("Beauty & Skincare",
      ["beauty"; "skincare"; "cream"; "lotion"; "makeup";
       "cosmetic"; "serum"; "face"]);
    ("Consumables & Health",
      ["vitamin"; "supplement"; "health"; "protein";
       "snack"; "food"; "drink"; "consumable"]);
    ("Collectibles & Toys",
      ["toy"; "collectible"; "figure"; "game"; "puzzle"; "lego"]);
    ("Apparel & Footwear",
      ["shirt"; "pants"; "shoes"; "clothing"; "apparel";
       "jacket"; "dress"; "footwear"]);
    ("Drinkware", ["mug"; "cup"; "bottle"; "tumbler"; "glass"; "drinkware"]);
    ("Sports", ["sport"; "fitness"; "exercise"; "gym"; "outdoor"; "athletic"]);
    ("Media & Entertainment", ["book"; "dvd"; "cd"; "media"; "movie"; "music"]) ]%string.

(** [any(kw in name_lower for kw in keywords)]. *)
Definition any_keyword (name_lower : string) (keywords : list string) : bool :=
  existsb (fun kw => Str.contains kw name_lower) keywords.

(** The [for category, keywords in ...items()] loop with its early return;
    [None] when the loop runs to its end. *)
Fixpoint scan (name_lower : string) (table : list (string * list string))
  : option string :=
  match table with
  | [] => None
  | (category, keywords) :: rest =>
      if any_keyword name_lower keywords then Some category
      else scan name_lower rest
  end.

(** [product_name] stands for the text [str(product_name)]. *)
Definition assign_category (product_name : string) : string :=
  let name_lower := Str.lower product_name in
  match scan name_lower category_keywords with
  | Some category => category
  | None => "Other"
  end.

(** The labels the function can return. *)
Definition labels : list string :=
  (map fst category_keywords ++ ["Other"])%list.

End Category.

(** ** [clean_european_number] *)

Module Cleaner.
Import Str.

(** *** The builtin [float]

    [float(int)] rounds to the nearest binary64 value and raises
    [OverflowError] when that value would not be finite, which is from
    [2^1024 - 2^970] on. *)
Definition float_of_int (z : Z) : result float :=
  if (Z.abs z <? 2 ^ 1024 - 2 ^ 970)%Z then Ok (Z_to_float z)
  else Raise OverflowError.

(** The binary64 value nearest to [m * 10^e] for [0 <= m] (ties to even,
    infinity on overflow), with sign [neg]: what [float(str)] returns for a
    decimal numeral. *)
Definition float_of_decimal (neg : bool) (m e : Z) : float :=
  SF2Prim
    match m with
    | Z0 => S754_zero neg
    | Zpos p =>
        if (0 <=? e)%Z
        then binary_round prec emax neg (p * Z.to_pos (10 ^ e)) 0
        else SFdiv prec emax (S754_finite neg p 0)
                              (S754_finite false (Z.to_pos (10 ^ (- e))) 0)
    | Zneg _ => S754_nan
    end.

(** ASCII whitespace, as [float] strips it. *)
Definition is_space (c : ascii) : bool :=
  (code c =? 32)%N || ((9 <=? code c)%N && (code c <=? 13)%N).

Fixpoint lstrip (s : string) : string :=
  match s with
  | EmptyString => EmptyString
  | String c s' => if is_space c then lstrip s' else s
  end.

Fixpoint rstrip (s : string) : string :=
  match s with
  | EmptyString => EmptyString
  | String c s' =>
      match rstrip s' with
      | EmptyString => if is_space c then EmptyString else String c EmptyString
      | r => String c r
      end
  end.

(** Underscores may only stand between two digits; they are dropped before
    the numeral is read.  [prev] is the character just passed. *)
Fixpoint drop_underscores (prev : ascii) (s : string) : option string :=
  match s with
  | EmptyString => if Ascii.eqb prev "_" then None else Some EmptyString
  | String c s' =>
      if Ascii.eqb c "_" then
        if is_digit prev then drop_underscores c s' else None
      else if Ascii.eqb prev "_" && negb (is_digit c) then None
      else String c <$> drop_underscores c s'
  end.

Definition parse_sign (s : string) : bool * string :=
  match s with
  | String c s' =>
      if Ascii.eqb c "-" then (true, s')
      else if Ascii.eqb c "+" then (false, s')
      else (false, s)
  | EmptyString => (false, s)
  end.

(** Reads a run of digits: the number read so far, how many digits were
    read, and the rest of the text. *)
Fixpoint digits (acc count : Z) (s : string) : Z * Z * string :=
  match s with
  | String c s' =>
      if is_digit c then digits (10 * acc + digit_value c) (count + 1) s'
      else (acc, count, s)
  | EmptyString => (acc, count, s)
  end.

(** An exponent needs at least one digit; without one the [e] is not part of
    the numeral. *)
Definition parse_exponent (s : string) : Z * string :=
  match s with
  | String c s1 =>
      if Ascii.eqb c "e" || Ascii.eqb c "E" then
        let '(esign, s2) := parse_sign s1 in
        let '(abs_exp, n, s3) := digits 0 0 s2 in
        if (n =? 0)%Z then (0%Z, s)
        else ((if esign : bool then - abs_exp else abs_exp)%Z, s3)
      else (0%Z, s)
  | EmptyString => (0%Z, s)
  end.

(** The decimal numeral at the start of [s]: its value and the text after
    it; [None] when there is no digit.  (Numerals of more than [10^9] digits,
    which CPython refuses, are outside the embedding.) *)
Definition strtod (s : string) : option (float * string) :=
  let '(neg, s1) := parse_sign s in
  let '(m1, n1, s2) := digits 0 0 s1 in
  let '(m, nfrac, s3) :=
    match s2 with
    | String c s2' =>
        if Ascii.eqb c "." then digits m1 0 s2' else (m1, 0%Z, s2)
    | EmptyString => (m1, 0%Z, s2)
    end in
  if (n1 + nfrac =? 0)%Z then None
  else
    let '(e, s4) := parse_exponent s3 in
    Some (float_of_decimal neg m (e - nfrac), s4).

(** [pat] (in lower case) at the start of [s], whatever the case of [s]. *)
Fixpoint match_nocase (pat s : string) : option string :=
  match pat with
  | EmptyString => Some s
  | String p pat' =>
      match s with
      | String c s' =>
          if Ascii.eqb (lower_char c) p then match_nocase pat' s' else None
      | EmptyString => None
      end
  end.

Definition parse_inf_or_nan (s : string) : option (float * string) :=
  let '(neg, s1) := parse_sign s in
  match match_nocase "inf" s1 with
  | Some s2 =>
      let s3 := default s2 (match_nocase "inity" s2) in
      Some (if neg : bool then neg_infinity else infinity, s3)
  | None =>
      match match_nocase "nan" s1 with
      | Some s2 => Some (nan, s2)
      | None => None
      end
  end.

Definition string_to_double (s : string) : option (float * string) :=
  match strtod s with
  | Some r => Some r
  | None => parse_inf_or_nan s
  end.

(** [float(s)] for a string: the whole of [s], stripped of surrounding
    whitespace, must be one numeral, or [ValueError] is raised. *)
Definition float_of_string (s : string) : result float :=
  match drop_underscores "000" s with
  | None => Raise ValueError
  | Some s =>
      match string_to_double (rstrip (lstrip s)) with
      | Some (x, EmptyString) => Ok x
      | _ => Raise ValueError
      end
  end.

Definition py_float (v : cell) : result float :=
  match v with
  | CNone => Raise TypeError
  | CBool b => Ok (if b then 1 else 0)%float
  | CInt z => float_of_int z
  | CFloat f => Ok f
  | CStr s => float_of_string s
  end.

(** [pd.isna] on a scalar. *)
Definition pd_isna (v : cell) : bool :=
  match v with
  | CNone => true
  | CFloat f => PrimFloat.is_nan f
  | _ => false
  end.

(** [isinstance(value, (int, float))]. *)
Definition is_int_or_float (v : cell) : bool :=
  match v with
  | CBool _ | CInt _ | CFloat _ => true
  | CNone | CStr _ => false
  end.

(** [str(value)]; only a [str] reaches this call, and is returned as it is. *)
Definition py_str (v : cell) : string :=
  match v with
  | CStr s => s
  | _ => EmptyString
  end.

Definition clean_european_number (value : cell) : result float :=
  if pd_isna value then Ok 0%float
  else if is_int_or_float value then py_float value
  else
    let cleaned := replace "," "." (replace " " EmptyString (py_str value)) in
    match py_float (CStr cleaned) with
    | Raise ValueError => Ok 0%float
    | r => r
    end.

(** A cell that [float] accepts when it is a number: anything but an integer
    beyond the binary64 range. *)
Definition convertible (v : cell) : Prop :=
  ∀ z : Z, v = CInt z → (Z.abs z < 2 ^ 1024 - 2 ^ 970)%Z.

End Cleaner.

(** ** [process_sku_data] *)

Module SkuTable.
Import Cleaner HealthScore Tier.
Local Open Scope float_scope.

(** A row of the SKU export as [read_csv] delivers it.  The four money
    columns may hold text in the European format; [Units_Sold] and [Refunds]
    are numeric columns ([int64] or [float64]); [in_other] holds every further
    column of the file.  Column-wise pandas operations act on each row alone,
    so the table is a list of rows. *)
Record raw_row : Type := {
  in_SKU : cell;
  in_Revenue : cell;
  in_COGS : cell;
  in_Amazon_Fees : cell;
  in_Net_Profit : cell;
  in_Units_Sold : num;
  in_Refunds : num;
  in_other : gmap string cell
}.

(** A row of the table that is written out. *)
Record sku_row : Type := {
  SKU : cell;
  Revenue : float;
  COGS : float;
  Amazon_Fees : float;
  Net_Profit : float;
  Units_Sold : num;
  Refunds : num;
  Margin_Pct : float;
  ROI_Pct : float;
  Refund_Rate_Pct : float;
  Avg_Sale_Price : float;
  Profit_Per_Unit : float;
  Health_Score : Z;
  Performance_Tier : string;
  other : gmap string cell
}.

(** An [int64] entry that meets a float operand, or is divided, becomes the
    nearest [float64]. *)
Definition num_to_float (x : num) : float :=
  match x with
  | NInt z => Z_to_float z
  | NFloat f => f
  end.

Definition cell_of_num (x : num) : cell :=
  match x with
  | NInt z => CInt z
  | NFloat f => CFloat f
  end.

(** [np.where(cond, x, y)] at one position: both [x] and [y] have been
    computed; float division by zero gives an infinity or [nan] and raises
    nothing. *)
Definition np_where (cond : bool) (x y : float) : float := if cond then x else y.

Definition margin_pct (net_profit revenue : float) : float :=
  np_where (0 <? revenue) ((net_profit / revenue) * 100) 0.

Definition roi_pct (net_profit cogs : float) : float :=
  np_where (0 <? PrimFloat.abs cogs) ((net_profit / PrimFloat.abs cogs) * 100) 0.

Definition refund_rate_pct (refunds units_sold : num) : float :=
  np_where (num_gt units_sold 0)
           ((num_to_float refunds / num_to_float units_sold) * 100) 0.

Definition avg_sale_price (revenue : float) (units_sold : num) : float :=
  np_where (num_gt units_sold 0) (revenue / num_to_float units_sold) 0.

Definition profit_per_unit (net_profit : float) (units_sold : num) : float :=
  np_where (num_gt units_sold 0) (net_profit / num_to_float units_sold) 0.

(** The row handed to [calculate_health_score] by [df.apply(..., axis=1)]:
    every column present at that point, under its name. *)
Definition as_series (r : sku_row) : gmap string cell :=
  <["SKU" := SKU r]>
  (<["Revenue" := CFloat (Revenue r)]>
  (<["COGS" := CFloat (COGS r)]>
  (<["Amazon_Fees" := CFloat (Amazon_Fees r)]>
  (<["Net_Profit" := CFloat (Net_Profit r)]>
  (<["Units_Sold" := cell_of_num (Units_Sold r)]>
  (<["Refunds" := cell_of_num (Refunds r)]>
  (<["Margin_Pct" := CFloat (Margin_Pct r)]>
  (<["ROI_Pct" := CFloat (ROI_Pct r)]>
  (<["Refund_Rate_Pct" := CFloat (Refund_Rate_Pct r)]>
  (<["Avg_Sale_Price" := CFloat (Avg_Sale_Price r)]>
  (<["Profit_Per_Unit" := CFloat (Profit_Per_Unit r)]> (other r)))))))))))).

Definition row_convertible (r : raw_row) : Prop :=
  convertible (in_Revenue r) ∧ convertible (in_COGS r)
  ∧ convertible (in_Amazon_Fees r) ∧ convertible (in_Net_Profit r).

(** Cleaning, derived metrics, score and tier of one row; the [SKU] is still
    the one of the file.  The score is computed on the row as it stands
    before the [Health_Score] and [Performance_Tier] columns exist, and
    [as_series] does not read these two fields. *)
Definition process_row (r : raw_row) : result sku_row :=
  revenue ← clean_european_number (in_Revenue r);
  cogs ← clean_european_number (in_COGS r);
  fees ← clean_european_number (in_Amazon_Fees r);
  net_profit ← clean_european_number (in_Net_Profit r);
  let units := in_Units_Sold r in
  let refunds := in_Refunds r in
  let derived score tier :=
    {| SKU := in_SKU r; Revenue := revenue; COGS := cogs; Amazon_Fees := fees;
       Net_Profit := net_profit; Units_Sold := units; Refunds := refunds;
       Margin_Pct := margin_pct net_profit revenue;
       ROI_Pct := roi_pct net_profit cogs;
       Refund_Rate_Pct := refund_rate_pct refunds units;
       Avg_Sale_Price := avg_sale_price revenue units;
       Profit_Per_Unit := profit_per_unit net_profit units;
       Health_Score := score; Performance_Tier := tier;
       other := in_other r |} in
  score ← calculate_health_score (as_series (derived 0%Z EmptyString));
  tier ← assign_performance_tier (CInt score);
  Ok (derived score tier).

Fixpoint process_rows (rows : list raw_row) : result (list sku_row) :=
  match rows with
  | [] => Ok []
  | r :: rest =>
      r' ← process_row r;
      rest' ← process_rows rest;
      Ok (r' :: rest')
  end.

(** [f'SKU-{str(i+1).zfill(4)}']. *)
Definition sku_label (i : nat) : string :=
  "SKU-" +:+ Str.zfill 4 (Str.of_nat (i + 1)).

Definition set_SKU (label : string) (r : sku_row) : sku_row :=
  {| SKU := CStr label; Revenue := Revenue r; COGS := COGS r;
     Amazon_Fees := Amazon_Fees r; Net_Profit := Net_Profit r;
     Units_Sold := Units_Sold r; Refunds := Refunds r;
     Margin_Pct := Margin_Pct r; ROI_Pct := ROI_Pct r;
     Refund_Rate_Pct := Refund_Rate_Pct r;
     Avg_Sale_Price := Avg_Sale_Price r;
     Profit_Per_Unit := Profit_Per_Unit r;
     Health_Score := Health_Score r;
     Performance_Tier := Performance_Tier r; other := other r |}.

(** [df['SKU'] = [... for i in range(len(df))]]. *)
Definition anonymize (rows : list sku_row) : list sku_row :=
  imap (fun i r => set_SKU (sku_label i) r) rows.

Definition process_sku_data (rows : list raw_row) : result (list sku_row) :=
  df ← process_rows rows;
  Ok (anonymize df).

End SkuTable.

(** ** [process_sku_data] on columns that may hold text

    [SkuTable] follows the function on a table whose [Units_Sold] and
    [Refunds] columns are numeric.  The function cleans the four money
    columns only: when [read_csv] has found text in [Units_Sold] or in
    [Refunds] the column holds strings, and the first comparison or division
    on it raises [TypeError].  This module adds that path; the cleaning loop
    runs over the whole table before it.  (A column of booleans, or a table
    that lacks one of the columns, is not covered.) *)

Module SkuCsv.
Import Cleaner SkuTable.

(** A cell of a column that is not cleaned: a number, or text. *)
Inductive column_cell : Type :=
  | Number (x : num)
  | Text (s : string).

Record csv_row : Type := {
  csv_SKU : cell;
  csv_Revenue : cell;
  csv_COGS : cell;
  csv_Amazon_Fees : cell;
  csv_Net_Profit : cell;
  csv_Units_Sold : column_cell;
  csv_Refunds : column_cell;
  csv_other : gmap string cell
}.

(** The cleaning loop on the cells of one row. *)
Definition clean_money (r : csv_row) : result (float * float * float * float) :=
  revenue ← clean_european_number (csv_Revenue r);
  cogs ← clean_european_number (csv_COGS r);
  fees ← clean_european_number (csv_Amazon_Fees r);
  net_profit ← clean_european_number (csv_Net_Profit r);
  Ok (revenue, cogs, fees, net_profit).

(** [cell > 0] and [cell / cell]: a [str] against a number raises
    [TypeError]. *)
Definition as_number (c : column_cell) : result num :=
  match c with
  | Number x => Ok x
  | Text _ => Raise TypeError
  end.

(** The row with its two uncleaned columns read as numbers. *)
Definition numeric_row (r : csv_row) : result raw_row :=
  units ← as_number (csv_Units_Sold r);
  refunds ← as_number (csv_Refunds r);
  Ok {| in_SKU := csv_SKU r;
        in_Revenue := csv_Revenue r;
        in_COGS := csv_COGS r;
        in_Amazon_Fees := csv_Amazon_Fees r;
        in_Net_Profit := csv_Net_Profit r;
        in_Units_Sold := units;
        in_Refunds := refunds;
        in_other := csv_other r |}.

Definition process_sku_data (rows : list csv_row) : result (list sku_row) :=
  _ ← mapM clean_money rows;
  raws ← mapM numeric_row rows;
  SkuTable.process_sku_data raws.

(** No money cell of the row is an integer beyond the binary64 range. *)
Definition money_convertible (r : csv_row) : Prop :=
  convertible (csv_Revenue r) ∧ convertible (csv_COGS r)
  ∧ convertible (csv_Amazon_Fees r) ∧ convertible (csv_Net_Profit r).

(** Neither [Units_Sold] nor [Refunds] holds text in the row. *)
Definition numeric_columns (r : csv_row) : Prop :=
  (∃ x, csv_Units_Sold r = Number x) ∧ (∃ y, csv_Refunds r = Number y).

End SkuCsv.

(** ** [process_daily_data]: ordering by date and the rolling means

    The columns are float64 (or int64) columns, with NaN for a missing number,
    and the rolling means are computed as pandas computes them, in binary64.
    The calendar columns and the two ratio columns do not enter the rolling
    means; the ratio columns follow in the next module. *)

Module Daily.
Import SkuTable.
Local Open Scope float_scope.

(** A record of the daily export; [Date] is the timestamp [pd.to_datetime]
    has produced, the other columns are int64 or float64 columns, with NaN
    for a missing number. *)
Record daily_raw : Type := {
  Date : Z;
  Net_Profit : num;
  Units_Sold : num;
  Revenue : num;
  Sessions : num;
  Orders : num
}.

Record daily_row : Type := {
  day : daily_raw;
  Profit_7day_MA : float;
  Units_7day_MA : float;
  Revenue_7day_MA : float
}.

Definition date_le (a b : daily_raw) : Prop := (Date a <= Date b)%Z.

#[global] Instance date_le_dec : RelDecision date_le.
Proof. intros a b. unfold date_le. apply _. Defined.

(** [df.sort_values('Date')]: the records in ascending order of [Date].
    pandas promises no order among records of the same date; the theorems
    that speak of positions are for tables without a repeated date, where
    the order is the only one there is. *)
Definition sort_values (df : list daily_raw) : list daily_raw :=
  merge_sort date_le df.

(** *** [Series.rolling(window=7, min_periods=1).mean()]

    The method is pandas' own.  What follows embeds the routine it runs,
    [roll_mean] of [pandas/_libs/window/aggregations.pyx], on the bounds of a
    fixed window, after [Rolling._prep_values] has made the column a float64
    array and replaced its infinities by NaN.  The routine keeps the number
    of observations, their sum with a Kahan compensation, the number of
    observations with the sign bit set and the length of the current run of
    equal values; it removes the values that leave the window and adds those
    that enter.  A NaN is a missing value and no observation. *)

(** [Rolling._prep_values]. *)
Definition prep_values (values : list num) : list float :=
  (fun v => let x := num_to_float v in
            if PrimFloat.is_infinity x then nan else x) <$> values.

Record roll_state : Type := {
  nobs : Z;
  sum_x : float;
  neg_ct : Z;
  compensation_add : float;
  compensation_remove : float;
  num_consecutive_same_value : Z;
  prev_value : float
}.

(** C's [signbit]. *)
Definition signbit (x : float) : bool :=
  match Prim2SF x with
  | S754_zero s | S754_infinity s | S754_finite s _ _ => s
  | S754_nan => false
  end.

Definition add_mean (val : float) (st : roll_state) : roll_state :=
  if val =? val then
    let y := val - compensation_add st in
    let t := sum_x st + y in
    {| nobs := (nobs st + 1)%Z;
       sum_x := t;
       neg_ct := if signbit val then (neg_ct st + 1)%Z else neg_ct st;
       compensation_add := t - sum_x st - y;
       compensation_remove := compensation_remove st;
       num_consecutive_same_value :=
         if val =? prev_value st
         then (num_consecutive_same_value st + 1)%Z else 1%Z;
       prev_value := val |}
  else st.

Definition remove_mean (val : float) (st : roll_state) : roll_state :=
  if val =? val then
    let y := - val - compensation_remove st in
    let t := sum_x st + y in
    {| nobs := (nobs st - 1)%Z;
       sum_x := t;
       neg_ct := if signbit val then (neg_ct st - 1)%Z else neg_ct st;
       compensation_add := compensation_add st;
       compensation_remove := t - sum_x st - y;
       num_consecutive_same_value := num_consecutive_same_value st;
       prev_value := prev_value st |}
  else st.

Definition calc_mean (minp : Z) (st : roll_state) : float :=
  if ((minp <=? nobs st) && (0 <? nobs st))%Z then
    let result := sum_x st / Z_to_float (nobs st) in
    if (nobs st <=? num_consecutive_same_value st)%Z then prev_value st
    else if (neg_ct st =? 0)%Z && (result <? 0) then 0
    else if (neg_ct st =? nobs st)%Z && (0 <? result) then 0
    else result
  else nan.

(** The bounds of the window of position [i]: [start[i] = max(0, i+1-window)]
    and [end[i] = i+1]. *)
Definition window_start (window i : nat) : nat := (i + 1 - window)%nat.
Definition window_end (i : nat) : nat := (i + 1)%nat.

(** [values[a:b]]. *)
Definition slice (a b : nat) (values : list float) : list float :=
  take (b - a) (drop a values).

(** The state a window is set up with. *)
Definition setup (values : list float) (s : nat) : roll_state :=
  {| nobs := 0; sum_x := 0; neg_ct := 0;
     compensation_add := 0; compensation_remove := 0;
     num_consecutive_same_value := 0;
     prev_value := default nan (values !! s) |}.

(** The state for position [i], from the state [st] of position [i-1]. *)
Definition roll_step (values : list float) (window i : nat)
    (st : roll_state) : roll_state :=
  let s := window_start window i in
  let e := window_end i in
  if (i =? 0)%nat || (window_end (i - 1) <=? s)%nat then
    foldl (fun st val => add_mean val st) (setup values s) (slice s e values)
  else
    let st := foldl (fun st val => remove_mean val st) st
                (slice (window_start window (i - 1)) s values) in
    foldl (fun st val => add_mean val st) st
      (slice (window_end (i - 1)) e values).

(** The loop over the positions [i], [i+1], ..., [i+n-1]. *)
Fixpoint roll_from (values : list float) (window : nat) (minp : Z)
    (i n : nat) (st : roll_state) : list float :=
  match n with
  | O => []
  | S n' =>
      let st := roll_step values window i st in
      calc_mean minp st :: roll_from values window minp (S i) n' st
  end.

Definition roll_mean (values : list float) (window : nat) (minp : Z)
  : list float :=
  roll_from values window minp 0 (length values) (setup values 0).

Definition rolling_mean (window : nat) (minp : Z) (column : list num)
  : list float :=
  roll_mean (prep_values column) window minp.

Definition process_daily_data (records : list daily_raw) : list daily_row :=
  let df := sort_values records in
  let profit_ma := rolling_mean 7 1 (Net_Profit <$> df) in
  let units_ma := rolling_mean 7 1 (Units_Sold <$> df) in
  let revenue_ma := rolling_mean 7 1 (Revenue <$> df) in
  imap (fun i r =>
          {| day := r;
             Profit_7day_MA := default nan (profit_ma !! i);
             Units_7day_MA := default nan (units_ma !! i);
             Revenue_7day_MA := default nan (revenue_ma !! i) |}) df.

End Daily.

(** ** [process_daily_data]: the two ratio columns

    [Sessions], [Orders], [Revenue] and [Net_Profit] are numeric columns of
    the daily export ([int64] or [float64]); the ratios are binary64 values,
    computed as in the SKU table. *)

Module DailyRatios.
Import SkuTable.
Local Open Scope float_scope.

Definition conversion_rate_pct (orders sessions : num) : float :=
  np_where (num_gt sessions 0)
           ((num_to_float orders / num_to_float sessions) * 100) 0.

Definition daily_margin_pct (net_profit revenue : num) : float :=
  np_where (num_gt revenue 0)
           ((num_to_float net_profit / num_to_float revenue) * 100) 0.

End DailyRatios.

(** ** [generate_summary_stats]: the average margin

    The sums over columns, the breakdown by category and the printed lines
    are not embedded: only the guarded ratio of the two totals is. *)

Module Summary.
Import SkuTable.
Local Open Scope float_scope.

(** [(total_profit / total_revenue * 100) if total_revenue else 0]: a float
    is false when it equals zero, so [nan] counts as true. *)
Definition avg_margin (total_profit total_revenue : float) : float :=
  if PrimFloat.eqb total_revenue 0 then 0
  else total_profit / total_revenue * 100.

(** The tiers in the order the summary lists them. *)
Definition tier_order : list string := ["Star"; "Strong"; "Average"; "Weak"].

End Summary.

(** * Reference definitions

    The definitions of this part follow the wording of the specification;
    the theorems compare them with the embedded code. *)

(** ** The health score as a sum of four table look-ups *)

Module ScoreSpec.
Local Open Scope Z_scope.

(** A threshold table lists [(threshold, points)] from the highest
    threshold down; a value earns the points of the first threshold it
    exceeds. *)
Fixpoint table_points (table : list (Z * Z)) (x : num) : option Z :=
  match table with
  | [] => None
  | (threshold, points) :: rest =>
      if num_gt x threshold then Some points else table_points rest x
  end.

Definition profit_table : list (Z * Z) := [(500, 20); (200, 15); (100, 10); (50, 5)].
Definition velocity_table : list (Z * Z) := [(50, 15); (25, 10); (10, 5)].
Definition roi_table : list (Z * Z) := [(50, 10); (25, 5)].
Definition margin_table : list (Z * Z) := [(20, 5)].

Definition profit_adjustment (net_profit : num) : Z :=
  default (if num_lt net_profit 0 then -15 else 0) (table_points profit_table net_profit).

Definition velocity_adjustment (units_sold : num) : Z :=
  default (if num_eq units_sold 0 then -10 else 0) (table_points velocity_table units_sold).

Definition roi_adjustment (roi_pct : num) : Z :=
  default (if num_lt roi_pct 0 then -10 else 0) (table_points roi_table roi_pct).

Definition margin_adjustment (margin_pct : num) : Z :=
  default (if num_lt margin_pct 5 then -5 else 0) (table_points margin_table margin_pct).

Definition clamp (lo hi x : Z) : Z := Z.max lo (Z.min hi x).

Definition health_score (net_profit units_sold roi_pct margin_pct : num) : Z :=
  clamp 0 100
    (50 + profit_adjustment net_profit + velocity_adjustment units_sold
        + roi_adjustment roi_pct + margin_adjustment margin_pct).

End ScoreSpec.

(** ** Numbers in the European format *)

Module Euro.

(** A numeral: a sign, the groups of digits of the integer part (written
    with a space between groups) and the digits after the decimal comma. *)
Record numeral : Type := {
  negative : bool;
  groups : list (list nat);
  fraction : list nat
}.

Definition digit_char (d : nat) : ascii := ascii_of_nat (48 + d).

Fixpoint show_digits (ds : list nat) : string :=
  match ds with
  | [] => EmptyString
  | d :: ds' => String (digit_char d) (show_digits ds')
  end.

Fixpoint show_groups (gs : list (list nat)) : string :=
  match gs with
  | [] => EmptyString
  | [g] => show_digits g
  | g :: gs' => show_digits g +:+ String " " (show_groups gs')
  end.

Definition show (n : numeral) : string :=
  (if negative n then "-" else EmptyString) +:+ show_groups (groups n)
  +:+ match fraction n with
      | [] => EmptyString
      | ds => String "," (show_digits ds)
      end.

(** The same numeral in the plain notation: no group separators, and a
    point for the comma. *)
Definition show_plain (n : numeral) : string :=
  (if negative n then "-" else EmptyString) +:+ show_digits (concat (groups n))
  +:+ match fraction n with
      | [] => EmptyString
      | ds => String "." (show_digits ds)
      end.

(** The integer written by a run of digits. *)
Definition digits_value (ds : list nat) : Z :=
  fold_left (fun acc d => 10 * acc + Z.of_nat d)%Z ds 0%Z.

(** The float the numeral denotes: the binary64 value nearest to the decimal
    number it writes, as the literal of that number is read. *)
Definition denoted (n : numeral) : float :=
  Cleaner.float_of_decimal (negative n)
    (digits_value (concat (groups n) ++ fraction n))
    (- Z.of_nat (length (fraction n))).

Definition well_formed (n : numeral) : Prop :=
  Forall (Forall (fun d => d < 10)%nat) (groups n)
  ∧ Forall (fun d => d < 10)%nat (fraction n)
  ∧ concat (groups n) ≠ [].

End Euro.

(** ** Integers as binary64 numbers *)

Module Binary64.
Local Open Scope Z_scope.

(** The mantissa and exponent of the binary64 number that is the positive
    integer [q], for [q] of 53 binary digits at most: the digits of [q]
    shifted to the left until they fill the 53 places. *)
Definition norm_m (q : positive) : positive :=
  Z.to_pos (Zpos q * 2 ^ (53 - Zpos (digits2_pos q))).

Definition norm_e (q : positive) : Z := Zpos (digits2_pos q) - 53.

(** The binary64 number that is the integer [z], for [|z| < 2^53]. *)
Definition of_Z (z : Z) : spec_float :=
  match z with
  | Z0 => S754_zero false
  | Zpos q => S754_finite false (norm_m q) (norm_e q)
  | Zneg q => S754_finite true (norm_m q) (norm_e q)
  end.


(** The rational number a finite float is. *)
Definition value (x : float) : option Qc :=
  match Prim2SF x with
  | S754_zero _ => Some (Q2Qc 0)
  | S754_finite s m e =>
      Some (Q2Qc (inject_Z (if s then Zneg m else Zpos m) * Qpower 2 e))
  | _ => None
  end.

End Binary64.

(** ** Windows and means *)

Module MeanSpec.

(** The entries at positions [max(0, i-6) .. i]. *)
Definition last_seven {A} (i : nat) (l : list A) : list A :=
  take (Nat.min (i + 1) 7) (drop (i + 1 - 7) l).

(** The entries at the [window] positions before position [i], fewer when
    [i < window]. *)
Definition window_upto {A} (window i : nat) (l : list A) : list A :=
  drop (i - window) (take i l).

(** The numbers that are there. *)
Definition present {A} (l : list (option A)) : list A := omap id l.

Definition total (l : list Z) : Z := foldr Z.add 0%Z l.

(** The mean of integers as a binary64 number: the sum and the count are
    exact (below [2^53]), and the one division rounds to nearest.  With no
    number it is 0/0, NaN. *)
Definition mean64 (w : list Z) : float :=
  (Z_to_float (total w) / Z_to_float (Z.of_nat (length w)))%float.

(** The arithmetic mean, in exact rationals. *)
Definition mean (w : list Z) : Qc :=
  (Q2Qc (inject_Z (total w)) / Q2Qc (inject_Z (Z.of_nat (length w))))%Qc.

(** An integer small enough for seven of them to add up exactly. *)
Definition small (z : Z) : Prop := (Z.abs z < 2 ^ 50)%Z.

(** The float of a cell that holds the integer [z], or nothing. *)
Definition cell_float (o : option Z) : float := from_option Z_to_float nan o.

(** A missing cell: NaN, or an infinity, which pandas' rolling windows take
    for one. *)
Definition missing (v : num) : bool :=
  PrimFloat.is_nan (SkuTable.num_to_float v)
  || PrimFloat.is_infinity (SkuTable.num_to_float v).

(** The column [column] holds the small integers [zs], with [None] for its
    missing cells. *)
Definition integral (column : list num) (zs : list (option Z)) : Prop :=
  Forall2 (fun v o =>
             match o with
             | Some z => small z ∧ SkuTable.num_to_float v = Z_to_float z
             | None => missing v = true
             end) column zs.

(** How many of the floats are observations, that is, are not NaN. *)
Definition observed (l : list float) : Z :=
  foldr (fun x k => if (x =? x)%float then (k + 1)%Z else k) 0%Z l.

(** How many of the integers are negative. *)
Definition negatives (w : list Z) : Z :=
  foldr (fun z k => if (z <? 0)%Z then (k + 1)%Z else k) 0%Z w.

(** The length of the run of [v] at the head of [l]. *)
Fixpoint run_from (v : Z) (l : list Z) : Z :=
  match l with
  | x :: l' => if (x =? v)%Z then (1 + run_from v l')%Z else 0%Z
  | [] => 0%Z
  end.

Definition run (l : list Z) : Z :=
  match l with
  | v :: l' => (1 + run_from v l')%Z
  | [] => 0%Z
  end.

(** What [roll_mean] holds after a position when every sum has been exact:
    [w] are the numbers of the window and [before] the numbers up to the
    position, the latest first. *)
Definition window_state (v0 : float) (before w : list Z) : Daily.roll_state :=
  {| Daily.nobs := Z.of_nat (length w);
     Daily.sum_x := Z_to_float (total w);
     Daily.neg_ct := negatives w;
     Daily.compensation_add := 0;
     Daily.compensation_remove := 0;
     Daily.num_consecutive_same_value := run before;
     Daily.prev_value := match before with
                         | v :: _ => Z_to_float v
                         | [] => v0
                         end |}.

(** How many of the floats are observations with the sign bit set. *)
Definition negative_observed (l : list float) : Z :=
  foldr (fun x k => if (x =? x)%float && Daily.signbit x then (k + 1)%Z else k)
        0%Z l.

(** The latest observation among the floats, or [p] when there is none. *)
Definition last_observed (p : float) (l : list float) : float :=
  foldl (fun p x => if (x =? x)%float then x else p) p l.

(** A cell that is not below zero: its sign bit is not set. *)
Definition not_negative (v : num) : bool :=
  negb (Daily.signbit (SkuTable.num_to_float v)).

(** A cell that is missing or below zero. *)
Definition missing_or_negative (v : num) : bool :=
  missing v || Daily.signbit (SkuTable.num_to_float v).

End MeanSpec.

(** ** Keyword matching *)

Module CategorySpec.

(** [kw] occurs in [s]: some text, then [kw], then some text. *)
Definition occurs (kw s : string) : Prop :=
  ∃ pre post : string, s = pre +:+ kw +:+ post.

(** A keyword list matches a name when one of its keywords occurs in it. *)
Definition matches (name_lower : string) (keywords : list string) : Prop :=
  ∃ kw, kw ∈ keywords ∧ occurs kw name_lower.

End CategorySpec.

(** ** Sample inputs *)

Module Samples.

(** A row with a loss, no sale, a negative ROI and a thin margin, and a row
    that earns every bonus. *)
Definition worst_row : gmap string cell :=
  {[ "Net_Profit" := CFloat (-12.5)%float; "Units_Sold" := CInt 0;
     "ROI_Pct" := CFloat (-40)%float; "Margin_Pct" := CFloat (-8)%float;
     "SKU" := CStr "SKU-0001" ]}.

Definition best_row : gmap string cell :=
  {[ "Net_Profit" := CFloat 812.4%float; "Units_Sold" := CInt 73;
     "ROI_Pct" := CFloat 61.5%float; "Margin_Pct" := CFloat 32%float ]}.

(** The numeral [5 191,16]. *)
Definition five_thousand : Euro.numeral :=
  {| Euro.negative := false;
     Euro.groups := [[5]; [1; 9; 1]];
     Euro.fraction := [1; 6] |}.

(** A SKU whose cost of goods is booked as a negative amount, and one with
    no sale and no revenue. *)
Definition negative_cogs_row : SkuTable.raw_row :=
  {| SkuTable.in_SKU := CStr "B00QX7";
     SkuTable.in_Revenue := CStr "1 000,50";
     SkuTable.in_COGS := CStr "-10,00";
     SkuTable.in_Amazon_Fees := CInt 3;
     SkuTable.in_Net_Profit := CFloat 5%float;
     SkuTable.in_Units_Sold := NInt 40;
     SkuTable.in_Refunds := NInt 2;
     SkuTable.in_other := {[ "Product" := CStr "USB Charger Cable" ]} |}.

Definition unsold_row : SkuTable.raw_row :=
  {| SkuTable.in_SKU := CStr "B07ZZ1";
     SkuTable.in_Revenue := CInt 0;
     SkuTable.in_COGS := CFloat 0%float;
     SkuTable.in_Amazon_Fees := CNone;
     SkuTable.in_Net_Profit := CStr "-12,40";
     SkuTable.in_Units_Sold := NInt 0;
     SkuTable.in_Refunds := NInt 0;
     SkuTable.in_other := ∅ |}.

End Samples.

(** ** Sample days *)

Module DailySamples.

(** Nine days of figures, the first two out of order. *)
Definition day_of (date profit units revenue : Z) : Daily.daily_raw :=
  {| Daily.Date := date;
     Daily.Net_Profit := NInt profit;
     Daily.Units_Sold := NInt units;
     Daily.Revenue := NInt revenue;
     Daily.Sessions := NFloat nan;
     Daily.Orders := NFloat nan |}.

Definition nine_days : list Daily.daily_raw :=
  [ day_of 2 20 2 200; day_of 1 10 1 100; day_of 3 30 3 300;
    day_of 4 40 4 400; day_of 5 50 5 500; day_of 6 60 6 600;
    day_of 7 70 7 700; day_of 8 80 8 800; day_of 9 90 9 900 ].

Definition nine_days_sorted : list Daily.daily_raw :=
  [ day_of 1 10 1 100; day_of 2 20 2 200; day_of 3 30 3 300;
    day_of 4 40 4 400; day_of 5 50 5 500; day_of 6 60 6 600;
    day_of 7 70 7 700; day_of 8 80 8 800; day_of 9 90 9 900 ].

(** Three days whose profits are too large for their sum to be a binary64
    number. *)
Definition big_days : list Daily.daily_raw :=
  [ day_of 1 4000000000000000 1 0; day_of 2 4000000000000001 1 0;
    day_of 3 4000000000000002 1 0 ].

(** Days of which only the profit is known, if that; the profit of one day
    is infinite. *)
Definition day_missing (date : Z) (profit : float) : Daily.daily_raw :=
  {| Daily.Date := date;
     Daily.Net_Profit := NFloat profit;
     Daily.Units_Sold := NFloat nan;
     Daily.Revenue := NFloat nan;
     Daily.Sessions := NFloat nan;
     Daily.Orders := NFloat nan |}.

Definition gappy_days : list Daily.daily_raw :=
  [ day_missing 1 nan; day_missing 2 infinity; day_missing 3 30 ].

(** Nine days of profits, none below zero, whose running sum has fallen
    below zero by the ninth day. *)
Definition cancelling_days : list Daily.daily_raw :=
  [ day_missing 1 1; day_missing 2 1e16; day_missing 3 0; day_missing 4 0;
    day_missing 5 0; day_missing 6 0.1; day_missing 7 1; day_missing 8 0;
    day_missing 9 0 ].

End DailySamples.

Module CsvSamples.

(** A row whose [Units_Sold] was exported with a thousands separator, and
    so was read as text. *)
Definition text_units_row : SkuCsv.csv_row :=
  {| SkuCsv.csv_SKU := CStr "B00QX7";
     SkuCsv.csv_Revenue := CStr "21 000,50";
     SkuCsv.csv_COGS := CStr "9 800,00";
     SkuCsv.csv_Amazon_Fees := CFloat 310.5%float;
     SkuCsv.csv_Net_Profit := CStr "4 120,75";
     SkuCsv.csv_Units_Sold := SkuCsv.Text "1 250";
     SkuCsv.csv_Refunds := SkuCsv.Number (NInt 12);
     SkuCsv.csv_other := ∅ |}.

End CsvSamples.

(** ** Ranking the tiers *)

Module TierSpec.

(** The place of a tier, from the weakest up. *)
Definition tier_rank (tier : string) : nat :=
  if String.eqb tier "Star" then 3
  else if String.eqb tier "Strong" then 2
  else if String.eqb tier "Average" then 1
  else 0.

End TierSpec.


(** ** The order of the category labels *)

Module CategoryRank.

(** The place of [label] in [ls], counted from 0; the length of [ls] when it
    is not there. *)
Fixpoint position (label : string) (ls : list string) : nat :=
  match ls with
  | [] => 0
  | l :: ls' => if decide (l = label) then 0 else S (position label ls')
  end.

(** The place of a label in the order the table is walked in, [Other] last. *)
Definition rank (label : string) : nat := position label Category.labels.

End CategoryRank.

(** ** Counting the separators of a text *)

Module CleanerSpec.

(** The number of characters of [s] that pass the test [p]. *)
Fixpoint count (p : ascii → bool) (s : string) : nat :=
  match s with
  | EmptyString => 0
  | String c s' => (if p c then 1 else 0) + count p s'
  end.

Definition is_point (c : ascii) : bool := Ascii.eqb c ".".

(** Commas and points: what the cleaner hands to [float] as a point. *)
Definition is_separator (c : ascii) : bool := Ascii.eqb c "," || Ascii.eqb c ".".

Definition points (s : string) : nat := count is_point s.

Definition separators (s : string) : nat := count is_separator s.

(** The ways to write [p] with each character as it is or 32 places down in
    the ASCII table, where the capital of a small letter is. *)
Fixpoint spellings (p : string) : list string :=
  match p with
  | EmptyString => [EmptyString]
  | String c p' =>
      (String c <$> spellings p')
      ++ (String (ascii_of_N (Str.code c - 32)) <$> spellings p')
  end.

End CleanerSpec.

(** * Theorems *)

(** ** Numbers *)

Lemma as_num_numeric (v : cell) : numeric v → ∃ x, as_num v = Ok x.
Proof. destruct v; simpl; intros H; try done; eauto. Qed.

(** ** Integers in binary64 arithmetic *)

Section float_exact.
Import Binary64.
Local Open Scope Z_scope.

Lemma digits2_pos_iter (p n : positive) :
  Zpos (digits2_pos (Pos.iter xO p n)) = Zpos (digits2_pos p) + Zpos n.
Proof.
  induction n as [|n IH] using Pos.peano_ind.
  - cbn. lia.
  - rewrite Pos.iter_succ. cbn [digits2_pos]. lia.
Qed.

Lemma iter_xO_value (p n : positive) :
  Zpos (Pos.iter xO p n) = Zpos p * 2 ^ Zpos n.
Proof.
  induction n as [|n IH] using Pos.peano_ind.
  - cbn. lia.
  - rewrite Pos.iter_succ, Pos2Z.inj_succ, Z.pow_succ_r by lia.
    rewrite Pos2Z.inj_xO, IH. ring.
Qed.

Lemma digits2_pos_bounds (p : positive) :
  2 ^ (Zpos (digits2_pos p) - 1) <= Zpos p < 2 ^ Zpos (digits2_pos p).
Proof.
  induction p as [p IH|p IH|]; cbn [digits2_pos].
  - rewrite Pos2Z.inj_succ, Z.pow_succ_r by lia.
    replace (Z.succ (Zpos (digits2_pos p)) - 1)
      with (Z.succ (Zpos (digits2_pos p) - 1)) by lia.
    rewrite Z.pow_succ_r by lia. lia.
  - rewrite Pos2Z.inj_succ, Z.pow_succ_r by lia.
    replace (Z.succ (Zpos (digits2_pos p)) - 1)
      with (Z.succ (Zpos (digits2_pos p) - 1)) by lia.
    rewrite Z.pow_succ_r by lia. lia.
  - cbn. lia.
Qed.

Lemma digits2_pos_le (p : positive) (k : Z) :
  Zpos p < 2 ^ k → Zpos (digits2_pos p) <= k.
Proof.
  intros Hp. pose proof (digits2_pos_bounds p) as [Hlow _].
  destruct (Z.le_gt_cases (Zpos (digits2_pos p)) k) as [|Hgt]; [done|].
  assert (2 ^ k <= 2 ^ (Zpos (digits2_pos p) - 1)); [|lia].
  apply Z.pow_le_mono_r; lia.
Qed.

Lemma scaled_digits (P q : positive) (k : Z) :
  0 <= k → Zpos P = Zpos q * 2 ^ k →
  Zpos (digits2_pos P) = Zpos (digits2_pos q) + k.
Proof.
  intros Hk HP. destruct k as [|n|n]; [| |lia].
  - assert (P = q) as -> by lia. lia.
  - rewrite <- iter_xO_value in HP. injection HP as ->.
    apply digits2_pos_iter.
Qed.

Lemma norm_m_value (q : positive) :
  Zpos q < 2 ^ 53 →
  Zpos (norm_m q) = Zpos q * 2 ^ (53 - Zpos (digits2_pos q)).
Proof.
  intros Hq. pose proof (digits2_pos_le q 53 Hq).
  unfold norm_m. rewrite Z2Pos.id; [done|].
  apply Z.mul_pos_pos; [lia|]. apply Z.pow_pos_nonneg; lia.
Qed.

Lemma norm_m_digits (q : positive) :
  Zpos q < 2 ^ 53 → Zpos (digits2_pos (norm_m q)) = 53.
Proof.
  intros Hq. pose proof (digits2_pos_le q 53 Hq).
  rewrite (scaled_digits _ q (53 - Zpos (digits2_pos q))); [lia|lia|].
  by apply norm_m_value.
Qed.

Lemma iter_pos_iter {A} (f : A → A) (n : positive) (x : A) :
  SpecFloat.iter_pos f n x = Pos.iter f x n.
Proof.
  revert x. induction n as [n IH|n IH|]; intros x; cbn [SpecFloat.iter_pos Pos.iter].
  - by rewrite !IH, !Pos.iter_swap.
  - by rewrite !IH.
  - done.
Qed.

Lemma shr_trailing_zeros (m n : positive) :
  SpecFloat.iter_pos shr_1 n
    {| shr_m := Zpos (Pos.iter xO m n); shr_r := false; shr_s := false |}
  = {| shr_m := Zpos m; shr_r := false; shr_s := false |}.
Proof.
  rewrite iter_pos_iter. induction n as [|n IH] using Pos.peano_ind.
  - done.
  - rewrite Pos.iter_succ_r, Pos.iter_succ. exact IH.
Qed.

Lemma fexp_53 (e : Z) : -1074 <= e → fexp prec emax (53 + e) = e.
Proof. unfold fexp, emin, prec, emax. lia. Qed.

Lemma round_canonical (s : bool) (m : positive) (e : Z) :
  Zpos (digits2_pos m) = 53 → -1074 <= e <= 971 →
  binary_round_aux prec emax s (Zpos m) e loc_Exact = S754_finite s m e.
Proof.
  intros Hd He. unfold binary_round_aux, shr_fexp.
  cbn [Zdigits2 shr_record_of_loc]. rewrite Hd, fexp_53, Z.sub_diag by lia.
  cbn [shr shr_m loc_of_shr_record round_nearest_even Zdigits2 shr_record_of_loc].
  rewrite Hd, fexp_53, Z.sub_diag by lia. cbn [shr shr_m].
  replace (e <=? emax - prec) with true; [done|].
  symmetry. apply Z.leb_le. unfold emax, prec. lia.
Qed.

Lemma round_trailing_zeros (s : bool) (m n : positive) (e : Z) :
  Zpos (digits2_pos m) = 53 → -1074 <= e <= 971 →
  binary_round_aux prec emax s (Zpos (Pos.iter xO m n)) (e - Zpos n) loc_Exact
  = S754_finite s m e.
Proof.
  intros Hd He. rewrite <- (round_canonical s m e Hd He) at 1.
  unfold binary_round_aux at 1. unfold shr_fexp at 1.
  cbn [Zdigits2 shr_record_of_loc]. rewrite digits2_pos_iter, Hd.
  replace (53 + Zpos n + (e - Zpos n)) with (53 + e) by lia.
  rewrite fexp_53 by lia.
  replace (e - (e - Zpos n)) with (Zpos n) by lia.
  cbn [shr]. rewrite shr_trailing_zeros.
  replace (e - Zpos n + Zpos n) with e by lia.
  cbn [shr_m loc_of_shr_record round_nearest_even].
  unfold binary_round_aux, shr_fexp. cbn [Zdigits2 shr_record_of_loc].
  rewrite Hd, fexp_53, Z.sub_diag by lia.
  cbn [shr shr_m loc_of_shr_record round_nearest_even Zdigits2 shr_record_of_loc].
  by rewrite Hd, fexp_53, Z.sub_diag by lia.
Qed.


Lemma binary_round_exact (s : bool) (P q : positive) (k : Z) :
  0 <= k → Zpos P = Zpos q * 2 ^ k → Zpos q < 2 ^ 53 →
  binary_round prec emax s P (- k) = S754_finite s (norm_m q) (norm_e q).
Proof.
  intros Hk HP Hq.
  pose proof (digits2_pos_le q 53 Hq) as Hd.
  pose proof (norm_m_value q Hq) as Hm.
  pose proof (norm_m_digits q Hq) as Hmd.
  pose proof (scaled_digits P q k Hk HP) as HPd.
  unfold binary_round. rewrite HPd.
  replace (fexp prec emax (Zpos (digits2_pos q) + k + - k)) with (norm_e q)
    by (unfold fexp, emin, prec, emax, norm_e; lia).
  unfold shl_align, norm_e.
  destruct (Zpos (digits2_pos q) - 53 - - k) as [|n|n] eqn:Hn.
  - assert (P = norm_m q) as ->.
    { apply Pos2Z.inj. rewrite HP, Hm. f_equal. f_equal. lia. }
    replace (- k) with (Zpos (digits2_pos q) - 53) by lia.
    apply round_canonical; [done|lia].
  - assert (P = Pos.iter xO (norm_m q) n) as ->.
    { apply Pos2Z.inj. rewrite HP, iter_xO_value, Hm, <- Z.mul_assoc.
      rewrite <- Z.pow_add_r by lia. f_equal. f_equal. lia. }
    replace (- k) with (Zpos (digits2_pos q) - 53 - Zpos n) by lia.
    apply round_trailing_zeros; [done|lia].
  - assert (Pos.iter xO P n = norm_m q) as ->.
    { apply Pos2Z.inj. rewrite iter_xO_value, HP, Hm, <- Z.mul_assoc.
      rewrite <- Z.pow_add_r by lia. f_equal. f_equal. lia. }
    apply round_canonical; [done|lia].
Qed.

Lemma binary_normalize_exact (z : Z) (k : Z) :
  0 <= k → Z.abs z < 2 ^ 53 →
  binary_normalize prec emax (z * 2 ^ k) (- k) false = of_Z z.
Proof.
  intros Hk Hz. pose proof (Z.pow_pos_nonneg 2 k) as Hpow.
  destruct z as [|q|q]; cbn [of_Z].
  - done.
  - destruct (Zpos q * 2 ^ k) as [|P|P] eqn:HP; [lia| |lia].
    cbn [binary_normalize]. by apply binary_round_exact.
  - destruct (Zneg q * 2 ^ k) as [|P|P] eqn:HP; [lia|lia|].
    cbn [binary_normalize]. apply binary_round_exact; [done|lia|done].
Qed.

Lemma of_Z_valid (z : Z) : Z.abs z < 2 ^ 53 → valid_binary (of_Z z) = true.
Proof.
  intros Hz.
  assert (∀ q, Zpos q < 2 ^ 53 → bounded prec emax (norm_m q) (norm_e q) = true)
    as Hq.
  { intros q Hq. pose proof (digits2_pos_le q 53 Hq).
    unfold bounded, canonical_mantissa.
    rewrite (norm_m_digits q Hq), fexp_53 by (unfold norm_e; lia).
    rewrite Z.eqb_refl. apply Z.leb_le. unfold norm_e, emax, prec. lia. }
  destruct z as [|q|q]; [done|apply Hq; lia..].
Qed.

Lemma Z_to_float_exact (z : Z) :
  Z.abs z < 2 ^ 53 → Prim2SF (Z_to_float z) = of_Z z.
Proof.
  intros Hz. unfold Z_to_float.
  rewrite <- (Z.mul_1_r z) at 1. change 1 with (2 ^ 0). change 0 with (- 0) at 2.
  rewrite binary_normalize_exact by (done || lia).
  by apply Prim2SF_SF2Prim, of_Z_valid.
Qed.

Lemma of_Z_float (z : Z) : Z.abs z < 2 ^ 53 → SF2Prim (of_Z z) = Z_to_float z.
Proof.
  intros Hz. apply Prim2SF_inj.
  by rewrite Z_to_float_exact, Prim2SF_SF2Prim by (done || by apply of_Z_valid).
Qed.

Lemma shl_align_value (m : positive) (e e' : Z) :
  e' <= e → Zpos (shl_align m e e').1 = Zpos m * 2 ^ (e - e')
            ∧ (shl_align m e e').2 = e'.
Proof.
  intros He. unfold shl_align. destruct (e' - e) as [|n|n] eqn:Hn; cbn [fst snd].
  - replace (e - e') with 0 by lia. split; lia.
  - lia.
  - rewrite iter_xO_value. split; [|done]. f_equal. f_equal. lia.
Qed.

(** The mantissa of an integer, aligned on an exponent [- k]. *)
Lemma aligned_value (s : bool) (q : positive) (k : Z) :
  Zpos q < 2 ^ 53 → - k <= norm_e q →
  cond_Zopp s (Zpos (shl_align (norm_m q) (norm_e q) (- k)).1)
  = cond_Zopp s (Zpos q) * 2 ^ k.
Proof.
  intros Hq Hk. pose proof (digits2_pos_le q 53 Hq) as Hd.
  destruct (shl_align_value (norm_m q) (norm_e q) (- k) Hk) as [-> _].
  rewrite (norm_m_value q Hq), <- Z.mul_assoc.
  rewrite <- Z.pow_add_r by (unfold norm_e in *; lia).
  replace (53 - Zpos (digits2_pos q) + (norm_e q - - k)) with k
    by (unfold norm_e; lia).
  destruct s; cbn [cond_Zopp]; lia.
Qed.

Lemma SFadd_exact (a b : Z) :
  Z.abs a < 2 ^ 53 → Z.abs b < 2 ^ 53 → Z.abs (a + b) < 2 ^ 53 →
  SFadd prec emax (of_Z a) (of_Z b) = of_Z (a + b).
Proof.
  intros Ha Hb Hab.
  assert (∀ sa sb qa qb,
            Zpos qa < 2 ^ 53 → Zpos qb < 2 ^ 53 →
            Z.abs (cond_Zopp sa (Zpos qa) + cond_Zopp sb (Zpos qb)) < 2 ^ 53 →
            SFadd prec emax (S754_finite sa (norm_m qa) (norm_e qa))
                            (S754_finite sb (norm_m qb) (norm_e qb))
            = of_Z (cond_Zopp sa (Zpos qa) + cond_Zopp sb (Zpos qb))) as Hfin.
  { intros sa sb qa qb Hqa Hqb Hsum. cbn [SFadd].
    pose proof (digits2_pos_le qa 53 Hqa). pose proof (digits2_pos_le qb 53 Hqb).
    set (k := - Z.min (norm_e qa) (norm_e qb)).
    replace (Z.min (norm_e qa) (norm_e qb)) with (- k) by (unfold k; lia).
    assert (0 <= k) by (unfold k, norm_e; lia).
    rewrite !aligned_value by (done || unfold k; lia).
    rewrite <- Z.mul_add_distr_r. by apply binary_normalize_exact. }
  destruct a as [|qa|qa], b as [|qb|qb]; try done.
  - apply (Hfin false false); (done || lia).
  - apply (Hfin false true); (done || lia).
  - apply (Hfin true false); (done || lia).
  - apply (Hfin true true); (done || lia).
Qed.

Lemma SFsub_exact (a b : Z) :
  Z.abs a < 2 ^ 53 → Z.abs b < 2 ^ 53 → Z.abs (a - b) < 2 ^ 53 →
  SFsub prec emax (of_Z a) (of_Z b) = of_Z (a - b).
Proof.
  intros Ha Hb Hab.
  assert (∀ sa sb qa qb,
            Zpos qa < 2 ^ 53 → Zpos qb < 2 ^ 53 →
            Z.abs (cond_Zopp sa (Zpos qa) - cond_Zopp sb (Zpos qb)) < 2 ^ 53 →
            SFsub prec emax (S754_finite sa (norm_m qa) (norm_e qa))
                            (S754_finite sb (norm_m qb) (norm_e qb))
            = of_Z (cond_Zopp sa (Zpos qa) - cond_Zopp sb (Zpos qb))) as Hfin.
  { intros sa sb qa qb Hqa Hqb Hsum. cbn [SFsub].
    pose proof (digits2_pos_le qa 53 Hqa). pose proof (digits2_pos_le qb 53 Hqb).
    set (k := - Z.min (norm_e qa) (norm_e qb)).
    replace (Z.min (norm_e qa) (norm_e qb)) with (- k) by (unfold k; lia).
    assert (0 <= k) by (unfold k, norm_e; lia).
    rewrite !aligned_value by (done || unfold k; lia).
    rewrite <- Z.mul_sub_distr_r. by apply binary_normalize_exact. }
  destruct a as [|qa|qa], b as [|qb|qb]; try done.
  - apply (Hfin false false); (done || lia).
  - apply (Hfin false true); (done || lia).
  - apply (Hfin true false); (done || lia).
  - apply (Hfin true true); (done || lia).
Qed.


Lemma Z_to_float_add (a b : Z) :
  Z.abs a < 2 ^ 53 → Z.abs b < 2 ^ 53 → Z.abs (a + b) < 2 ^ 53 →
  (Z_to_float a + Z_to_float b)%float = Z_to_float (a + b).
Proof.
  intros Ha Hb Hab. apply Prim2SF_inj.
  rewrite FloatAxioms.add_spec, !Z_to_float_exact by done. by apply SFadd_exact.
Qed.

Lemma Z_to_float_sub (a b : Z) :
  Z.abs a < 2 ^ 53 → Z.abs b < 2 ^ 53 → Z.abs (a - b) < 2 ^ 53 →
  (Z_to_float a - Z_to_float b)%float = Z_to_float (a - b).
Proof.
  intros Ha Hb Hab. apply Prim2SF_inj.
  rewrite FloatAxioms.sub_spec, !Z_to_float_exact by done. by apply SFsub_exact.
Qed.

Lemma Z_to_float_opp (a : Z) :
  a ≠ 0 → Z.abs a < 2 ^ 53 → (- Z_to_float a)%float = Z_to_float (- a).
Proof.
  intros Hne Ha. apply Prim2SF_inj.
  rewrite FloatAxioms.opp_spec, !Z_to_float_exact by lia. by destruct a.
Qed.

Lemma norm_inj (q q' : positive) :
  Zpos q < 2 ^ 53 → Zpos q' < 2 ^ 53 →
  norm_m q = norm_m q' → norm_e q = norm_e q' → q = q'.
Proof.
  intros Hq Hq' Hm He. unfold norm_e in He.
  pose proof (digits2_pos_le q 53 Hq).
  assert (Zpos (norm_m q) = Zpos (norm_m q')) as Hv by congruence.
  rewrite !norm_m_value in Hv by done.
  replace (Zpos (digits2_pos q')) with (Zpos (digits2_pos q)) in Hv by lia.
  apply Z.mul_cancel_r in Hv; [lia|].
  apply Z.pow_nonzero; lia.
Qed.

Lemma SFeqb_finite (s s' : bool) (m m' : positive) (e e' : Z) :
  SFeqb (S754_finite s m e) (S754_finite s' m' e') = true →
  s = s' ∧ m = m' ∧ e = e'.
Proof.
  unfold SFeqb, SFcompare.
  destruct s, s'; try done;
    destruct (Z.compare_spec e e') as [->| |]; try done;
    change (Pos.compare_cont Eq m m') with (Pos.compare m m');
    destruct (Pos.compare_spec m m') as [->| |]; done.
Qed.

Lemma SFeqb_of_Z (a b : Z) :
  Z.abs a < 2 ^ 53 → Z.abs b < 2 ^ 53 →
  SFeqb (of_Z a) (of_Z b) = (a =? b).
Proof.
  intros Ha Hb. destruct (Z.eqb_spec a b) as [->|Hne].
  - unfold SFeqb, SFcompare.
    destruct b as [|q|q]; cbn [of_Z]; [done|..];
      by rewrite Z.compare_refl, Pos.compare_cont_refl.
  - destruct (SFeqb (of_Z a) (of_Z b)) eqn:Heq; [|done].
    destruct a as [|qa|qa], b as [|qb|qb]; try done;
      apply SFeqb_finite in Heq as (Hs & Hm & He); try done;
      apply norm_inj in Hm; (done || lia || congruence).
Qed.

Lemma Z_to_float_eqb (a b : Z) :
  Z.abs a < 2 ^ 53 → Z.abs b < 2 ^ 53 →
  (Z_to_float a =? Z_to_float b)%float = (a =? b).
Proof.
  intros Ha Hb. rewrite FloatAxioms.eqb_spec, !Z_to_float_exact by done.
  by apply SFeqb_of_Z.
Qed.

Lemma Z_to_float_not_infinity (a : Z) :
  Z.abs a < 2 ^ 53 → PrimFloat.is_infinity (Z_to_float a) = false.
Proof.
  intros Ha. unfold PrimFloat.is_infinity.
  rewrite FloatAxioms.eqb_spec, FloatAxioms.abs_spec, Z_to_float_exact by done.
  by destruct a.
Qed.

Lemma signbit_Z_to_float (a : Z) :
  Z.abs a < 2 ^ 53 → Daily.signbit (Z_to_float a) = (a <? 0).
Proof.
  intros Ha. unfold Daily.signbit. rewrite Z_to_float_exact by done. by destruct a.
Qed.

(** A quotient has the sign of its operands, or is no number. *)
Lemma round_sign (s : bool) (m e : Z) (l : location) :
  match binary_round_aux prec emax s m e l with
  | S754_zero s' | S754_infinity s' | S754_finite s' _ _ => s' = s
  | S754_nan => True
  end.
Proof.
  unfold binary_round_aux.
  destruct (shr_fexp prec emax m e l) as [mrs' e'].
  destruct (shr_fexp prec emax _ e' loc_Exact) as [mrs'' e''].
  destruct (shr_m mrs'') as [|p|p]; [done| |done].
  by destruct (e'' <=? emax - prec).
Qed.

Lemma Z_to_float_div_sign (a n : Z) :
  Z.abs a < 2 ^ 53 → 0 < n < 2 ^ 53 →
  (0 <= a → (Z_to_float a / Z_to_float n <? 0)%float = false)
  ∧ (a <= 0 → (0 <? Z_to_float a / Z_to_float n)%float = false).
Proof.
  intros Ha Hn.
  assert (Prim2SF 0%float = S754_zero false) as H0 by reflexivity.
  rewrite !FloatAxioms.ltb_spec, FloatAxioms.div_spec, !Z_to_float_exact, H0 by lia.
  destruct n as [|qn|qn]; [lia| |lia]. cbn [of_Z].
  destruct a as [|qa|qa]; unfold SF64div; cbn [of_Z SFdiv].
  - done.
  - split; [intros _|lia].
    destruct (SFdiv_core_binary _ _ _ _ _ _) as [[mz ez] lz].
    pose proof (round_sign (xorb false false) mz ez lz) as Hs.
    by destruct (binary_round_aux _ _ _ _ _ _) as [[]|[]| |[] ? ?].
  - split; [lia|intros _].
    destruct (SFdiv_core_binary _ _ _ _ _ _) as [[mz ez] lz].
    pose proof (round_sign (xorb true false) mz ez lz) as Hs.
    by destruct (binary_round_aux _ _ _ _ _ _) as [[]|[]| |[] ? ?].
Qed.


Lemma round_exact (s : bool) (Q q : positive) (E : Z) :
  Zpos q < 2 ^ 53 → E <= norm_e q →
  Zpos Q = Zpos (norm_m q) * 2 ^ (norm_e q - E) →
  binary_round_aux prec emax s (Zpos Q) E loc_Exact
  = S754_finite s (norm_m q) (norm_e q).
Proof.
  intros Hq HE HQ. pose proof (digits2_pos_le q 53 Hq).
  pose proof (norm_m_digits q Hq).
  destruct (norm_e q - E) as [|n|n] eqn:Hn; [| |lia].
  - assert (Q = norm_m q) as -> by lia.
    replace E with (norm_e q) by lia.
    apply round_canonical; [done|unfold norm_e; lia].
  - rewrite <- iter_xO_value in HQ. injection HQ as ->.
    replace E with (norm_e q - Zpos n) by lia.
    apply round_trailing_zeros; [done|unfold norm_e; lia].
Qed.

Lemma new_location_zero (m : Z) : new_location m 0 = loc_Exact.
Proof. unfold new_location. by destruct (Z.even m). Qed.

Lemma SFdiv_exact (n v : Z) :
  0 < n → Z.abs v < 2 ^ 53 → Z.abs (n * v) < 2 ^ 53 →
  SFdiv prec emax (of_Z (n * v)) (of_Z n) = of_Z v.
Proof.
  intros Hn Hv Hnv.
  destruct n as [|qn|qn]; [lia| |lia].
  assert (∀ s qv, Zpos (qn * qv) < 2 ^ 53 →
            SFdiv prec emax (S754_finite s (norm_m (qn * qv)) (norm_e (qn * qv)))
                            (S754_finite false (norm_m qn) (norm_e qn))
            = S754_finite s (norm_m qv) (norm_e qv)) as Hfin.
  { intros s qv Hq1.
    assert (Zpos qn < 2 ^ 53) as Hqn by nia.
    assert (Zpos qv < 2 ^ 53) as Hqv by nia.
    pose proof (digits2_pos_le _ 53 Hq1) as Hd1.
    pose proof (digits2_pos_le _ 53 Hqn) as Hdn.
    pose proof (digits2_pos_le _ 53 Hqv) as Hdv.
    pose proof (digits2_pos_bounds qn) as [Hn1 Hn2].
    pose proof (digits2_pos_bounds qv) as [Hv1 Hv2].
    pose proof (digits2_pos_bounds (qn * qv)) as [Hp1 Hp2].
    set (d1 := Zpos (digits2_pos (qn * qv))) in *.
    set (dn := Zpos (digits2_pos qn)) in *.
    set (dv := Zpos (digits2_pos qv)) in *.
    assert (d1 <= dn + dv) as Hle.
    { apply digits2_pos_le. rewrite Pos2Z.inj_mul, Z.pow_add_r by lia. nia. }
    assert (dn <= d1) as Hge.
    { destruct (Z.le_gt_cases dn d1) as [|Hgt]; [done|].
      assert (2 ^ d1 <= 2 ^ (dn - 1)) by (apply Z.pow_le_mono_r; lia).
      rewrite Pos2Z.inj_mul in Hp2. nia. }
    cbn [SFdiv]. unfold SFdiv_core_binary. cbn [Zdigits2].
    rewrite !norm_m_digits by done.
    replace (fexp prec emax (53 + norm_e (qn * qv) - (53 + norm_e qn)))
      with (norm_e (qn * qv) - norm_e qn - 53)
      by (unfold fexp, emin, prec, emax, norm_e; lia).
    rewrite Z.min_l by lia.
    replace (norm_e (qn * qv) - norm_e qn
             - (norm_e (qn * qv) - norm_e qn - 53)) with 53 by lia.
    rewrite Z.shiftl_mul_pow2 by lia.
    assert (Zpos (norm_m (qn * qv)) * 2 ^ 53
            = Zpos (norm_m qn) * (Zpos qv * 2 ^ (53 - d1 + dn))) as Hmul.
    { rewrite !norm_m_value by done. fold d1 dn.
      replace (2 ^ 53) with (2 ^ (53 - dn) * 2 ^ dn)
        by (rewrite <- Z.pow_add_r by lia; f_equal; lia).
      rewrite (Z.pow_add_r 2 (53 - d1) dn) by lia.
      rewrite Pos2Z.inj_mul. ring. }
    rewrite Hmul.
    assert (0 < Zpos qv * 2 ^ (53 - d1 + dn)) as Hpos.
    { apply Z.mul_pos_pos; [lia|]. apply Z.pow_pos_nonneg; lia. }
    assert (Z.div_eucl (Zpos (norm_m qn) * (Zpos qv * 2 ^ (53 - d1 + dn)))
              (Zpos (norm_m qn))
            = (Zpos qv * 2 ^ (53 - d1 + dn), 0)) as ->.
    { pose proof (Z.div_mul (Zpos qv * 2 ^ (53 - d1 + dn)) (Zpos (norm_m qn))
                    ltac:(done)) as Hdiv.
      pose proof (Z.mod_mul (Zpos qv * 2 ^ (53 - d1 + dn)) (Zpos (norm_m qn))
                    ltac:(done)) as Hmod.
      rewrite Z.mul_comm in Hdiv, Hmod. unfold Z.div, Z.modulo in Hdiv, Hmod.
      destruct (Z.div_eucl _ _) as [q r]. cbn [fst snd] in *. congruence. }
    rewrite new_location_zero.
    rewrite xorb_false_r.
    destruct (Zpos qv * 2 ^ (53 - d1 + dn)) as [|Q|Q] eqn:HQ; [lia| |lia].
    apply round_exact; [done|unfold norm_e; fold d1 dn dv; lia|].
    rewrite <- HQ, norm_m_value by done. fold dv.
    rewrite <- Z.mul_assoc, <- Z.pow_add_r by (unfold norm_e; fold d1 dn dv; lia).
    f_equal. f_equal. unfold norm_e. fold d1 dn dv. lia. }
  destruct v as [|qv|qv]; [by rewrite Z.mul_0_r|..].
  - change (Zpos qn * Zpos qv) with (Zpos (qn * qv)) in *. apply Hfin. lia.
  - change (Zpos qn * Zneg qv) with (Zneg (qn * qv)) in *. apply Hfin. lia.
Qed.

Lemma Z_to_float_div_exact (n v : Z) :
  0 < n < 2 ^ 53 → Z.abs v < 2 ^ 53 → Z.abs (n * v) < 2 ^ 53 →
  (Z_to_float (n * v) / Z_to_float n)%float = Z_to_float v.
Proof.
  intros Hn Hv Hnv. apply Prim2SF_inj.
  rewrite FloatAxioms.div_spec, !Z_to_float_exact by (done || lia).
  apply SFdiv_exact; (done || lia).
Qed.


(** Below [2^53] the float of an integer is that integer. *)
Lemma value_Z_to_float (z : Z) :
  Z.abs z < 2 ^ 53 → value (Z_to_float z) = Some (Q2Qc (inject_Z z)).
Proof.
  intros Hz. unfold value. rewrite Z_to_float_exact by done.
  assert (∀ (s : bool) (q : positive),
            Zpos q < 2 ^ 53 →
            (inject_Z (if s then Zneg (norm_m q) else Zpos (norm_m q))
             * Qpower 2 (norm_e q) == inject_Z (if s then Zneg q else Zpos q))%Q)
    as Hfin.
  { intros s q Hq. pose proof (digits2_pos_le q 53 Hq) as Hd.
    pose proof (norm_m_value q Hq) as Hm.
    set (k := 53 - Zpos (digits2_pos q)) in *.
    assert (0 < 2 ^ k) as Hpow by (apply Z.pow_pos_nonneg; lia).
    replace (norm_e q) with (- k) by (unfold norm_e, k; lia).
    rewrite Qpower_opp, <- (Zpower_Qpower 2 k) by lia.
    replace (if s then Zneg (norm_m q) else Zpos (norm_m q))
      with ((if s then Zneg q else Zpos q) * 2 ^ k) by (destruct s; lia).
    rewrite inject_Z_mult, <- Qmult_assoc, Qmult_inv_r, Qmult_1_r; [done|].
    unfold Qeq. cbn. lia. }
  destruct z as [|q|q]; cbn [of_Z]; [done|..]; f_equal; apply Qc_is_canon;
    cbn [this Q2Qc]; rewrite !Qred_correct.
  - apply (Hfin false q). lia.
  - apply (Hfin true q). lia.
Qed.

End float_exact.

(** ** The health score *)

Section health_score.
Import HealthScore.
Local Open Scope Z_scope.

Implicit Types (row : gmap string cell) (score : Z) (x : num).

(** Each block adds the adjustment that the threshold table gives for the
    number it reads. *)
Lemma profit_block_adjust row score x :
  as_num (row_get row "Net_Profit" (CInt 0)) = Ok x →
  profit_block row score = Ok (score + ScoreSpec.profit_adjustment x).
Proof.
  intros Hx. unfold profit_block, py_gt, py_lt. rewrite Hx. simpl.
  unfold ScoreSpec.profit_adjustment. simpl.
  repeat (case (num_gt x _); simpl; [done|]).
  case (num_lt x 0); simpl; f_equal; lia.
Qed.

Lemma velocity_block_adjust row score x :
  as_num (row_get row "Units_Sold" (CInt 0)) = Ok x →
  velocity_block row score = Ok (score + ScoreSpec.velocity_adjustment x).
Proof.
  intros Hx. unfold velocity_block, py_gt, py_eq. rewrite Hx. simpl.
  unfold ScoreSpec.velocity_adjustment. simpl.
  repeat (case (num_gt x _); simpl; [done|]).
  case (num_eq x 0); simpl; f_equal; lia.
Qed.

Lemma roi_block_adjust row score x :
  as_num (row_get row "ROI_Pct" (CInt 0)) = Ok x →
  roi_block row score = Ok (score + ScoreSpec.roi_adjustment x).
Proof.
  intros Hx. unfold roi_block, py_gt, py_lt. rewrite Hx. simpl.
  unfold ScoreSpec.roi_adjustment. simpl.
  repeat (case (num_gt x _); simpl; [done|]).
  case (num_lt x 0); simpl; f_equal; lia.
Qed.

Lemma margin_block_adjust row score x :
  as_num (row_get row "Margin_Pct" (CInt 0)) = Ok x →
  margin_block row score = Ok (score + ScoreSpec.margin_adjustment x).
Proof.
  intros Hx. unfold margin_block, py_gt, py_lt. rewrite Hx. simpl.
  unfold ScoreSpec.margin_adjustment. simpl.
  repeat (case (num_gt x _); simpl; [done|]).
  case (num_lt x 5); simpl; f_equal; lia.
Qed.

Lemma profit_adjustment_range x : -15 <= ScoreSpec.profit_adjustment x <= 20.
Proof.
  unfold ScoreSpec.profit_adjustment. simpl.
  repeat (case (num_gt x _); simpl; [lia|]). case (num_lt x 0); lia.
Qed.

Lemma velocity_adjustment_range x : -10 <= ScoreSpec.velocity_adjustment x <= 15.
Proof.
  unfold ScoreSpec.velocity_adjustment. simpl.
  repeat (case (num_gt x _); simpl; [lia|]). case (num_eq x 0); lia.
Qed.

Lemma roi_adjustment_range x : -10 <= ScoreSpec.roi_adjustment x <= 10.
Proof.
  unfold ScoreSpec.roi_adjustment. simpl.
  repeat (case (num_gt x _); simpl; [lia|]). case (num_lt x 0); lia.
Qed.

Lemma margin_adjustment_range x : -5 <= ScoreSpec.margin_adjustment x <= 5.
Proof.
  unfold ScoreSpec.margin_adjustment. simpl.
  repeat (case (num_gt x _); simpl; [lia|]). case (num_lt x 5); lia.
Qed.

Lemma numeric_inputs_nums row :
  numeric_inputs row →
  ∃ p u r m,
    as_num (row_get row "Net_Profit" (CInt 0)) = Ok p
    ∧ as_num (row_get row "Units_Sold" (CInt 0)) = Ok u
    ∧ as_num (row_get row "ROI_Pct" (CInt 0)) = Ok r
    ∧ as_num (row_get row "Margin_Pct" (CInt 0)) = Ok m.
Proof.
  unfold numeric_inputs, score_columns. rewrite !Forall_cons.
  intros (Hp & Hu & Hr & Hm & _).
  destruct (as_num_numeric _ Hp) as [p ?], (as_num_numeric _ Hu) as [u ?],
    (as_num_numeric _ Hr) as [r ?], (as_num_numeric _ Hm) as [m ?].
  by exists p, u, r, m.
Qed.

Lemma score_before_clamp_sum row p u r m :
  as_num (row_get row "Net_Profit" (CInt 0)) = Ok p →
  as_num (row_get row "Units_Sold" (CInt 0)) = Ok u →
  as_num (row_get row "ROI_Pct" (CInt 0)) = Ok r →
  as_num (row_get row "Margin_Pct" (CInt 0)) = Ok m →
  score_before_clamp row =
    Ok (50 + ScoreSpec.profit_adjustment p + ScoreSpec.velocity_adjustment u
           + ScoreSpec.roi_adjustment r + ScoreSpec.margin_adjustment m).
Proof.
  intros Hp Hu Hr Hm. unfold score_before_clamp.
  rewrite (profit_block_adjust _ _ _ Hp). simpl.
  rewrite (velocity_block_adjust _ _ _ Hu). simpl.
  rewrite (roi_block_adjust _ _ _ Hr). simpl.
  by rewrite (margin_block_adjust _ _ _ Hm).
Qed.

Lemma score_before_clamp_range row :
  numeric_inputs row → ∃ s, score_before_clamp row = Ok s ∧ 10 <= s <= 100.
Proof.
  intros (p & u & r & m & Hp & Hu & Hr & Hm)%numeric_inputs_nums.
  eexists. split; [by apply score_before_clamp_sum|].
  pose proof (profit_adjustment_range p). pose proof (velocity_adjustment_range u).
  pose proof (roi_adjustment_range r). pose proof (margin_adjustment_range m). lia.
Qed.

(** The row enters the function through the four [row.get] calls only. *)
Lemma calculate_health_score_ext row1 row2 :
  (∀ key, key ∈ score_columns → row1 !! key = row2 !! key) →
  calculate_health_score row1 = calculate_health_score row2.
Proof.
  intros H. unfold calculate_health_score, score_before_clamp, profit_block,
    velocity_block, roi_block, margin_block, row_get.
  rewrite !(H "Net_Profit"%string), !(H "Units_Sold"%string),
    !(H "ROI_Pct"%string), !(H "Margin_Pct"%string);
    [done|unfold score_columns; set_solver..].
Qed.

End health_score.

Section health_score_claims.
Import HealthScore Samples.
Local Open Scope Z_scope.

Local Ltac numeric_row :=
  unfold numeric_inputs, score_columns;
  repeat (apply Forall_cons; split; [vm_compute; exact I|]); constructor.

(** C2. For every row whose [Net_Profit], [Units_Sold], [ROI_Pct] and
    [Margin_Pct] are numbers (or absent, read as 0), [calculate_health_score]
    returns an integer between 0 and 100. *)
Theorem health_score_in_range (row : gmap string cell) :
  numeric_inputs row →
  ∃ s : Z, calculate_health_score row = Ok s ∧ 0 <= s <= 100.
Proof.
  intros (s & Hs & Hrange)%score_before_clamp_range.
  exists (Z.max 0 (Z.min 100 s)). unfold calculate_health_score.
  rewrite Hs. simpl. split; [done|lia].
Qed.

Lemma health_score_in_range_witness :
  numeric_inputs best_row
  ∧ ∃ s : Z, calculate_health_score best_row = Ok s ∧ 0 <= s <= 100.
Proof.
  split; [numeric_row|]. apply (health_score_in_range best_row). numeric_row.
Defined.

(** C3. [calculate_health_score] is the function of the four numbers
    [Net_Profit], [Units_Sold], [ROI_Pct], [Margin_Pct] that starts from 50,
    adds the four adjustments read off the threshold tables and clamps the
    sum to [0, 100]; two rows that agree on these four columns get the same
    result, whatever their other fields. *)
Theorem health_score_is_table_sum :
  (∀ (row : gmap string cell) (p u r m : num),
     as_num (row_get row "Net_Profit" (CInt 0)) = Ok p →
     as_num (row_get row "Units_Sold" (CInt 0)) = Ok u →
     as_num (row_get row "ROI_Pct" (CInt 0)) = Ok r →
     as_num (row_get row "Margin_Pct" (CInt 0)) = Ok m →
     calculate_health_score row = Ok (ScoreSpec.health_score p u r m))
  ∧ (∀ row1 row2 : gmap string cell,
       (∀ key, key ∈ score_columns → row1 !! key = row2 !! key) →
       calculate_health_score row1 = calculate_health_score row2).
Proof.
  split; [|apply calculate_health_score_ext].
  intros row p u r m Hp Hu Hr Hm. unfold calculate_health_score.
  by rewrite (score_before_clamp_sum _ _ _ _ _ Hp Hu Hr Hm).
Qed.

Lemma health_score_is_table_sum_witness :
  calculate_health_score best_row
    = Ok (ScoreSpec.health_score (NFloat 812.4%float) (NInt 73)
            (NFloat 61.5%float) (NFloat 32%float))
  ∧ calculate_health_score (<["SKU" := CStr "B00X"]> best_row)
    = calculate_health_score best_row.
Proof.
  split.
  - apply (proj1 health_score_is_table_sum best_row); reflexivity.
  - apply (proj2 health_score_is_table_sum).
    intros key Hkey. apply lookup_insert_ne. intros <-.
    revert Hkey. apply (bool_decide_unpack (("SKU" : string) ∉ score_columns)).
    vm_compute. exact I.
Defined.

(** C10. On numeric inputs the score is at least 10 before the clamp is
    applied, so the clamp changes nothing and the result lies in [10, 100];
    10 is reached by a row with a loss, no units sold, a negative ROI and a
    margin under 5, and 100 by a row that earns every bonus. *)
Theorem health_score_at_least_10 :
  (∀ row : gmap string cell,
     numeric_inputs row →
     ∃ s : Z, score_before_clamp row = Ok s
              ∧ calculate_health_score row = Ok s ∧ 10 <= s <= 100)
  ∧ calculate_health_score worst_row = Ok 10
  ∧ calculate_health_score best_row = Ok 100.
Proof.
  split; [|split; reflexivity].
  intros row (s & Hs & Hrange)%score_before_clamp_range.
  exists s. split; [done|]. split; [|done].
  unfold calculate_health_score. rewrite Hs. simpl. f_equal. lia.
Qed.

Lemma health_score_at_least_10_witness :
  numeric_inputs worst_row
  ∧ ∃ s : Z, score_before_clamp worst_row = Ok s
             ∧ calculate_health_score worst_row = Ok s ∧ 10 <= s <= 100.
Proof.
  split; [numeric_row|].
  apply (proj1 health_score_at_least_10 worst_row). numeric_row.
Defined.

End health_score_claims.

(** ** The performance tier *)

Section tier.
Import Tier.
Local Open Scope Z_scope.

(** C4. For an integer score [s], [assign_performance_tier] returns [Star]
    from 80 up, [Strong] from 60 to 79, [Average] from 45 to 59 and [Weak]
    below 45; in particular 80 is a [Star] and 59 is [Average]. *)
Theorem tier_thresholds :
  (∀ s : Z,
     (80 <= s → assign_performance_tier (CInt s) = Ok "Star"%string)
     ∧ (60 <= s < 80 → assign_performance_tier (CInt s) = Ok "Strong"%string)
     ∧ (45 <= s < 60 → assign_performance_tier (CInt s) = Ok "Average"%string)
     ∧ (s < 45 → assign_performance_tier (CInt s) = Ok "Weak"%string))
  ∧ assign_performance_tier (CInt 80) = Ok "Star"%string
  ∧ assign_performance_tier (CInt 59) = Ok "Average"%string.
Proof.
  split; [|split; reflexivity].
  intros s. unfold assign_performance_tier, py_ge. simpl.
  destruct (Z.leb_spec 80 s), (Z.leb_spec 60 s), (Z.leb_spec 45 s); simpl;
    repeat split; intros; first [done | lia].
Qed.

Lemma tier_thresholds_witness :
  (60 <= 79 < 80)%Z ∧ assign_performance_tier (CInt 79) = Ok "Strong"%string.
Proof.
  split; [lia|]. apply (proj1 (proj2 (proj1 tier_thresholds 79))). lia.
Defined.

End tier.

(** ** Categories *)

Section category.
Import Str Category CategorySpec.

Lemma append_cons (c : ascii) (s t : string) :
  String c s +:+ t = String c (s +:+ t).
Proof. reflexivity. Qed.

Lemma append_empty_l (t : string) : EmptyString +:+ t = t.
Proof. reflexivity. Qed.

Lemma prefix_occurs (kw s : string) :
  String.prefix kw s = true ↔ ∃ post, s = kw +:+ post.
Proof.
  revert s. induction kw as [|a kw IH]; intros [|b s]; simpl.
  - split; [intros _; by exists EmptyString|done].
  - split; [intros _; by exists (String b s)|done].
  - split; [done|by intros [? [=]]].
  - destruct (ascii_dec a b) as [->|Hne].
    + rewrite IH. split; intros [post Hpost]; exists post;
        rewrite append_cons in *; congruence.
    + split; [done|]. intros [post Hpost]. rewrite append_cons in Hpost. congruence.
Qed.

Lemma contains_empty (kw : string) :
  contains kw EmptyString = String.prefix kw EmptyString.
Proof. unfold contains. by destruct (String.prefix kw EmptyString). Qed.

Lemma contains_cons (kw : string) (c : ascii) (s : string) :
  contains kw (String c s) = String.prefix kw (String c s) || contains kw s.
Proof. reflexivity. Qed.

Lemma contains_occurs (kw s : string) : contains kw s = true ↔ occurs kw s.
Proof.
  unfold occurs. induction s as [|c s IH].
  - rewrite contains_empty, prefix_occurs. split.
    + intros [post Hpost]. by exists EmptyString, post.
    + intros (pre & post & Heq).
      destruct pre; [|by rewrite append_cons in Heq]. by exists post.
  - rewrite contains_cons, orb_true_iff, prefix_occurs, IH. split.
    + intros [[post Hpost]|(pre & post & ->)].
      * by exists EmptyString, post.
      * by exists (String c pre), post.
    + intros (pre & post & Heq). destruct pre as [|c' pre].
      * left. by exists post.
      * right. rewrite append_cons in Heq. injection Heq as _ ->.
        by exists pre, post.
Qed.

Lemma any_keyword_matches (name_lower : string) (keywords : list string) :
  any_keyword name_lower keywords = true ↔ matches name_lower keywords.
Proof.
  unfold any_keyword, matches. rewrite existsb_exists.
  split; intros (kw & Hin & Hkw); exists kw.
  - by rewrite list_elem_of_In, <- contains_occurs.
  - by rewrite <- list_elem_of_In, contains_occurs.
Qed.

Lemma any_keyword_no_match (name_lower : string) (keywords : list string) :
  ¬ matches name_lower keywords → any_keyword name_lower keywords = false.
Proof.
  intros Hno. destruct (any_keyword name_lower keywords) eqn:Hany; [|done].
  by apply any_keyword_matches in Hany.
Qed.

(** The loop returns at the first entry that matches. *)
Lemma scan_first (name_lower : string) (before after : list (string * list string))
    (category : string) (keywords : list string) :
  matches name_lower keywords →
  (∀ entry, entry ∈ before → ¬ matches name_lower entry.2) →
  scan name_lower (before ++ (category, keywords) :: after) = Some category.
Proof.
  intros Hmatch. induction before as [|[c kws] before IH]; intros Hbefore; simpl.
  - apply any_keyword_matches in Hmatch. by rewrite Hmatch.
  - rewrite any_keyword_no_match.
    + apply IH. intros entry Hentry. apply Hbefore. by right.
    + apply (Hbefore (c, kws)). by left.
Qed.

Lemma scan_none (name_lower : string) (table : list (string * list string)) :
  (∀ entry, entry ∈ table → ¬ matches name_lower entry.2) →
  scan name_lower table = None.
Proof.
  induction table as [|[c kws] table IH]; intros Hno; simpl; [done|].
  rewrite any_keyword_no_match.
  - apply IH. intros entry Hentry. apply Hno. by right.
  - apply (Hno (c, kws)). by left.
Qed.

Lemma scan_label (name_lower : string) (table : list (string * list string))
    (category : string) :
  scan name_lower table = Some category → category ∈ table.*1.
Proof.
  induction table as [|[c kws] table IH]; simpl; [done|].
  destruct (any_keyword name_lower kws).
  - intros [= ->]. by left.
  - intros H. right. by apply IH.
Qed.

(** C7. [assign_category] lower-cases the name and walks the table of
    (category, keywords) pairs in order: it returns the category of the first
    entry one of whose keywords occurs in the lower-cased name, and [Other]
    when no entry has such a keyword; the result is one of ten distinct
    labels, and [USB Charger Cable] falls under [Electronics & Home]. *)
Theorem assign_category_first_match :
  (∀ (product_name : string) before category keywords after,
     category_keywords = before ++ (category, keywords) :: after →
     matches (lower product_name) keywords →
     (∀ entry, entry ∈ before → ¬ matches (lower product_name) entry.2) →
     assign_category product_name = category)
  ∧ (∀ product_name : string,
       (∀ entry, entry ∈ category_keywords →
                 ¬ matches (lower product_name) entry.2) →
       assign_category product_name = "Other"%string)
  ∧ (∀ product_name : string, assign_category product_name ∈ labels)
  ∧ length labels = 10 ∧ NoDup labels
  ∧ assign_category "USB Charger Cable" = "Electronics & Home"%string.
Proof.
  repeat split.
  - intros name before category keywords after Htable Hmatch Hbefore.
    unfold assign_category. rewrite Htable.
    by rewrite (scan_first _ _ _ _ _ Hmatch Hbefore).
  - intros name Hno. unfold assign_category. by rewrite (scan_none _ _ Hno).
  - intros name. unfold assign_category, labels.
    destruct (scan (lower name) category_keywords) as [c|] eqn:Hscan.
    + apply elem_of_app. left. by apply scan_label in Hscan.
    + apply elem_of_app. right. by left.
  - apply (bool_decide_unpack _). vm_compute. exact I.
Qed.

Lemma assign_category_first_match_witness :
  matches (lower "Eau de Toilette for Home") ["perfume"; "cologne"; "fragrance"; "scent"; "eau de"]%string
  ∧ assign_category "Eau de Toilette for Home" = "Electronics & Home"%string.
Proof.
  assert (Hhome : matches (lower "Eau de Toilette for Home")
            ["electronic"; "cable"; "charger"; "adapter"; "battery";
             "home"; "kitchen"; "appliance"; "tool"]%string).
  { exists "home"%string. split; [apply (bool_decide_unpack _); vm_compute; exact I|].
    by exists "eau de toilette for "%string, EmptyString. }
  split.
  - exists "eau de"%string. split; [apply (bool_decide_unpack _); vm_compute; exact I|].
    by exists EmptyString, " toilette for home"%string.
  - apply (proj1 assign_category_first_match _ [] _ _ _ eq_refl Hhome).
    intros entry Hentry. by apply elem_of_nil in Hentry.
Defined.

End category.

(** ** The number cleaner *)

Section cleaner.
Import Str Cleaner.

Implicit Types (s t : string) (c : ascii) (ds : list nat).

Lemma append_assoc s t u : (s +:+ t) +:+ u = s +:+ (t +:+ u).
Proof. induction s as [|c s IH]; [done|]. by rewrite !append_cons, IH. Qed.

Lemma append_empty_r s : s +:+ EmptyString = s.
Proof. induction s as [|c s IH]; [done|]. by rewrite append_cons, IH. Qed.

Lemma all_chars_app p s t :
  all_chars p (s +:+ t) = all_chars p s && all_chars p t.
Proof.
  induction s as [|c s IH]; [done|].
  rewrite append_cons. simpl. by rewrite IH, andb_assoc.
Qed.

(** *** Replacing one character *)

Lemma replace_app old new s t :
  replace old new (s +:+ t) = replace old new s +:+ replace old new t.
Proof.
  induction s as [|c s IH]; [done|].
  rewrite append_cons. simpl. destruct (Ascii.eqb c old).
  - by rewrite IH, append_assoc.
  - by rewrite IH, append_cons.
Qed.

(** *** Digits *)

Lemma digit_char_facts (d : nat) :
  (d < 10)%nat →
  is_digit (Euro.digit_char d) = true
  ∧ digit_value (Euro.digit_char d) = Z.of_nat d
  ∧ Ascii.eqb (Euro.digit_char d) " " = false
  ∧ Ascii.eqb (Euro.digit_char d) "," = false
  ∧ Ascii.eqb (Euro.digit_char d) "-" = false
  ∧ Ascii.eqb (Euro.digit_char d) "+" = false.
Proof.
  intros Hd. do 10 (destruct d as [|d]; [vm_compute; repeat split|]). lia.
Qed.

Lemma plain_facts c :
  plain c = true →
  is_space c = false ∧ Ascii.eqb c "_" = false ∧ Ascii.eqb c " " = false
  ∧ Ascii.eqb c "," = false.
Proof.
  destruct c as [[] [] [] [] [] [] [] []]; vm_compute; intros H;
    first [discriminate H | repeat split].
Qed.

Lemma show_digits_cons d ds :
  Euro.show_digits (d :: ds) = String (Euro.digit_char d) (Euro.show_digits ds).
Proof. reflexivity. Qed.

Lemma all_chars_cons p c s : all_chars p (String c s) = p c && all_chars p s.
Proof. reflexivity. Qed.

Lemma replace_cons old new c s :
  replace old new (String c s)
  = if Ascii.eqb c old then new +:+ replace old new s
    else String c (replace old new s).
Proof. reflexivity. Qed.

Lemma digits_cons acc count c s :
  digits acc count (String c s)
  = if is_digit c then digits (10 * acc + digit_value c) (count + 1) s
    else (acc, count, String c s).
Proof. reflexivity. Qed.

Lemma show_digits_app ds1 ds2 :
  Euro.show_digits (ds1 ++ ds2) = Euro.show_digits ds1 +:+ Euro.show_digits ds2.
Proof.
  induction ds1 as [|d ds1 IH]; [reflexivity|].
  change ((d :: ds1) ++ ds2) with (d :: (ds1 ++ ds2)).
  by rewrite !show_digits_cons, append_cons, IH.
Qed.

Lemma show_digits_plain ds :
  Forall (fun d => d < 10)%nat ds → all_chars plain (Euro.show_digits ds) = true.
Proof.
  induction 1 as [|d ds Hd _ IH]; [reflexivity|].
  rewrite show_digits_cons, all_chars_cons, IH, andb_true_r. unfold plain.
  destruct (digit_char_facts d Hd) as (-> & _). reflexivity.
Qed.

Lemma show_digits_keep old new ds :
  (old = " " ∨ old = ",")%char →
  Forall (fun d => d < 10)%nat ds →
  replace old new (Euro.show_digits ds) = Euro.show_digits ds.
Proof.
  intros Hold. induction 1 as [|d ds Hd _ IH]; [reflexivity|].
  rewrite show_digits_cons, replace_cons, IH.
  destruct (digit_char_facts d Hd) as (_ & _ & Hsp & Hco & _).
  destruct Hold as [-> | ->]; [by rewrite Hsp|by rewrite Hco].
Qed.

(** A run of digits is read to its end. *)
Lemma digits_show ds acc count rest :
  Forall (fun d => d < 10)%nat ds →
  digits acc count (Euro.show_digits ds +:+ rest)
  = digits (fold_left (fun acc d => 10 * acc + Z.of_nat d)%Z ds acc)
           (count + Z.of_nat (length ds)) rest.
Proof.
  intros Hds. revert acc count.
  induction Hds as [|d ds Hd _ IH]; intros acc count.
  - change (Euro.show_digits [] +:+ rest) with rest.
    change (length (@nil nat)) with 0%nat. f_equal. lia.
  - rewrite show_digits_cons, append_cons, digits_cons.
    destruct (digit_char_facts d Hd) as (-> & -> & _).
    rewrite IH. change (length (d :: ds)) with (S (length ds)).
    change (fold_left (fun acc d => 10 * acc + Z.of_nat d)%Z (d :: ds) acc)
      with (fold_left (fun acc d => 10 * acc + Z.of_nat d)%Z ds (10 * acc + Z.of_nat d)%Z).
    f_equal. lia.
Qed.

Lemma digits_stop acc count s :
  match s with
  | EmptyString => True
  | String c _ => is_digit c = false
  end →
  digits acc count s = (acc, count, s).
Proof.
  destruct s as [|c s]; [reflexivity|]. rewrite digits_cons. by intros ->.
Qed.

(** *** From the European to the plain notation *)

Lemma show_groups_clean (gs : list (list nat)) :
  Forall (Forall (fun d => d < 10)%nat) gs →
  replace " " EmptyString (Euro.show_groups gs) = Euro.show_digits (concat gs).
Proof.
  induction 1 as [|g gs Hg Hgs IH]; [reflexivity|].
  destruct gs as [|g' gs].
  - change (Euro.show_groups [g]) with (Euro.show_digits g).
    change (concat [g]) with (g ++ []). rewrite app_nil_r.
    exact (show_digits_keep _ _ _ (or_introl eq_refl) Hg).
  - change (Euro.show_groups (g :: g' :: gs))
      with (Euro.show_digits g +:+ String " " (Euro.show_groups (g' :: gs))).
    change (concat (g :: g' :: gs)) with (g ++ concat (g' :: gs)).
    rewrite replace_app, replace_cons, show_digits_app, IH.
    by rewrite (show_digits_keep _ _ _ (or_introl eq_refl) Hg).
Qed.

Lemma show_clean (n : Euro.numeral) :
  Euro.well_formed n →
  replace "," "." (replace " " EmptyString (Euro.show n)) = Euro.show_plain n.
Proof.
  intros (Hgs & Hfrac & _). unfold Euro.show, Euro.show_plain.
  rewrite !replace_app, show_groups_clean by done.
  rewrite (show_digits_keep "," "." (concat (Euro.groups n)) (or_intror eq_refl))
    by (by apply Forall_concat).
  f_equal; [by destruct (Euro.negative n)|]. f_equal.
  destruct (Euro.fraction n) as [|d ds] eqn:Hds; [reflexivity|].
  rewrite (replace_cons " "). change (Ascii.eqb "," " ") with false.
  rewrite (show_digits_keep " " _ _ (or_introl eq_refl) Hfrac).
  rewrite (replace_cons ","). change (Ascii.eqb "," ",") with true.
  by rewrite (show_digits_keep "," _ _ (or_intror eq_refl) Hfrac).
Qed.

Lemma show_plain_chars (n : Euro.numeral) :
  Euro.well_formed n → all_chars plain (Euro.show_plain n) = true.
Proof.
  intros (Hgs & Hfrac & _). unfold Euro.show_plain.
  rewrite !all_chars_app, !andb_true_iff. repeat split.
  - by destruct (Euro.negative n).
  - by apply show_digits_plain, Forall_concat.
  - destruct (Euro.fraction n) as [|d ds] eqn:Hds; [reflexivity|].
    rewrite all_chars_cons, show_digits_plain by done. reflexivity.
Qed.

(** *** Reading the plain notation *)

Lemma drop_underscores_none prev s :
  Ascii.eqb prev "_" = false →
  all_chars plain s = true → drop_underscores prev s = Some s.
Proof.
  revert prev. induction s as [|c s IH]; intros prev Hprev.
  - intros _. simpl. by rewrite Hprev.
  - rewrite all_chars_cons, andb_true_iff. intros [Hc Hs].
    destruct (plain_facts c Hc) as (_ & Hu & _).
    simpl. rewrite Hu, Hprev. simpl. by rewrite (IH c Hu Hs).
Qed.

Lemma lstrip_none s : all_chars plain s = true → lstrip s = s.
Proof.
  destruct s as [|c s]; [done|].
  rewrite all_chars_cons, andb_true_iff. intros [Hc _].
  destruct (plain_facts c Hc) as (Hsp & _). simpl. by rewrite Hsp.
Qed.

Lemma rstrip_none s : all_chars plain s = true → rstrip s = s.
Proof.
  induction s as [|c s IH]; [done|].
  rewrite all_chars_cons, andb_true_iff. intros [Hc Hs].
  destruct (plain_facts c Hc) as (Hsp & _).
  simpl. rewrite (IH Hs), Hsp. by destruct s.
Qed.

Lemma parse_sign_digit (d : nat) (rest : string) :
  (d < 10)%nat →
  parse_sign (String (Euro.digit_char d) rest)
  = (false, String (Euro.digit_char d) rest).
Proof.
  intros Hd. destruct (digit_char_facts d Hd) as (_ & _ & _ & _ & Hm & Hp).
  unfold parse_sign. by rewrite Hm, Hp.
Qed.

Lemma parse_sign_plain (neg : bool) (ints : list nat) (tail : string) :
  Forall (fun d => d < 10)%nat ints → ints ≠ [] →
  parse_sign ((if neg then "-" else EmptyString) +:+ Euro.show_digits ints +:+ tail)
  = (neg, Euro.show_digits ints +:+ tail).
Proof.
  intros Hints Hne. destruct neg; [reflexivity|]. rewrite append_empty_l.
  destruct ints as [|d ints]; [done|].
  rewrite show_digits_cons, append_cons. apply parse_sign_digit.
  by inversion Hints.
Qed.

Lemma strtod_plain (n : Euro.numeral) :
  Euro.well_formed n →
  strtod (Euro.show_plain n) = Some (Euro.denoted n, EmptyString).
Proof.
  intros (Hgs & Hfrac & Hne).
  assert (Hints : Forall (fun d => d < 10)%nat (concat (Euro.groups n)))
    by (by apply Forall_concat).
  unfold Euro.show_plain, Euro.denoted, Euro.digits_value, strtod.
  rewrite parse_sign_plain by done.
  rewrite digits_show by done. rewrite fold_left_app.
  set (m1 := fold_left _ (concat (Euro.groups n)) 0%Z).
  assert (Hn1 : (0 < 0 + Z.of_nat (length (concat (Euro.groups n))))%Z).
  { destruct (concat (Euro.groups n)); [done|]. simpl length. lia. }
  set (n1 := (0 + Z.of_nat (length (concat (Euro.groups n))))%Z) in *.
  destruct (Euro.fraction n) as [|f fs] eqn:Hf.
  - rewrite digits_stop by done. cbv beta iota.
    replace (n1 + 0 =? 0)%Z with false by (symmetry; apply Z.eqb_neq; lia).
    reflexivity.
  - rewrite digits_stop by reflexivity. cbv beta iota.
    change (Ascii.eqb "." ".") with true. cbv beta iota.
    rewrite <- (append_empty_r (Euro.show_digits (f :: fs))).
    rewrite digits_show by done. rewrite digits_stop by done. cbv beta iota.
    replace (n1 + (0 + Z.of_nat (length (f :: fs))) =? 0)%Z with false
      by (symmetry; apply Z.eqb_neq; lia).
    cbv beta iota zeta. unfold parse_exponent. do 2 f_equal; lia.
Qed.

Lemma float_of_string_plain (n : Euro.numeral) :
  Euro.well_formed n → float_of_string (Euro.show_plain n) = Ok (Euro.denoted n).
Proof.
  intros Hn. pose proof (show_plain_chars n Hn) as Hchars.
  unfold float_of_string, string_to_double.
  rewrite drop_underscores_none by done.
  rewrite lstrip_none, rstrip_none by done.
  by rewrite strtod_plain.
Qed.

(** [float] on a string raises nothing but [ValueError]. *)
Lemma float_of_string_raises (s : string) (e : pyerr) :
  float_of_string s = Raise e → e = ValueError.
Proof.
  unfold float_of_string.
  destruct (drop_underscores _ s) as [s'|]; [|by intros [= <-]].
  destruct (string_to_double _) as [[x [|c r]]|]; [done|by intros [= <-]..].
Qed.

Lemma clean_european_number_str (s : string) :
  clean_european_number (CStr s)
  = Ok (match float_of_string (replace "," "." (replace " " EmptyString s)) with
        | Ok x => x
        | Raise _ => 0%float
        end).
Proof.
  unfold clean_european_number.
  cbn [pd_isna is_int_or_float py_str py_float].
  destruct (float_of_string _) as [x|e] eqn:Hf; [done|].
  by rewrite (float_of_string_raises _ _ Hf).
Qed.

Lemma clean_european_number_int (z : Z) :
  (Z.abs z < 2 ^ 1024 - 2 ^ 970)%Z →
  clean_european_number (CInt z) = Ok (Z_to_float z).
Proof.
  intros Hz. unfold clean_european_number.
  cbn [pd_isna is_int_or_float py_float]. unfold float_of_int.
  by destruct (Z.ltb_spec (Z.abs z) (2 ^ 1024 - 2 ^ 970)); [|lia].
Qed.

Lemma clean_european_number_int_overflow (z : Z) :
  (2 ^ 1024 - 2 ^ 970 <= Z.abs z)%Z →
  clean_european_number (CInt z) = Raise OverflowError.
Proof.
  intros Hz. unfold clean_european_number.
  cbn [pd_isna is_int_or_float py_float]. unfold float_of_int.
  by destruct (Z.ltb_spec (Z.abs z) (2 ^ 1024 - 2 ^ 970)); [lia|].
Qed.

Lemma clean_european_number_Ok (v : cell) :
  convertible v → ∃ f : float, clean_european_number v = Ok f.
Proof.
  intros Hv. destruct v as [|b|z|f|s].
  - by exists 0%float.
  - exists (if b then 1 else 0)%float. by destruct b.
  - exists (Z_to_float z). by apply clean_european_number_int, Hv.
  - unfold clean_european_number. cbn [pd_isna is_int_or_float py_float].
    destruct (PrimFloat.is_nan f); eauto.
  - rewrite clean_european_number_str. eauto.
Qed.

(** The cleaner raises nothing but the [OverflowError] of [float(int)]. *)
Lemma clean_european_number_raises (v : cell) (e : pyerr) :
  clean_european_number v = Raise e → e = OverflowError.
Proof.
  destruct v as [|b|z|f|s].
  - discriminate.
  - by destruct b.
  - unfold clean_european_number. cbn [pd_isna is_int_or_float py_float].
    unfold float_of_int. destruct (_ <? _)%Z; [discriminate|]. by intros [= <-].
  - unfold clean_european_number. cbn [pd_isna is_int_or_float py_float].
    by destruct (PrimFloat.is_nan f).
  - by rewrite clean_european_number_str.
Qed.

(** C5, as the claim states it, fails: not every numeric input passes
    through as a float.  The float [nan] comes back as 0.0, not as itself,
    and an [int] beyond the binary64 range comes back as no float at all:
    [OverflowError] is raised. *)
Lemma clean_european_number_not_passed_through :
  clean_european_number (CFloat nan) = Ok 0%float
  ∧ clean_european_number (CFloat nan) ≠ Ok nan
  ∧ clean_european_number (CInt (2 ^ 1024)) = Raise OverflowError
  ∧ ¬ (∀ f : float, clean_european_number (CFloat f) = Ok f)
  ∧ ¬ (∀ z : Z, ∃ f : float, clean_european_number (CInt z) = Ok f).
Proof.
  assert (Hnan : clean_european_number (CFloat nan) = Ok 0%float)
    by reflexivity.
  assert (Hne : clean_european_number (CFloat nan) ≠ Ok nan).
  { rewrite Hnan. intros H0.
    assert (Prim2SF 0 = Prim2SF nan) as H1 by congruence.
    vm_compute in H1. discriminate H1. }
  assert (Hbig : clean_european_number (CInt (2 ^ 1024)) = Raise OverflowError)
    by (vm_compute; reflexivity).
  split; [exact Hnan|]. split; [exact Hne|]. split; [exact Hbig|]. split.
  - intros Hall. by apply Hne.
  - intros Hall. destruct (Hall (2 ^ 1024)%Z) as [f Hf]. congruence.
Qed.

(** C5, amended. [clean_european_number] turns a numeral written with spaces
    between digit groups and a decimal comma into the float that numeral
    denotes.  It returns a float other than [nan] as it is, a boolean as 1.0
    or 0.0, and an integer of magnitude below [2^1024 - 2^970] as the float
    nearest to it, which below [2^53] is the integer itself; [nan] gives
    0.0.  [5 191,16] gives 5191.16, the integer 5191 gives 5191.0 and [None]
    gives 0.0. *)
Theorem clean_european_number_converts :
  (∀ n : Euro.numeral,
     Euro.well_formed n →
     clean_european_number (CStr (Euro.show n)) = Ok (Euro.denoted n))
  ∧ (∀ f : float,
       PrimFloat.is_nan f = false → clean_european_number (CFloat f) = Ok f)
  ∧ (∀ z : Z,
       (Z.abs z < 2 ^ 1024 - 2 ^ 970)%Z →
       clean_european_number (CInt z) = Ok (Z_to_float z))
  ∧ (∀ b : bool,
       clean_european_number (CBool b) = Ok (if b then 1 else 0)%float)
  ∧ clean_european_number (CStr "5 191,16") = Ok 5191.16%float
  ∧ clean_european_number CNone = Ok 0%float
  ∧ (∀ z : Z,
       (Z.abs z < 2 ^ 53)%Z →
       ∃ x : float,
         clean_european_number (CInt z) = Ok x
         ∧ Binary64.value x = Some (Q2Qc (inject_Z z)))
  ∧ (∀ f : float,
       PrimFloat.is_nan f = true → clean_european_number (CFloat f) = Ok 0%float)
  ∧ clean_european_number (CInt 5191) = Ok 5191%float
  ∧ clean_european_number (CFloat 5191.16) = Ok 5191.16%float.
Proof.
  split.
  { intros n Hn.
    by rewrite clean_european_number_str, show_clean, float_of_string_plain. }
  split.
  { intros f Hf. unfold clean_european_number. cbn [pd_isna]. by rewrite Hf. }
  split; [apply clean_european_number_int|].
  split; [by intros []|].
  split; [reflexivity|]. split; [reflexivity|]. split.
  { intros z Hz. exists (Z_to_float z). split.
    - apply clean_european_number_int.
      assert (2 ^ 53 < 2 ^ 1024 - 2 ^ 970)%Z; [|lia].
      apply (bool_decide_unpack _). vm_compute. exact I.
    - by apply value_Z_to_float. }
  split.
  { intros f Hf. unfold clean_european_number. cbn [pd_isna]. by rewrite Hf. }
  split; reflexivity.
Qed.

Lemma clean_european_number_converts_witness :
  Euro.well_formed Samples.five_thousand
  ∧ Euro.show Samples.five_thousand = "5 191,16"%string
  ∧ Euro.denoted Samples.five_thousand = 5191.16%float
  ∧ clean_european_number (CStr (Euro.show Samples.five_thousand))
    = Ok (Euro.denoted Samples.five_thousand)
  ∧ ∃ x : float,
      clean_european_number (CInt (-5191)) = Ok x
      ∧ Binary64.value x = Some (Q2Qc (inject_Z (-5191))).
Proof.
  assert (Hwf : Euro.well_formed Samples.five_thousand).
  { unfold Euro.well_formed, Samples.five_thousand. cbn.
    repeat split; [repeat constructor; lia..|discriminate]. }
  split; [exact Hwf|]. split; [reflexivity|]. split; [reflexivity|]. split.
  - apply (proj1 clean_european_number_converts Samples.five_thousand Hwf).
  - apply (proj1 (proj2 (proj2 (proj2 (proj2 (proj2 (proj2
             clean_european_number_converts)))))) (-5191)%Z).
    vm_compute. reflexivity.
Defined.

(** C6, as the claim states it, fails: an [int] too large for a float is
    handed to [float], which raises [OverflowError]. *)
Lemma clean_european_number_overflow :
  clean_european_number (CInt (2 ^ 1024)) = Raise OverflowError
  ∧ ¬ (∀ v : cell, ∃ f : float, clean_european_number v = Ok f).
Proof.
  assert (H : clean_european_number (CInt (2 ^ 1024)) = Raise OverflowError)
    by (vm_compute; reflexivity).
  split; [exact H|]. intros Htotal.
  destruct (Htotal (CInt (2 ^ 1024))) as [f Hf]. congruence.
Qed.

(** C6, amended. [clean_european_number] returns a float and raises nothing
    for every input that is [None], a boolean, a float, a string, or an
    integer of magnitude below [2^1024 - 2^970]; a missing value ([None] or
    [nan]) and a string that [float] cannot read after cleaning give 0.0.
    An integer of magnitude [2^1024 - 2^970] or more raises
    [OverflowError]. *)
Theorem clean_european_number_total_in_range :
  (∀ v : cell,
     (∀ z : Z, v = CInt z → (Z.abs z < 2 ^ 1024 - 2 ^ 970)%Z) →
     (∃ f : float, clean_european_number v = Ok f)
     ∧ (pd_isna v = true → clean_european_number v = Ok 0%float)
     ∧ (∀ (s : string) (e : pyerr),
          v = CStr s →
          float_of_string (replace "," "." (replace " " EmptyString s)) = Raise e →
          clean_european_number v = Ok 0%float))
  ∧ (∀ z : Z,
       (2 ^ 1024 - 2 ^ 970 <= Z.abs z)%Z →
       clean_european_number (CInt z) = Raise OverflowError).
Proof.
  split; [|apply clean_european_number_int_overflow].
  intros v Hint. repeat split.
  - by apply clean_european_number_Ok.
  - intros Hna. unfold clean_european_number. by rewrite Hna.
  - intros s e -> Hraise. by rewrite clean_european_number_str, Hraise.
Qed.

Lemma clean_european_number_total_in_range_witness :
  (∃ f : float, clean_european_number (CStr "n/a") = Ok f)
  ∧ clean_european_number (CStr "n/a") = Ok 0%float
  ∧ clean_european_number (CInt (- 2 ^ 1024)) = Raise OverflowError.
Proof.
  assert (Hstr : ∀ z : Z, CStr "n/a" = CInt z → (Z.abs z < 2 ^ 1024 - 2 ^ 970)%Z)
    by (intros z Hz; discriminate Hz).
  destruct (proj1 clean_european_number_total_in_range (CStr "n/a") Hstr)
    as (Hok & _ & Hbad).
  split; [exact Hok|]. split.
  - apply (Hbad "n/a"%string ValueError eq_refl). vm_compute. reflexivity.
  - apply (proj2 clean_european_number_total_in_range). vm_compute. discriminate.
Defined.

End cleaner.

(** ** Binary64 comparisons with zero *)

Section float_order.

Lemma float_nonpos_not_pos (x : float) :
  PrimFloat.leb x 0 = true → PrimFloat.ltb 0 x = false.
Proof.
  rewrite FloatAxioms.leb_spec, FloatAxioms.ltb_spec.
  change (Prim2SF 0) with (S754_zero false). unfold SFleb, SFltb.
  destruct (Prim2SF x) as [s|s| |s m e]; try destruct s; simpl; congruence.
Qed.

Lemma float_zero_abs (x : float) :
  PrimFloat.eqb x 0 = true → PrimFloat.ltb 0 (PrimFloat.abs x) = false.
Proof.
  rewrite FloatAxioms.eqb_spec, FloatAxioms.ltb_spec, FloatAxioms.abs_spec.
  change (Prim2SF 0) with (S754_zero false). unfold SFeqb, SFltb.
  destruct (Prim2SF x) as [s|s| |s m e]; try destruct s; simpl; congruence.
Qed.

Lemma float_nonzero_abs (x : float) :
  PrimFloat.ltb x 0 = true ∨ PrimFloat.ltb 0 x = true →
  PrimFloat.ltb 0 (PrimFloat.abs x) = true.
Proof.
  rewrite !FloatAxioms.ltb_spec, FloatAxioms.abs_spec.
  change (Prim2SF 0) with (S754_zero false). unfold SFltb.
  destruct (Prim2SF x) as [s|s| |s m e]; try destruct s; simpl;
    intros [?|?]; congruence.
Qed.

Lemma float_neg_or_zero_not_pos (x : float) :
  PrimFloat.ltb x 0 = true ∨ PrimFloat.eqb x 0 = true → PrimFloat.ltb 0 x = false.
Proof.
  rewrite !FloatAxioms.ltb_spec, FloatAxioms.eqb_spec.
  change (Prim2SF 0) with (S754_zero false). unfold SFltb, SFeqb.
  destruct (Prim2SF x) as [s|s| |s m e]; try destruct s; simpl;
    intros [?|?]; congruence.
Qed.

Lemma float_abs_pos (x : float) :
  PrimFloat.ltb 0 x = true → PrimFloat.abs x = x.
Proof.
  intros H. apply Prim2SF_inj. rewrite FloatAxioms.abs_spec. revert H.
  rewrite FloatAxioms.ltb_spec. change (Prim2SF 0) with (S754_zero false).
  unfold SFltb.
  destruct (Prim2SF x) as [s|s| |s m e]; try destruct s; simpl; congruence.
Qed.

(** A number that is negative or zero is not [> 0]. *)
Lemma num_nonpos_not_pos (x : num) :
  num_lt x 0 = true ∨ num_eq x 0 = true → num_gt x 0 = false.
Proof.
  destruct x as [z|f]; simpl.
  - rewrite Z.ltb_lt, Z.eqb_eq, Z.ltb_ge. lia.
  - change (Z_to_float 0) with 0%float. apply float_neg_or_zero_not_pos.
Qed.

End float_order.

(** ** The SKU table *)

Section sku_table.
Import Str Cleaner HealthScore Tier SkuTable.

Implicit Types (r : raw_row) (rows : list raw_row) (out : list sku_row).

Lemma as_series_numeric (r' : sku_row) : numeric_inputs (as_series r').
Proof.
  unfold numeric_inputs, score_columns, row_get, as_series.
  repeat (apply Forall_cons; split); [..|constructor];
    rewrite ?lookup_insert_ne by done; rewrite lookup_insert_eq; simpl;
    try done; by destruct (Units_Sold r').
Qed.

(** What a processed row holds, read off the row that was read in. *)
Lemma process_row_Ok r (r' : sku_row) :
  process_row r = Ok r' →
  clean_european_number (in_Revenue r) = Ok (Revenue r')
  ∧ clean_european_number (in_COGS r) = Ok (COGS r')
  ∧ clean_european_number (in_Amazon_Fees r) = Ok (Amazon_Fees r')
  ∧ clean_european_number (in_Net_Profit r) = Ok (Net_Profit r')
  ∧ Units_Sold r' = in_Units_Sold r
  ∧ Refunds r' = in_Refunds r
  ∧ SKU r' = in_SKU r
  ∧ Margin_Pct r' = margin_pct (Net_Profit r') (Revenue r')
  ∧ ROI_Pct r' = roi_pct (Net_Profit r') (COGS r')
  ∧ Refund_Rate_Pct r' = refund_rate_pct (Refunds r') (Units_Sold r').
Proof.
  unfold process_row.
  destruct (clean_european_number (in_Revenue r)) as [revenue|]; [|done].
  destruct (clean_european_number (in_COGS r)) as [cogs|]; [|done].
  destruct (clean_european_number (in_Amazon_Fees r)) as [fees|]; [|done].
  destruct (clean_european_number (in_Net_Profit r)) as [net_profit|]; [|done].
  cbn [mbind result_bind].
  destruct (calculate_health_score _) as [score|]; [|done].
  cbn [mbind result_bind].
  destruct (assign_performance_tier _) as [tier|]; [|done].
  cbn [mbind result_bind]. intros [= <-]. by cbn.
Qed.

Lemma process_row_raises r (e : pyerr) :
  process_row r = Raise e → e = OverflowError.
Proof.
  unfold process_row.
  destruct (clean_european_number (in_Revenue r)) as [revenue|e1] eqn:H1;
    [|intros [= <-]; by apply clean_european_number_raises in H1].
  destruct (clean_european_number (in_COGS r)) as [cogs|e2] eqn:H2;
    [|intros [= <-]; by apply clean_european_number_raises in H2].
  destruct (clean_european_number (in_Amazon_Fees r)) as [fees|e3] eqn:H3;
    [|intros [= <-]; by apply clean_european_number_raises in H3].
  destruct (clean_european_number (in_Net_Profit r)) as [net_profit|e4] eqn:H4;
    [|intros [= <-]; by apply clean_european_number_raises in H4].
  cbn [mbind result_bind].
  match goal with |- context [calculate_health_score (as_series ?x)] =>
    destruct (score_before_clamp_range _ (as_series_numeric x)) as (s & Hs & _)
  end.
  unfold calculate_health_score. rewrite Hs. cbn [mbind result_bind].
  unfold assign_performance_tier, py_ge. cbn [as_num mbind result_bind].
  repeat (destruct (num_ge _ _); [discriminate|]). discriminate.
Qed.

Lemma process_row_convertible r :
  row_convertible r → ∃ r' : sku_row, process_row r = Ok r'.
Proof.
  intros (Hrev & Hcogs & Hfees & Hnp). unfold process_row.
  destruct (clean_european_number_Ok _ Hrev) as [revenue ->].
  destruct (clean_european_number_Ok _ Hcogs) as [cogs ->].
  destruct (clean_european_number_Ok _ Hfees) as [fees ->].
  destruct (clean_european_number_Ok _ Hnp) as [net_profit ->].
  cbn [mbind result_bind].
  match goal with |- context [calculate_health_score (as_series ?x)] =>
    destruct (score_before_clamp_range _ (as_series_numeric x)) as (s & Hs & _)
  end.
  unfold calculate_health_score. rewrite Hs. cbn [mbind result_bind].
  unfold assign_performance_tier, py_ge. cbn [as_num mbind result_bind].
  repeat (destruct (num_ge _ _); [by eexists|]). by eexists.
Qed.

Lemma process_rows_Ok rows out :
  process_rows rows = Ok out →
  Forall2 (fun r (r' : sku_row) => process_row r = Ok r') rows out.
Proof.
  revert out. induction rows as [|r rows IH]; intros out; simpl.
  - intros [= <-]. constructor.
  - destruct (process_row r) as [r'|] eqn:Hr; [|done]. cbn [mbind result_bind].
    destruct (process_rows rows) as [rest|]; [|done]. cbn [mbind result_bind].
    intros [= <-]. constructor; [done|]. by apply IH.
Qed.

Lemma process_rows_raises rows (e : pyerr) :
  process_rows rows = Raise e → e = OverflowError.
Proof.
  induction rows as [|r rows IH]; simpl; [done|].
  destruct (process_row r) as [r'|e'] eqn:Hr.
  - cbn [mbind result_bind]. destruct (process_rows rows) as [rest|e'']; [done|].
    cbn [mbind result_bind]. intros [= <-]. by apply IH.
  - cbn [mbind result_bind]. intros [= <-]. by apply process_row_raises in Hr.
Qed.

Lemma process_rows_convertible rows :
  Forall row_convertible rows → ∃ out, process_rows rows = Ok out.
Proof.
  induction 1 as [|r rows Hr _ [rest IH]]; simpl; [by eexists|].
  destruct (process_row_convertible r Hr) as [r' ->]. rewrite IH. by eexists.
Qed.

(** Every row written out is the processed row of the same position, under
    its new label. *)
Lemma process_sku_data_lookup rows out (i : nat) (r' : sku_row) :
  process_sku_data rows = Ok out → out !! i = Some r' →
  ∃ r (p : sku_row), rows !! i = Some r ∧ process_row r = Ok p
                      ∧ r' = set_SKU (sku_label i) p.
Proof.
  unfold process_sku_data, anonymize.
  destruct (process_rows rows) as [df|] eqn:Hdf; [|done].
  cbn [mbind result_bind]. intros [= <-].
  rewrite list_lookup_imap. intros (p & Hp & ->)%fmap_Some.
  apply process_rows_Ok in Hdf.
  destruct (Forall2_lookup_r _ _ _ _ _ Hdf Hp) as (r & Hr & Hrow).
  by exists r, p.
Qed.

Lemma process_sku_data_length rows out :
  process_sku_data rows = Ok out → length out = length rows.
Proof.
  unfold process_sku_data, anonymize.
  destruct (process_rows rows) as [df|] eqn:Hdf; [|done].
  cbn [mbind result_bind]. intros [= <-]. rewrite length_imap.
  symmetry. by apply (Forall2_length _ _ _ (process_rows_Ok _ _ Hdf)).
Qed.

Lemma set_SKU_fields (label : string) (p : sku_row) :
  Revenue (set_SKU label p) = Revenue p
  ∧ COGS (set_SKU label p) = COGS p
  ∧ Net_Profit (set_SKU label p) = Net_Profit p
  ∧ Units_Sold (set_SKU label p) = Units_Sold p
  ∧ Refunds (set_SKU label p) = Refunds p
  ∧ Margin_Pct (set_SKU label p) = Margin_Pct p
  ∧ ROI_Pct (set_SKU label p) = ROI_Pct p
  ∧ Refund_Rate_Pct (set_SKU label p) = Refund_Rate_Pct p
  ∧ SKU (set_SKU label p) = CStr label.
Proof. by repeat split. Qed.

(** C1, as the claim states it, fails for [ROI_Pct]: the guard of that
    column is on the absolute value of [COGS], so a negative [COGS] yields a
    ratio, not 0. *)
Lemma roi_pct_negative_cogs :
  (∃ r' : sku_row,
     process_sku_data [Samples.negative_cogs_row] = Ok [r']
     ∧ PrimFloat.leb (COGS r') 0 = true
     ∧ ROI_Pct r' = 50%float)
  ∧ ¬ (∀ rows out (i : nat) (r' : sku_row),
         process_sku_data rows = Ok out → out !! i = Some r' →
         PrimFloat.leb (COGS r') 0 = true → ROI_Pct r' = 0%float).
Proof.
  assert (Hrun : ∃ r' : sku_row,
     process_sku_data [Samples.negative_cogs_row] = Ok [r']
     ∧ PrimFloat.leb (COGS r') 0 = true
     ∧ ROI_Pct r' = 50%float).
  { eexists. split; [vm_compute; reflexivity|]. split; reflexivity. }
  split; [exact Hrun|]. intros Hclaim.
  destruct Hrun as (r' & Hout & Hcogs & Hroi).
  pose proof (Hclaim _ _ 0%nat r' Hout eq_refl Hcogs) as Hzero.
  rewrite Hroi in Hzero.
  apply (f_equal (fun x => PrimFloat.eqb x 0)) in Hzero.
  vm_compute in Hzero. discriminate Hzero.
Qed.

(** C1, amended. [process_sku_data] raises no division error: it returns the
    table whenever [float] can convert the numbers in the money columns, and
    the only exception it can raise is the [OverflowError] of such a
    conversion.  In every row written out, [Margin_Pct] is 0 when [Revenue]
    is not positive and [Refund_Rate_Pct] is 0 when [Units_Sold] is not
    positive; each equals numerator / denominator * 100 when the denominator
    is positive.  [ROI_Pct] is 0 when [COGS] is zero, and is
    [Net_Profit / |COGS| * 100] for every other [COGS], negative ones
    included; for a positive [COGS] that is [Net_Profit / COGS * 100]. *)
Theorem derived_ratios_guarded :
  (∀ rows, Forall row_convertible rows →
           ∃ out, process_sku_data rows = Ok out)
  ∧ (∀ rows (e : pyerr), process_sku_data rows = Raise e → e = OverflowError)
  ∧ (∀ rows out (i : nat) (r' : sku_row),
       process_sku_data rows = Ok out → out !! i = Some r' →
       (PrimFloat.leb (Revenue r') 0 = true → Margin_Pct r' = 0%float)
       ∧ (PrimFloat.ltb 0 (Revenue r') = true →
          Margin_Pct r' = (Net_Profit r' / Revenue r' * 100)%float)
       ∧ (PrimFloat.eqb (COGS r') 0 = true → ROI_Pct r' = 0%float)
       ∧ (PrimFloat.ltb (COGS r') 0 = true ∨ PrimFloat.ltb 0 (COGS r') = true →
          ROI_Pct r' = (Net_Profit r' / PrimFloat.abs (COGS r') * 100)%float)
       ∧ (PrimFloat.ltb 0 (COGS r') = true →
          ROI_Pct r' = (Net_Profit r' / COGS r' * 100)%float)
       ∧ (num_lt (Units_Sold r') 0 = true ∨ num_eq (Units_Sold r') 0 = true →
          Refund_Rate_Pct r' = 0%float)
       ∧ (num_gt (Units_Sold r') 0 = true →
          Refund_Rate_Pct r'
          = (num_to_float (Refunds r') / num_to_float (Units_Sold r') * 100)%float)).
Proof.
  split; [|split].
  - intros rows (df & Hdf)%process_rows_convertible.
    unfold process_sku_data. rewrite Hdf. by eexists.
  - intros rows e. unfold process_sku_data.
    destruct (process_rows rows) as [df|e'] eqn:Hdf; [done|].
    cbn [mbind result_bind]. intros [= <-]. by apply process_rows_raises in Hdf.
  - intros rows out i r' Hout Hi.
    destruct (process_sku_data_lookup _ _ _ _ Hout Hi) as (r & p & _ & Hp & ->).
    destruct (process_row_Ok _ _ Hp)
      as (_ & _ & _ & _ & _ & _ & _ & Hmargin & Hroi & Hrefund).
    destruct (set_SKU_fields (sku_label i) p)
      as (-> & -> & -> & -> & -> & -> & -> & -> & _).
    rewrite Hmargin, Hroi, Hrefund.
    unfold margin_pct, roi_pct, refund_rate_pct, np_where.
    repeat split.
    + by intros ->%float_nonpos_not_pos.
    + by intros ->.
    + by intros ->%float_zero_abs.
    + by intros ->%float_nonzero_abs.
    + intros Hpos. rewrite (float_abs_pos _ Hpos). by rewrite Hpos.
    + by intros ->%num_nonpos_not_pos.
    + by intros ->.
Qed.

Lemma derived_ratios_guarded_witness :
  ∃ (out : list sku_row) (r' : sku_row),
    process_sku_data [Samples.negative_cogs_row; Samples.unsold_row] = Ok out
    ∧ out !! 1%nat = Some r'
    ∧ PrimFloat.leb (Revenue r') 0 = true
    ∧ Margin_Pct r' = 0%float.
Proof.
  eexists _, _. split; [vm_compute; reflexivity|]. split; [reflexivity|].
  split; [reflexivity|].
  eapply (proj2 (proj2 derived_ratios_guarded)
            [Samples.negative_cogs_row; Samples.unsold_row] _ 1%nat).
  - vm_compute. reflexivity.
  - reflexivity.
  - reflexivity.
Defined.


(** *** The labels *)

Lemma digits_uint (d : Decimal.uint) (acc : nat) (count : Z) (rest : string) :
  digits (Z.of_nat acc) count (NilEmpty.string_of_uint d +:+ rest)
  = digits (Z.of_nat (Nat.of_uint_acc d acc))
           (count + Z.of_nat (String.length (NilEmpty.string_of_uint d))) rest.
Proof.
  revert acc count.
  induction d as [|d IH|d IH|d IH|d IH|d IH|d IH|d IH|d IH|d IH|d IH];
    intros acc count;
    [ change (NilEmpty.string_of_uint Nil +:+ rest) with rest;
      change (Nat.of_uint_acc Nil acc) with acc;
      change (String.length (NilEmpty.string_of_uint Nil)) with 0%nat;
      f_equal; lia | ..];
    cbn [NilEmpty.string_of_uint Nat.of_uint_acc String.length];
    rewrite append_cons, digits_cons; cbn [is_digit];
    change (is_digit _) with true; cbv iota;
    rewrite Nat.tail_mul_spec;
    match goal with
    | |- digits ?a ?c _ = digits (Z.of_nat (Nat.of_uint_acc d ?acc')) _ _ =>
        replace a with (Z.of_nat acc')
          by (unfold digit_value; cbn; lia)
    end;
    rewrite IH; f_equal; lia.
Qed.

Lemma uint_all_digits (d : Decimal.uint) :
  all_chars is_digit (NilEmpty.string_of_uint d) = true.
Proof. induction d; cbn [NilEmpty.string_of_uint all_chars]; by rewrite ?IHd. Qed.

Lemma to_uint_nonnil (n : nat) : Nat.to_uint n ≠ Nil.
Proof.
  rewrite <- (DecimalNat.Unsigned.of_to n) at 1.
  rewrite DecimalNat.Unsigned.to_of. apply DecimalFacts.unorm_nonnil.
Qed.

Lemma of_nat_uint (n : nat) : of_nat n = NilEmpty.string_of_uint (Nat.to_uint n).
Proof.
  unfold of_nat, NilZero.string_of_uint. pose proof (to_uint_nonnil n).
  by destruct (Nat.to_uint n).
Qed.

Lemma of_nat_digits (n : nat) (count : Z) :
  all_chars is_digit (of_nat n) = true
  ∧ digits 0 count (of_nat n)
    = (Z.of_nat n, (count + Z.of_nat (String.length (of_nat n)))%Z, EmptyString).
Proof.
  rewrite of_nat_uint. split; [apply uint_all_digits|].
  rewrite <- (append_empty_r (NilEmpty.string_of_uint _)) at 1.
  rewrite (digits_uint _ 0 count).
  change (Nat.of_uint_acc ?d 0) with (Nat.of_uint d).
  rewrite DecimalNat.Unsigned.of_to. by rewrite digits_stop.
Qed.

Lemma zeros_length (k : nat) : String.length (zeros k) = k.
Proof. induction k; simpl; congruence. Qed.

Lemma append_length (s t : string) :
  String.length (s +:+ t) = (String.length s + String.length t)%nat.
Proof. induction s as [|c s IH]; [done|]. rewrite append_cons. simpl. by rewrite IH. Qed.

Lemma zeros_digits (k : nat) (count : Z) (rest : string) :
  digits 0 count (zeros k +:+ rest) = digits 0 (count + Z.of_nat k) rest.
Proof.
  revert count. induction k as [|k IH]; intros count.
  - rewrite append_empty_l. f_equal. lia.
  - change (zeros (S k)) with (String "0" (zeros k)).
    rewrite append_cons, digits_cons. change (is_digit "0") with true. cbv iota.
    change (10 * 0 + digit_value "0")%Z with 0%Z. rewrite IH. f_equal. lia.
Qed.

(** Zero-filling a run of digits puts the zeros in front. *)
Lemma zfill_digits (width : nat) (s : string) :
  all_chars is_digit s = true →
  zfill width s = zeros (width - String.length s) +:+ s.
Proof.
  destruct s as [|c s]; [by rewrite append_empty_r|].
  rewrite all_chars_cons, andb_true_iff. intros [Hc _]. unfold zfill.
  assert (Ascii.eqb c "+" || Ascii.eqb c "-" = false) as ->; [|done].
  revert Hc. destruct c as [[] [] [] [] [] [] [] []]; vm_compute; congruence.
Qed.

(** The label of position [i]: [SKU-], then the decimal digits of [i + 1],
    with zeros in front when there are fewer than four. *)
Lemma sku_label_digits (i : nat) :
  ∃ ds : string,
    sku_label i = "SKU-" +:+ ds
    ∧ String.length ds = Nat.max 4 (String.length (of_nat (i + 1)))
    ∧ all_chars is_digit ds = true
    ∧ digits 0 0 ds = (Z.of_nat (i + 1), Z.of_nat (String.length ds), EmptyString).
Proof.
  destruct (of_nat_digits (i + 1) 0) as (Hall & _).
  exists (zfill 4 (of_nat (i + 1))). split; [done|].
  rewrite (zfill_digits _ _ Hall). repeat split.
  - rewrite append_length, zeros_length. lia.
  - rewrite all_chars_app, Hall, andb_true_r.
    generalize (4 - String.length (of_nat (i + 1)))%nat. intros k.
    induction k; simpl; [done|]. by rewrite IHk.
  - rewrite zeros_digits, append_length, zeros_length.
    rewrite (proj2 (of_nat_digits (i + 1) _)). f_equal. f_equal. lia.
Qed.

Lemma process_sku_data_convertible rows :
  Forall row_convertible rows → ∃ out, process_sku_data rows = Ok out.
Proof.
  intros (df & Hdf)%process_rows_convertible.
  unfold process_sku_data. rewrite Hdf. by eexists.
Qed.

(** C9. [process_sku_data] overwrites the [SKU] column: in a table of [n]
    rows the row at position [i] (from 0) gets [SKU-] followed by the decimal
    digits of [i + 1], zero-filled to at least four digits, whatever [SKU]
    the row came with; two tables of the same length get the same labels. *)
Theorem sku_relabelled :
  (∀ rows, Forall row_convertible rows →
           ∃ out, process_sku_data rows = Ok out)
  ∧ (∀ rows out,
       process_sku_data rows = Ok out →
       length out = length rows
       ∧ ∀ (i : nat) (r' : sku_row),
           out !! i = Some r' →
           SKU r' = CStr (sku_label i)
           ∧ ∃ ds : string,
               sku_label i = "SKU-" +:+ ds
               ∧ String.length ds = Nat.max 4 (String.length (of_nat (i + 1)))
               ∧ all_chars is_digit ds = true
               ∧ digits 0 0 ds
                 = (Z.of_nat (i + 1), Z.of_nat (String.length ds), EmptyString))
  ∧ (∀ rows1 rows2 out1 out2,
       process_sku_data rows1 = Ok out1 → process_sku_data rows2 = Ok out2 →
       length rows1 = length rows2 → SKU <$> out1 = SKU <$> out2).
Proof.
  assert (Hlabel : ∀ rows out (i : nat) (r' : sku_row),
            process_sku_data rows = Ok out → out !! i = Some r' →
            SKU r' = CStr (sku_label i)).
  { intros rows out i r' Hout Hi.
    by destruct (process_sku_data_lookup _ _ _ _ Hout Hi) as (r & p & _ & _ & ->). }
  split; [apply process_sku_data_convertible|]. split.
  - intros rows out Hout. split; [by apply process_sku_data_length|].
    intros i r' Hi. split; [by eapply Hlabel|]. apply sku_label_digits.
  - intros rows1 rows2 out1 out2 Hout1 Hout2 Hlen.
    apply list_eq. intros i. rewrite !list_lookup_fmap.
    pose proof (process_sku_data_length _ _ Hout1) as Hlen1.
    pose proof (process_sku_data_length _ _ Hout2) as Hlen2.
    destruct (out1 !! i) as [p1|] eqn:H1, (out2 !! i) as [p2|] eqn:H2; simpl.
    + pose proof (Hlabel _ _ _ _ Hout1 H1) as Hp1.
      pose proof (Hlabel _ _ _ _ Hout2 H2) as Hp2. congruence.
    + apply lookup_lt_Some in H1. apply lookup_ge_None_1 in H2. lia.
    + apply lookup_ge_None_1 in H1. apply lookup_lt_Some in H2. lia.
    + done.
Qed.

Lemma sku_relabelled_witness :
  ∃ (out : list sku_row) (r' : sku_row),
    process_sku_data [Samples.negative_cogs_row; Samples.unsold_row] = Ok out
    ∧ out !! 1%nat = Some r'
    ∧ SKU r' = CStr "SKU-0002".
Proof.
  eexists _, _. split; [vm_compute; reflexivity|]. split; [reflexivity|].
  eapply (fun Hout Hi =>
            proj1 (proj2 (proj1 (proj2 sku_relabelled)
                            [Samples.negative_cogs_row; Samples.unsold_row] _ Hout)
                         1%nat _ Hi)).
  - vm_compute. reflexivity.
  - reflexivity.
Defined.

End sku_table.

(** ** Daily figures *)

Section daily.
Import SkuTable Daily MeanSpec.
Local Open Scope Z_scope.

Implicit Types (values : list float) (zs : list (option Z)) (w before : list Z)
  (st : roll_state).

Lemma Z_to_float_0 : Z_to_float 0 = 0%float.
Proof. reflexivity. Qed.

Lemma total_app w1 w2 : total (w1 ++ w2) = total w1 + total w2.
Proof.
  induction w1 as [|z w1 IH]; [done|].
  change (z + total (w1 ++ w2) = z + total w1 + total w2). lia.
Qed.

Lemma total_snoc w (z : Z) : total (w ++ [z]) = total w + z.
Proof. rewrite total_app. change (total [z]) with (z + 0). lia. Qed.

Lemma total_bound w :
  Forall small w → Z.abs (total w) <= Z.of_nat (length w) * (2 ^ 50 - 1).
Proof.
  induction 1 as [|z w Hz _ IH]; [done|].
  change (total (z :: w)) with (z + total w). unfold small in Hz.
  rewrite length_cons, Nat2Z.inj_succ. lia.
Qed.

Lemma total_exact w :
  Forall small w → (length w <= 8)%nat → Z.abs (total w) < 2 ^ 53.
Proof. intros Hw Hlen. pose proof (total_bound w Hw). lia. Qed.

Lemma small_exact (z : Z) : small z → Z.abs z < 2 ^ 53.
Proof. unfold small. lia. Qed.

Lemma negatives_snoc w (z : Z) :
  negatives (w ++ [z]) = if z <? 0 then negatives w + 1 else negatives w.
Proof.
  induction w as [|x w IH]; [done|].
  change (negatives ((x :: w) ++ [z]))
    with (if x <? 0 then negatives (w ++ [z]) + 1 else negatives (w ++ [z])).
  change (negatives (x :: w))
    with (if x <? 0 then negatives w + 1 else negatives w).
  rewrite IH. by destruct (x <? 0), (z <? 0).
Qed.

Lemma negatives_range w : 0 <= negatives w <= Z.of_nat (length w).
Proof.
  induction w as [|x w IH]; [done|].
  change (negatives (x :: w))
    with (if x <? 0 then negatives w + 1 else negatives w).
  rewrite length_cons, Nat2Z.inj_succ. destruct (x <? 0); lia.
Qed.

Lemma negatives_none w : negatives w = 0 → 0 <= total w.
Proof.
  induction w as [|x w IH]; [done|].
  change (negatives (x :: w))
    with (if x <? 0 then negatives w + 1 else negatives w).
  change (total (x :: w)) with (x + total w).
  pose proof (negatives_range w).
  destruct (Z.ltb_spec x 0); lia.
Qed.

Lemma negatives_all w : negatives w = Z.of_nat (length w) → total w <= 0.
Proof.
  induction w as [|x w IH]; [done|].
  change (negatives (x :: w))
    with (if x <? 0 then negatives w + 1 else negatives w).
  change (total (x :: w)) with (x + total w).
  rewrite length_cons, Nat2Z.inj_succ.
  pose proof (negatives_range w).
  destruct (Z.ltb_spec x 0); lia.
Qed.

(** Adding a small integer to an exact window keeps it exact. *)
Lemma add_mean_exact (v0 : float) before w (z : Z) :
  small z → Forall small before → Forall small w → (length w <= 7)%nat →
  add_mean (Z_to_float z) (window_state v0 before w)
  = window_state v0 (z :: before) (w ++ [z]).
Proof.
  intros Hz Hbefore Hw Hlen.
  pose proof (small_exact z Hz) as Hz'.
  pose proof (total_exact w Hw ltac:(lia)) as Hsum.
  assert (Z.abs (total w + z) < 2 ^ 53) as Hsum'.
  { rewrite <- total_snoc.
    apply total_exact; [|rewrite length_app; cbn; lia].
    apply Forall_app. split; [done|]. by constructor. }
  unfold add_mean, window_state.
  cbn [nobs sum_x neg_ct compensation_add compensation_remove
       num_consecutive_same_value prev_value].
  rewrite Z_to_float_eqb, Z.eqb_refl by done.
  rewrite <- Z_to_float_0.
  rewrite (Z_to_float_sub z 0), Z.sub_0_r by (done || by rewrite Z.sub_0_r).
  rewrite (Z_to_float_add (total w) z) by done.
  rewrite (Z_to_float_sub (total w + z) (total w))
    by (done || by replace (total w + z - total w) with z by lia).
  replace (total w + z - total w) with z by lia.
  rewrite (Z_to_float_sub z z), Z.sub_diag by (done || by rewrite Z.sub_diag).
  rewrite signbit_Z_to_float by done.
  rewrite total_snoc, negatives_snoc, length_app.
  f_equal.
  - cbn [length]. lia.
  - destruct before as [|v before']; cbn [run run_from].
    + by destruct (_ =? _)%float.
    + apply Forall_cons in Hbefore as [Hv _].
      rewrite Z_to_float_eqb by (done || by apply small_exact).
      rewrite (Z.eqb_sym v z). destruct (Z.eqb_spec z v) as [->|]; lia.
Qed.

Lemma add_mean_nan st : add_mean nan st = st.
Proof. reflexivity. Qed.

(** Removing the oldest number of an exact window keeps it exact. *)
Lemma remove_mean_exact (v0 : float) before w (z : Z) :
  small z → Forall small w → (length w <= 7)%nat →
  remove_mean (Z_to_float z) (window_state v0 before (z :: w))
  = window_state v0 before w.
Proof.
  intros Hz Hw Hlen.
  pose proof (small_exact z Hz) as Hz'.
  pose proof (total_exact w Hw ltac:(lia)) as Hsum.
  assert (Z.abs (z + total w) < 2 ^ 53) as Hsum'.
  { apply (total_exact (z :: w)); [by constructor|cbn; lia]. }
  unfold remove_mean, window_state.
  cbn [nobs sum_x neg_ct compensation_add compensation_remove
       num_consecutive_same_value prev_value].
  rewrite Z_to_float_eqb, Z.eqb_refl by done.
  rewrite signbit_Z_to_float by done.
  change (total (z :: w)) with (z + total w).
  change (negatives (z :: w))
    with (if z <? 0 then negatives w + 1 else negatives w).
  rewrite length_cons, Nat2Z.inj_succ.
  destruct (Z.eq_dec z 0) as [->|Hne].
  - rewrite Z.add_0_l, Z_to_float_0.
    assert ((- 0 - 0)%float = (- 0)%float) as -> by reflexivity.
    assert (∀ x, Z.abs x < 2 ^ 53 → (Z_to_float x + - 0)%float = Z_to_float x)
      as Hneg0.
    { intros x Hx. apply Prim2SF_inj.
      rewrite FloatAxioms.add_spec, Z_to_float_exact by done.
      by destruct x. }
    rewrite Hneg0 by done.
    rewrite (Z_to_float_sub (total w) (total w)), Z.sub_diag
      by (done || by rewrite Z.sub_diag).
    rewrite Z_to_float_0.
    assert ((0 - - 0)%float = 0%float) as -> by reflexivity.
    cbn [Z.ltb Z.compare]. f_equal. lia.
  - rewrite Z_to_float_opp by done.
    rewrite <- Z_to_float_0.
    rewrite (Z_to_float_sub (- z) 0), Z.sub_0_r
      by (done || lia || rewrite Z.sub_0_r; lia).
    rewrite (Z_to_float_add (z + total w) (- z))
      by (done || lia || by replace (z + total w + - z) with (total w) by lia).
    replace (z + total w + - z) with (total w) by lia.
    rewrite (Z_to_float_sub (total w) (z + total w))
      by (done || replace (total w - (z + total w)) with (- z) by lia; lia).
    replace (total w - (z + total w)) with (- z) by lia.
    rewrite (Z_to_float_sub (- z) (- z)), Z.sub_diag
      by (lia || by rewrite Z.sub_diag).
    f_equal; [lia|]. destruct (z <? 0); lia.
Qed.

Lemma remove_mean_nan st : remove_mean nan st = st.
Proof. reflexivity. Qed.


Lemma run_from_take (v : Z) (l : list Z) (k : nat) :
  Z.of_nat k <= run_from v l → Forall (eq v) (take k l).
Proof.
  revert k. induction l as [|x l IH]; intros k Hk.
  - destruct k; constructor.
  - destruct k as [|k]; [constructor|].
    cbn [run_from] in Hk. destruct (Z.eqb_spec x v) as [->|]; [|lia].
    cbn [take]. constructor; [done|]. apply IH. lia.
Qed.

Lemma total_constant (v : Z) w :
  Forall (eq v) w → total w = Z.of_nat (length w) * v.
Proof.
  induction 1 as [|x w <- _ IH]; [done|].
  change (total (v :: w)) with (v + total w).
  rewrite IH, length_cons, Nat2Z.inj_succ. lia.
Qed.

(** A window whose numbers all belong to the current run of equal values. *)
Lemma run_window before w (rest : list Z) :
  before = rev w ++ rest → w ≠ [] → Z.of_nat (length w) <= run before →
  ∃ v, head before = Some v ∧ Forall (eq v) w.
Proof.
  intros -> Hne Hrun.
  destruct (rev w) as [|v l] eqn:Hrev.
  { apply (f_equal (@rev Z)) in Hrev. rewrite rev_involutive in Hrev. done. }
  exists v. split; [done|].
  assert (length w = S (length l)) as Hlen.
  { by rewrite <- length_rev, Hrev. }
  cbn [app run] in Hrun.
  pose proof (run_from_take v (l ++ rest) (length l) ltac:(lia)) as Hall.
  rewrite take_app_length in Hall.
  rewrite <- (rev_involutive w), Hrev. apply Forall_rev. by constructor.
Qed.

(** The mean that [calc_mean] returns for an exact window. *)
Lemma calc_mean_exact (v0 : float) before w (rest : list Z) :
  before = rev w ++ rest → Forall small w → (length w <= 7)%nat →
  calc_mean 1 (window_state v0 before w) = mean64 w.
Proof.
  intros Hbefore Hw Hlen.
  pose proof (total_exact w Hw ltac:(lia)) as Hsum.
  unfold calc_mean, window_state, mean64.
  cbn [nobs sum_x neg_ct num_consecutive_same_value prev_value].
  destruct w as [|z w'] eqn:Hweq; [reflexivity|]. rewrite <- Hweq in *.
  assert (0 < Z.of_nat (length w) < 2 ^ 53) as Hn by (subst w; cbn [length] in *; lia).
  replace ((1 <=? Z.of_nat (length w)) && (0 <? Z.of_nat (length w)))
    with true by (symmetry; apply andb_true_iff; lia).
  destruct (Z.leb_spec (Z.of_nat (length w)) (run before)) as [Hrun|Hrun].
  - destruct (run_window before w rest Hbefore) as (v & Hv & Hall);
      [by subst w|done|].
    destruct before as [|v' before']; [done|]. injection Hv as ->.
    rewrite (total_constant v w Hall).
    assert (small v) as Hsmall.
    { subst w. apply Forall_cons in Hall as [<- _].
      by apply Forall_cons in Hw as [? _]. }
    rewrite Z_to_float_div_exact;
      [done|done|by apply small_exact|by rewrite <- (total_constant v w)].
  - destruct (Z_to_float_div_sign (total w) (Z.of_nat (length w)) Hsum Hn)
      as [Hnonneg Hnonpos].
    destruct (Z.eqb_spec (negatives w) 0) as [Hnone|_].
    + rewrite Hnonneg by (by apply negatives_none). cbn [andb].
      destruct (Z.eqb_spec (negatives w) (Z.of_nat (length w))) as [Hall|_];
        [|done].
      by rewrite Hnonpos by (by apply negatives_all).
    + cbn [andb].
      destruct (Z.eqb_spec (negatives w) (Z.of_nat (length w))) as [Hall|_];
        [|done].
      by rewrite Hnonpos by (by apply negatives_all).
Qed.


(** Moving the window one position to the right. *)
Lemma window_upto_S {A} (window i : nat) (l : list A) (x : A) :
  (0 < window)%nat → l !! i = Some x →
  window_upto window (S i) l
  = (if (window <=? i)%nat then drop 1 (window_upto window i l)
     else window_upto window i l) ++ [x].
Proof.
  intros Hw Hx. unfold window_upto. rewrite (take_S_r _ _ _ Hx).
  assert (Hlen : length (take i l) = i).
  { apply length_take_le. apply lookup_lt_Some in Hx. lia. }
  destruct (Nat.leb_spec window i) as [Hle|Hlt].
  - rewrite drop_drop. replace (i - window + 1)%nat with (S i - window)%nat by lia.
    rewrite drop_app_le by lia. done.
  - replace (S i - window)%nat with 0%nat by lia.
    replace (i - window)%nat with 0%nat by lia. done.
Qed.

Lemma window_upto_head {A} (window i : nat) (l : list A) :
  (window <= i)%nat → (i <= length l)%nat → (0 < window)%nat →
  ∃ x, l !! (i - window)%nat = Some x
       ∧ window_upto window i l = x :: drop 1 (window_upto window i l).
Proof.
  intros Hle Hlen Hw. unfold window_upto.
  destruct (lookup_lt_is_Some_2 l (i - window)) as [x Hx]; [lia|].
  exists x. split; [done|].
  rewrite drop_drop. replace (i - window + 1)%nat with (S (i - window)) by lia.
  apply drop_S. rewrite lookup_take_lt by lia. done.
Qed.

Lemma window_upto_length {A} (window i : nat) (l : list A) :
  (length (window_upto window i l) <= window)%nat.
Proof. unfold window_upto. rewrite length_drop, length_take. lia. Qed.

Lemma last_seven_window {A} (i : nat) (l : list A) :
  last_seven i l = window_upto 7 (S i) l.
Proof.
  unfold last_seven, window_upto. rewrite take_drop_commute.
  replace (i + 1 - 7 + Nat.min (i + 1) 7)%nat with (S i) by lia.
  by replace (i + 1 - 7)%nat with (S i - 7)%nat by lia.
Qed.

Lemma last_seven_length {A} (i : nat) (l : list A) :
  (i < length l)%nat → length (last_seven i l) = Nat.min (i + 1) 7.
Proof. intros Hi. unfold last_seven. rewrite length_take, length_drop. lia. Qed.

Lemma slice_one values (i : nat) (v : float) :
  values !! i = Some v → slice i (S i) values = [v].
Proof.
  intros Hv. unfold slice. replace (S i - i)%nat with 1%nat by lia.
  by rewrite (drop_S _ _ _ Hv).
Qed.

Lemma slice_none values (a : nat) : slice a a values = [].
Proof. unfold slice. by rewrite Nat.sub_diag. Qed.

(** At position 0 the window is set up; afterwards, for a window of two
    positions or more, it moves by one. *)
Lemma roll_step_start values (window : nat) st (v : float) :
  (1 <= window)%nat → values !! 0%nat = Some v →
  roll_step values window 0 st = add_mean v (setup values 0).
Proof.
  intros Hw Hv. unfold roll_step, window_start, window_end.
  cbn [Nat.eqb orb Nat.add].
  replace (1 - window)%nat with 0%nat by lia.
  by rewrite (slice_one _ _ _ Hv).
Qed.

Lemma roll_step_moving values (window i : nat) st (v : float) :
  (2 <= window)%nat → (0 < i)%nat → values !! i = Some v →
  roll_step values window i st
  = add_mean v
      (if (window <=? i)%nat
       then remove_mean (default nan (values !! (i - window)%nat)) st
       else st).
Proof.
  intros Hw Hi Hv. unfold roll_step, window_start, window_end.
  replace (i =? 0)%nat with false by (symmetry; apply Nat.eqb_neq; lia).
  replace (i - 1 + 1 <=? i + 1 - window)%nat with false
    by (symmetry; apply Nat.leb_gt; lia).
  cbn [orb]. replace (i - 1 + 1)%nat with i by lia.
  replace (i + 1)%nat with (S i) by lia. rewrite (slice_one _ _ _ Hv).
  cbn [foldl]. f_equal.
  destruct (Nat.leb_spec window i) as [Hle|Hlt].
  - destruct (lookup_lt_is_Some_2 values (i - window)) as [x Hx].
    { apply lookup_lt_Some in Hv. lia. }
    replace (S i - window)%nat with (S (i - window)) by lia.
    by rewrite (slice_one _ _ _ Hx), Hx.
  - replace (S i - window)%nat with 0%nat by lia.
    replace (i - window)%nat with 0%nat by lia.
    by rewrite slice_none.
Qed.

Lemma present_snoc {A} (l : list (option A)) (o : option A) :
  present (l ++ [o]) = present l ++ from_option (fun x => [x]) [] o.
Proof. unfold present. rewrite omap_app. by destruct o. Qed.

Lemma present_Some {A} (x : A) (l : list (option A)) :
  present (Some x :: l) = x :: present l.
Proof. reflexivity. Qed.

Lemma present_None {A} (l : list (option A)) : present (None :: l) = present l.
Proof. reflexivity. Qed.

Lemma present_length {A} (l : list (option A)) :
  (length (present l) <= length l)%nat.
Proof.
  induction l as [|[x|] l IH]; [done|..];
    rewrite ?present_Some, ?present_None; cbn [length]; lia.
Qed.

Lemma present_small zs :
  Forall (fun o => ∀ z, o = Some z → small z) zs → Forall small (present zs).
Proof.
  induction 1 as [|[x|] l Hx _ IH]; [constructor|..].
  - rewrite present_Some. constructor; [by apply Hx|done].
  - by rewrite present_None.
Qed.

Section exact_window.
Variables (zs : list (option Z)) (window : nat).
Hypothesis small_zs : Forall (fun o => ∀ z, o = Some z → small z) zs.
Hypothesis window_range : (2 <= window <= 7)%nat.

Let values : list float := cell_float <$> zs.
Let v0 : float := default nan (values !! 0%nat).

(** The state after the positions before [i]. *)
Let state_at (i : nat) : roll_state :=
  window_state v0 (rev (present (take i zs)))
    (present (window_upto window i zs)).

Lemma exact_window_small (i : nat) :
  Forall small (present (window_upto window i zs))
  ∧ Forall small (present (drop 1 (window_upto window i zs)))
  ∧ Forall small (rev (present (take i zs))).
Proof.
  unfold window_upto. split; [|split].
  - by apply present_small, Forall_drop, Forall_take.
  - by apply present_small, Forall_drop, Forall_drop, Forall_take.
  - by apply Forall_rev, present_small, Forall_take.
Qed.

Lemma exact_step (i : nat) (o : option Z) :
  zs !! i = Some o →
  add_mean (cell_float o)
    (if (window <=? i)%nat
     then remove_mean (default nan (values !! (i - window)%nat)) (state_at i)
     else state_at i)
  = state_at (S i).
Proof.
  intros Ho. pose proof (lookup_lt_Some _ _ _ Ho) as Hi.
  destruct (exact_window_small i) as (Hw & Hw' & Hbefore).
  pose proof (window_upto_length window i zs) as Hlen.
  pose proof (present_length (window_upto window i zs)) as Hlen'.
  pose proof (present_length (drop 1 (window_upto window i zs))) as Hlen''.
  rewrite length_drop in Hlen''.
  assert ((if (window <=? i)%nat
           then remove_mean (default nan (values !! (i - window)%nat))
                  (state_at i)
           else state_at i)
          = window_state v0 (rev (present (take i zs)))
              (present (if (window <=? i)%nat
                        then drop 1 (window_upto window i zs)
                        else window_upto window i zs))) as ->.
  { destruct (Nat.leb_spec window i) as [Hle|Hlt]; [|done].
    destruct (window_upto_head window i zs) as (x & Hx & Hhead); [lia..|].
    unfold values. rewrite list_lookup_fmap, Hx. cbn [fmap option_fmap option_map default].
    unfold state_at. rewrite Hhead at 1. destruct x as [z|].
    - rewrite present_Some. apply remove_mean_exact; [|done|lia].
      by apply (Forall_lookup_1 _ _ _ _ small_zs Hx).
    - rewrite present_None. apply remove_mean_nan. }
  unfold state_at.
  rewrite (window_upto_S window i zs o) by (done || lia).
  rewrite (take_S_r _ _ _ Ho), !present_snoc, rev_app_distr.
  destruct o as [z|]; cbn [from_option cell_float].
  - cbn [rev app]. apply add_mean_exact.
    + by apply (Forall_lookup_1 _ _ _ _ small_zs Ho).
    + done.
    + by destruct (window <=? i)%nat.
    + destruct (window <=? i)%nat; lia.
  - cbn [rev app]. rewrite app_nil_r. apply add_mean_nan.
Qed.

Lemma roll_from_exact (minp : Z) (n i : nat) st :
  (i + n <= length zs)%nat → i = 0%nat ∨ st = state_at i →
  roll_from values window minp i n st
  = (fun j => calc_mean minp (state_at (S j))) <$> seq i n.
Proof.
  revert i st. induction n as [|n IH]; intros i st Hlen Hst; [done|].
  destruct (lookup_lt_is_Some_2 zs i) as [o Ho]; [lia|].
  assert (values !! i = Some (cell_float o)) as Hv.
  { unfold values. by rewrite list_lookup_fmap, Ho. }
  assert (roll_step values window i st = state_at (S i)) as Hstep.
  { rewrite <- (exact_step i o Ho). destruct (Nat.eq_dec i 0%nat) as [->|Hne].
    - rewrite (roll_step_start values window st _ ltac:(lia) Hv).
      by replace (window <=? 0)%nat with false
        by (symmetry; apply Nat.leb_gt; lia).
    - destruct Hst as [?| ->]; [done|].
      apply roll_step_moving; (done || lia). }
  cbn [roll_from seq fmap list_fmap]. rewrite Hstep. f_equal.
  apply IH; [lia|by right].
Qed.

Lemma roll_mean_exact (i : nat) :
  window = 7%nat → (i < length zs)%nat →
  roll_mean values window 1 !! i
  = Some (mean64 (present (last_seven i zs))).
Proof.
  intros Hseven Hi. unfold roll_mean.
  rewrite (roll_from_exact 1 (length values) 0 _)
    by (unfold values; rewrite ?length_fmap; lia || by left).
  rewrite list_lookup_fmap, lookup_seq_lt
    by (unfold values; rewrite length_fmap; lia).
  cbn [fmap option_fmap option_map Nat.add]. f_equal.
  rewrite last_seven_window, <- Hseven. unfold state_at.
  apply (calc_mean_exact _ _ _
           (rev (present (take (S i - window) (take (S i) zs))))).
  - rewrite <- rev_app_distr. unfold present. rewrite <- omap_app.
    unfold window_upto. by rewrite take_drop.
  - apply exact_window_small.
  - pose proof (window_upto_length window (S i) zs).
    pose proof (present_length (window_upto window (S i) zs)). lia.
Qed.

End exact_window.


Lemma float_nan_eq (x : float) : PrimFloat.is_nan x = true → x = nan.
Proof.
  intros Hx. apply Prim2SF_inj. change (Prim2SF nan) with S754_nan.
  unfold PrimFloat.is_nan in Hx. rewrite FloatAxioms.eqb_spec in Hx.
  unfold SFeqb, SFcompare in Hx.
  destruct (Prim2SF x) as [s|s| |s m e]; try done.
  - by destruct s.
  - rewrite Z.compare_refl, Pos.compare_cont_refl in Hx. by destruct s.
Qed.

(** What [_prep_values] hands to [roll_mean] for a column of small
    integers. *)
Lemma prep_values_integral (column : list num) zs :
  integral column zs →
  prep_values column = cell_float <$> zs
  ∧ Forall (fun o => ∀ z, o = Some z → small z) zs.
Proof.
  unfold integral, prep_values.
  induction 1 as [|v o column zs Hv _ [IH1 IH2]]; [by split; constructor|].
  cbn [fmap list_fmap]. fold (prep_values column) in IH1. split.
  - f_equal; [|exact IH1]. destruct o as [z|]; cbn [cell_float from_option].
    + destruct Hv as [Hz ->].
      by rewrite Z_to_float_not_infinity by (by apply small_exact).
    + unfold missing in Hv.
      destruct (PrimFloat.is_infinity (num_to_float v)) eqn:Hinf; [done|].
      rewrite orb_false_r in Hv. by apply float_nan_eq.
  - constructor; [|done]. intros z ->. by destruct Hv.
Qed.

Lemma rolling_mean_exact (column : list num) zs (i : nat) :
  integral column zs → (i < length column)%nat →
  rolling_mean 7 1 column !! i = Some (mean64 (present (last_seven i zs))).
Proof.
  intros Hcol Hi. pose proof (Forall2_length _ _ _ Hcol) as Hlen.
  destruct (prep_values_integral column zs Hcol) as [Hprep Hsmall].
  unfold rolling_mean. rewrite Hprep.
  apply roll_mean_exact; (done || lia).
Qed.

End daily.

Section daily_claims.
Import SkuTable Daily MeanSpec.

Lemma date_le_total : Total date_le.
Proof. intros a b. unfold date_le. lia. Qed.

Lemma date_le_trans : Transitive date_le.
Proof. intros a b c. unfold date_le. lia. Qed.

(** The records of the output are the sorted input. *)
Lemma process_daily_data_days (records : list daily_raw) :
  day <$> process_daily_data records = sort_values records.
Proof.
  unfold process_daily_data. apply list_eq. intros i.
  rewrite list_lookup_fmap, list_lookup_imap.
  by destruct (sort_values records !! i).
Qed.

(** Records of pairwise distinct dates have one ascending order. *)
Lemma sorted_by_date_unique (records df : list daily_raw) :
  NoDup (Date <$> records) → df ≡ₚ records → Sorted date_le df →
  sort_values records = df.
Proof.
  intros Hdates Hperm Hsorted.
  pose proof date_le_trans as Htrans. pose proof date_le_total as Htotal.
  assert (sort_values records ≡ₚ df) as Hperm'.
  { unfold sort_values. by rewrite merge_sort_Permutation. }
  apply (Sorted_unique_strong date_le); [|by apply Sorted_merge_sort|done..].
  intros x1 x2 Hx1 Hx2 H12 H21.
  unfold sort_values in Hx1. rewrite merge_sort_Permutation in Hx1.
  rewrite Hperm in Hx2. unfold date_le in *.
  assert (Date x1 = Date x2) as Hdate by lia.
  clear H12 H21 Hperm Hperm' Hsorted.
  induction records as [|r records IH]; [by apply elem_of_nil in Hx1|].
  apply NoDup_cons in Hdates as [Hr Hdates].
  apply elem_of_cons in Hx1 as [->|Hx1], Hx2 as [->|Hx2]; [done|..].
  - destruct Hr. rewrite Hdate. by apply list_elem_of_fmap_2.
  - destruct Hr. rewrite <- Hdate. by apply list_elem_of_fmap_2.
  - by apply IH.
Qed.

Lemma moving_average_exact (column : list num) (zs : list (option Z))
    (i : nat) :
  integral column zs → (i < length column)%nat →
  length (last_seven i zs) = Nat.min (i + 1) 7
  ∧ default nan (rolling_mean 7 1 column !! i)
    = mean64 (present (last_seven i zs))
  ∧ Binary64.value (Z_to_float (total (present (last_seven i zs))))
    = Some (Q2Qc (inject_Z (total (present (last_seven i zs))))).
Proof.
  intros Hcol Hi. pose proof (Forall2_length _ _ _ Hcol) as Hlen.
  pose proof (last_seven_length i zs ltac:(lia)) as Hseven.
  split; [done|]. split.
  - by rewrite (rolling_mean_exact column zs i Hcol Hi).
  - apply value_Z_to_float, total_exact.
    + apply present_small. unfold last_seven.
      apply Forall_take, Forall_drop.
      by destruct (prep_values_integral column zs Hcol).
    + pose proof (present_length (last_seven i zs)). lia.
Qed.




End daily_claims.

(** * Further properties *)

(** ** The health score: errors, defaults and steps of five *)

Section health_score_more.
Import HealthScore.
Local Open Scope Z_scope.

Implicit Types (row : gmap string cell) (score : Z).

Lemma as_num_raises (v : cell) (e : pyerr) :
  as_num v = Raise e → e = TypeError ∧ ¬ numeric v.
Proof.
  destruct v as [|b|z|f|s]; simpl; intros H; try discriminate H;
    injection H as <-; (split; [reflexivity|intros []]).
Qed.

Lemma profit_block_raises row score (e : pyerr) :
  as_num (row_get row "Net_Profit" (CInt 0)) = Raise e →
  profit_block row score = Raise e.
Proof. intros H. unfold profit_block, py_gt. by rewrite H. Qed.

Lemma velocity_block_raises row score (e : pyerr) :
  as_num (row_get row "Units_Sold" (CInt 0)) = Raise e →
  velocity_block row score = Raise e.
Proof. intros H. unfold velocity_block, py_gt. by rewrite H. Qed.

Lemma roi_block_raises row score (e : pyerr) :
  as_num (row_get row "ROI_Pct" (CInt 0)) = Raise e →
  roi_block row score = Raise e.
Proof. intros H. unfold roi_block, py_gt. by rewrite H. Qed.

Lemma margin_block_raises row score (e : pyerr) :
  as_num (row_get row "Margin_Pct" (CInt 0)) = Raise e →
  margin_block row score = Raise e.
Proof. intros H. unfold margin_block, py_gt. by rewrite H. Qed.

(** A row with a field that is no number makes the function raise
    [TypeError]. *)
Lemma calculate_health_score_not_numeric row :
  ¬ numeric_inputs row → calculate_health_score row = Raise TypeError.
Proof.
  intros Hnot. unfold calculate_health_score, score_before_clamp.
  destruct (as_num (row_get row "Net_Profit" (CInt 0))) as [p|e] eqn:Hp;
    [|destruct (as_num_raises _ _ Hp) as [-> _];
      by rewrite (profit_block_raises _ _ _ Hp)].
  rewrite (profit_block_adjust _ _ _ Hp). cbn [mbind result_bind].
  destruct (as_num (row_get row "Units_Sold" (CInt 0))) as [u|e] eqn:Hu;
    [|destruct (as_num_raises _ _ Hu) as [-> _];
      by rewrite (velocity_block_raises _ _ _ Hu)].
  rewrite (velocity_block_adjust _ _ _ Hu). cbn [mbind result_bind].
  destruct (as_num (row_get row "ROI_Pct" (CInt 0))) as [r|e] eqn:Hr;
    [|destruct (as_num_raises _ _ Hr) as [-> _];
      by rewrite (roi_block_raises _ _ _ Hr)].
  rewrite (roi_block_adjust _ _ _ Hr). cbn [mbind result_bind].
  destruct (as_num (row_get row "Margin_Pct" (CInt 0))) as [m|e] eqn:Hm;
    [|destruct (as_num_raises _ _ Hm) as [-> _];
      by rewrite (margin_block_raises _ _ _ Hm)].
  destruct Hnot. unfold numeric_inputs, score_columns.
  repeat (apply Forall_cons; split); [..|constructor].
  - by destruct (row_get row "Net_Profit" (CInt 0)).
  - by destruct (row_get row "Units_Sold" (CInt 0)).
  - by destruct (row_get row "ROI_Pct" (CInt 0)).
  - by destruct (row_get row "Margin_Pct" (CInt 0)).
Qed.

(** X1. [calculate_health_score] returns a score exactly when the four
    fields it reads are numbers (or absent); otherwise, a field holding text
    or [None], it raises [TypeError], and it raises nothing else. *)
Theorem health_score_raises_iff_not_numeric (row : gmap string cell) :
  ((∃ s : Z, calculate_health_score row = Ok s) ↔ numeric_inputs row)
  ∧ (calculate_health_score row = Raise TypeError ↔ ¬ numeric_inputs row)
  ∧ (∀ e : pyerr, calculate_health_score row = Raise e → e = TypeError).
Proof.
  assert (Hok : numeric_inputs row → ∃ s : Z, calculate_health_score row = Ok s).
  { intros (s & Hs & _)%score_before_clamp_range.
    unfold calculate_health_score. rewrite Hs. by eexists. }
  assert (Hdec : numeric_inputs row ∨ ¬ numeric_inputs row).
  { unfold numeric_inputs. destruct (decide (Forall (fun key =>
      match row_get row key (CInt 0) with
      | CBool _ | CInt _ | CFloat _ => true | _ => false end = true) score_columns))
      as [H|H]; [left|right].
    - eapply Forall_impl; [exact H|]. intros key. simpl. by destruct (row_get row key _).
    - intros H'. apply H. eapply Forall_impl; [exact H'|]. intros key. simpl.
      by destruct (row_get row key _). }
  split; [|split].
  - split; [|done]. intros [s Hs]. destruct Hdec as [|Hnot]; [done|].
    rewrite (calculate_health_score_not_numeric _ Hnot) in Hs. done.
  - split; [|apply calculate_health_score_not_numeric].
    intros Hraise Hnum. destruct (Hok Hnum) as [s Hs]. congruence.
  - intros e He. destruct Hdec as [Hnum|Hnot].
    + destruct (Hok Hnum) as [s Hs]. congruence.
    + rewrite (calculate_health_score_not_numeric _ Hnot) in He. congruence.
Qed.

(** The function sees a row through the values of its four [row.get]
    calls. *)
Lemma calculate_health_score_get_ext row1 row2 :
  (∀ key, key ∈ score_columns →
          row_get row1 key (CInt 0) = row_get row2 key (CInt 0)) →
  calculate_health_score row1 = calculate_health_score row2.
Proof.
  intros H. unfold calculate_health_score, score_before_clamp, profit_block,
    velocity_block, roi_block, margin_block.
  rewrite !(H "Net_Profit"%string), !(H "Units_Sold"%string),
    !(H "ROI_Pct"%string), !(H "Margin_Pct"%string);
    [done|apply (bool_decide_unpack _); vm_compute; exact I..].
Qed.

(** X2. A column that the row lacks counts as the integer 0: giving the row
    that column with value 0 leaves the score (or the error) as it was. *)
Theorem health_score_missing_is_zero (row : gmap string cell) (key : string) :
  row !! key = None →
  calculate_health_score (<[key := CInt 0]> row) = calculate_health_score row.
Proof.
  intros Hnone. apply calculate_health_score_get_ext. intros key' _.
  unfold row_get. destruct (decide (key = key')) as [<-|Hne].
  - by rewrite lookup_insert_eq, Hnone.
  - by rewrite lookup_insert_ne.
Qed.

Lemma health_score_missing_is_zero_witness :
  calculate_health_score (<["Units_Sold" := CInt 0]> ∅) = calculate_health_score ∅
  ∧ calculate_health_score ∅ = Ok 35.
Proof.
  split; [|reflexivity].
  apply (health_score_missing_is_zero ∅ "Units_Sold"). reflexivity.
Defined.

Lemma adjustments_multiples_of_5 (p u r m : num) :
  (5 | ScoreSpec.profit_adjustment p) ∧ (5 | ScoreSpec.velocity_adjustment u)
  ∧ (5 | ScoreSpec.roi_adjustment r) ∧ (5 | ScoreSpec.margin_adjustment m).
Proof.
  unfold ScoreSpec.profit_adjustment, ScoreSpec.velocity_adjustment,
    ScoreSpec.roi_adjustment, ScoreSpec.margin_adjustment. simpl.
  repeat split.
  - repeat (case (num_gt p _); simpl;
            [apply (Z.mod_divide _ 5); [discriminate|reflexivity]|]).
    case (num_lt p 0); apply (Z.mod_divide _ 5); (discriminate || reflexivity).
  - repeat (case (num_gt u _); simpl;
            [apply (Z.mod_divide _ 5); [discriminate|reflexivity]|]).
    case (num_eq u 0); apply (Z.mod_divide _ 5); (discriminate || reflexivity).
  - repeat (case (num_gt r _); simpl;
            [apply (Z.mod_divide _ 5); [discriminate|reflexivity]|]).
    case (num_lt r 0); apply (Z.mod_divide _ 5); (discriminate || reflexivity).
  - repeat (case (num_gt m _); simpl;
            [apply (Z.mod_divide _ 5); [discriminate|reflexivity]|]).
    case (num_lt m 5); apply (Z.mod_divide _ 5); (discriminate || reflexivity).
Qed.

(** X3. On numeric inputs the score is a multiple of 5. *)
Theorem health_score_multiple_of_5 (row : gmap string cell) :
  numeric_inputs row →
  ∃ s : Z, calculate_health_score row = Ok s ∧ (5 | s).
Proof.
  intros Hnum.
  destruct (numeric_inputs_nums _ Hnum) as (p & u & r & m & Hp & Hu & Hr & Hm).
  destruct (score_before_clamp_range _ Hnum) as (s & Hs & Hrange).
  exists s. split.
  - unfold calculate_health_score. rewrite Hs. simpl. f_equal. lia.
  - rewrite (score_before_clamp_sum _ _ _ _ _ Hp Hu Hr Hm) in Hs.
    injection Hs as <-.
    destruct (adjustments_multiples_of_5 p u r m) as (H1 & H2 & H3 & H4).
    repeat apply Z.divide_add_r; try done. by exists 10.
Qed.

Lemma health_score_multiple_of_5_witness :
  ∃ s : Z, calculate_health_score Samples.worst_row = Ok s ∧ (5 | s).
Proof.
  apply (health_score_multiple_of_5 Samples.worst_row).
  unfold numeric_inputs, score_columns.
  repeat (apply Forall_cons; split; [vm_compute; exact I|]); constructor.
Defined.

End health_score_more.

(** ** The tier: errors, [nan] and order *)

Section tier_more.
Import Tier.

Lemma float_is_nan (f : float) : PrimFloat.is_nan f = true → Prim2SF f = S754_nan.
Proof.
  unfold PrimFloat.is_nan. rewrite FloatAxioms.eqb_spec. unfold SFeqb.
  destruct (Prim2SF f) as [s|s| |s m e]; simpl; try done.
  - by destruct s.
  - rewrite Z.compare_refl, Pos.compare_cont_refl. by destruct s.
Qed.

(** No number is below or equal to [nan]. *)
Lemma float_nan_not_ge (c f : float) :
  PrimFloat.is_nan f = true → PrimFloat.leb c f = false.
Proof.
  intros Hnan. rewrite FloatAxioms.leb_spec, (float_is_nan _ Hnan).
  unfold SFleb. by destruct (Prim2SF c).
Qed.

(** X4. [assign_performance_tier] returns one of the four tiers for every
    number, [Weak] for [nan], and raises [TypeError] for text and for
    [None]. *)
Theorem tier_total_on_numbers :
  (∀ v : cell, numeric v →
     ∃ t : string, assign_performance_tier v = Ok t ∧ t ∈ Summary.tier_order)
  ∧ (∀ v : cell, ¬ numeric v → assign_performance_tier v = Raise TypeError)
  ∧ (∀ f : float, PrimFloat.is_nan f = true →
       assign_performance_tier (CFloat f) = Ok "Weak"%string).
Proof.
  split; [|split].
  - intros v (x & Hx)%as_num_numeric.
    unfold assign_performance_tier, py_ge. rewrite Hx. cbn [mbind result_bind].
    unfold Summary.tier_order.
    repeat (destruct (num_ge x _);
            [eexists; split; [reflexivity|apply (bool_decide_unpack _); vm_compute; exact I]|]).
    eexists; split; [reflexivity|apply (bool_decide_unpack _); vm_compute; exact I].
  - intros v Hv. destruct v; simpl in Hv; try (by destruct Hv); reflexivity.
  - intros f Hnan. unfold assign_performance_tier, py_ge.
    cbn [as_num mbind result_bind num_ge].
    by rewrite !(float_nan_not_ge _ _ Hnan).
Qed.

Lemma tier_total_on_numbers_witness :
  ∃ t : string,
    assign_performance_tier (CFloat 62.5%float) = Ok t ∧ t ∈ Summary.tier_order.
Proof. apply (proj1 tier_total_on_numbers (CFloat 62.5%float)). exact I. Defined.

(** X5. A higher integer score never gets a lower tier. *)
Theorem tier_monotone (s1 s2 : Z) :
  (s1 <= s2)%Z →
  ∃ t1 t2 : string,
    assign_performance_tier (CInt s1) = Ok t1
    ∧ assign_performance_tier (CInt s2) = Ok t2
    ∧ (TierSpec.tier_rank t1 <= TierSpec.tier_rank t2)%nat.
Proof.
  intros Hle. unfold assign_performance_tier, py_ge.
  cbn [as_num mbind result_bind num_ge].
  destruct (Z.leb_spec 80 s1), (Z.leb_spec 60 s1), (Z.leb_spec 45 s1),
    (Z.leb_spec 80 s2), (Z.leb_spec 60 s2), (Z.leb_spec 45 s2);
    try lia; (eexists _, _; split; [reflexivity|split; [reflexivity|]]);
    vm_compute; lia.
Qed.

Lemma tier_monotone_witness :
  ∃ t1 t2 : string,
    assign_performance_tier (CInt 45) = Ok t1
    ∧ assign_performance_tier (CInt 79) = Ok t2
    ∧ (TierSpec.tier_rank t1 <= TierSpec.tier_rank t2)%nat.
Proof. apply (tier_monotone 45 79). lia. Defined.

End tier_more.

(** ** The SKU table: scores, tiers, per-unit columns and labels *)

Section sku_table_more.
Import Str Cleaner HealthScore Tier SkuTable.

Implicit Types (rows : list raw_row) (out : list sku_row) (p : sku_row).

Lemma process_row_rest (r : raw_row) p :
  process_row r = Ok p →
  other p = in_other r
  ∧ Avg_Sale_Price p = avg_sale_price (Revenue p) (Units_Sold p)
  ∧ Profit_Per_Unit p = profit_per_unit (Net_Profit p) (Units_Sold p)
  ∧ calculate_health_score (as_series p) = Ok (Health_Score p)
  ∧ assign_performance_tier (CInt (Health_Score p)) = Ok (Performance_Tier p).
Proof.
  unfold process_row.
  destruct (clean_european_number (in_Revenue r)) as [revenue|]; [|done].
  destruct (clean_european_number (in_COGS r)) as [cogs|]; [|done].
  destruct (clean_european_number (in_Amazon_Fees r)) as [fees|]; [|done].
  destruct (clean_european_number (in_Net_Profit r)) as [net_profit|]; [|done].
  cbn [mbind result_bind].
  destruct (calculate_health_score _) as [score|] eqn:Hscore; [|done].
  cbn [mbind result_bind].
  destruct (assign_performance_tier _) as [tier|] eqn:Htier; [|done].
  cbn [mbind result_bind]. intros [= <-].
  cbn [other Avg_Sale_Price Profit_Per_Unit Revenue Units_Sold Net_Profit
       Health_Score Performance_Tier].
  repeat split; [exact Hscore|exact Htier].
Qed.

(** The new label does not enter the score. *)
Lemma set_SKU_score (label : string) p :
  calculate_health_score (as_series (set_SKU label p))
  = calculate_health_score (as_series p).
Proof.
  apply calculate_health_score_ext. intros key Hkey.
  unfold as_series. cbn [SKU Revenue COGS Amazon_Fees Net_Profit Units_Sold
    Refunds Margin_Pct ROI_Pct Refund_Rate_Pct Avg_Sale_Price Profit_Per_Unit
    other set_SKU].
  assert (key ≠ "SKU"%string) as Hne.
  { intros ->. revert Hkey.
    apply (bool_decide_unpack (("SKU" : string) ∉ score_columns)).
    vm_compute. exact I. }
  by rewrite !(lookup_insert_ne _ "SKU"%string).
Qed.

Lemma tier_of_int (s : Z) (t : string) :
  assign_performance_tier (CInt s) = Ok t → t ∈ Summary.tier_order.
Proof.
  unfold assign_performance_tier, py_ge. cbn [as_num mbind result_bind].
  unfold Summary.tier_order.
  repeat (destruct (num_ge _ _);
          [intros [= <-]; apply (bool_decide_unpack _); vm_compute; exact I|]).
  intros [= <-]. apply (bool_decide_unpack _). vm_compute. exact I.
Qed.

(** X6. In every row written out, [Health_Score] is the health score of that
    very row, lies between 10 and 100 and is a multiple of 5, and
    [Performance_Tier] is the tier of that score, one of the four tiers. *)
Theorem processed_row_score_and_tier rows out (i : nat) (r' : sku_row) :
  process_sku_data rows = Ok out → out !! i = Some r' →
  calculate_health_score (as_series r') = Ok (Health_Score r')
  ∧ (10 <= Health_Score r' <= 100)%Z
  ∧ (5 | Health_Score r')%Z
  ∧ assign_performance_tier (CInt (Health_Score r')) = Ok (Performance_Tier r')
  ∧ Performance_Tier r' ∈ Summary.tier_order.
Proof.
  intros Hout Hi.
  destruct (process_sku_data_lookup _ _ _ _ Hout Hi) as (r & p & _ & Hp & ->).
  destruct (process_row_rest _ _ Hp) as (_ & _ & _ & Hscore & Htier).
  rewrite set_SKU_score.
  change (Health_Score (set_SKU (sku_label i) p)) with (Health_Score p).
  change (Performance_Tier (set_SKU (sku_label i) p)) with (Performance_Tier p).
  pose proof (as_series_numeric p) as Hnum.
  destruct (score_before_clamp_range _ Hnum) as (s & Hs & Hrange).
  destruct (numeric_inputs_nums _ Hnum) as (a & b & c & d & Ha & Hb & Hc & Hd).
  assert (Hs' : Health_Score p = s).
  { unfold calculate_health_score in Hscore. rewrite Hs in Hscore.
    cbn [mbind result_bind] in Hscore. injection Hscore as <-. lia. }
  split; [done|]. split; [lia|]. split; [|split; [done|by eapply tier_of_int]].
  rewrite Hs'. rewrite (score_before_clamp_sum _ _ _ _ _ Ha Hb Hc Hd) in Hs.
  injection Hs as <-.
  destruct (adjustments_multiples_of_5 a b c d) as (H1 & H2 & H3 & H4).
  repeat apply Z.divide_add_r; try done. by exists 10%Z.
Qed.

Lemma processed_row_score_and_tier_witness :
  ∃ (out : list sku_row) (r' : sku_row),
    process_sku_data [Samples.negative_cogs_row; Samples.unsold_row] = Ok out
    ∧ out !! 1%nat = Some r'
    ∧ calculate_health_score (as_series r') = Ok (Health_Score r')
    ∧ (10 <= Health_Score r' <= 100)%Z
    ∧ (5 | Health_Score r')%Z
    ∧ assign_performance_tier (CInt (Health_Score r')) = Ok (Performance_Tier r')
    ∧ Performance_Tier r' ∈ Summary.tier_order.
Proof.
  eexists _, _. split; [vm_compute; reflexivity|]. split; [reflexivity|].
  eapply (processed_row_score_and_tier
            [Samples.negative_cogs_row; Samples.unsold_row] _ 1%nat).
  - vm_compute. reflexivity.
  - reflexivity.
Defined.

Lemma per_unit_of_row (r : raw_row) p :
  process_row r = Ok p →
  Avg_Sale_Price p = avg_sale_price (Revenue p) (Units_Sold p)
  ∧ Profit_Per_Unit p = profit_per_unit (Net_Profit p) (Units_Sold p).
Proof. intros (_ & H1 & H2 & _)%process_row_rest. by split. Qed.

(** X7. In every row written out, [Avg_Sale_Price] and [Profit_Per_Unit] are
    0 when [Units_Sold] is negative or zero, and are [Revenue / Units_Sold]
    and [Net_Profit / Units_Sold] when [Units_Sold] is positive. *)
Theorem per_unit_metrics_guarded rows out (i : nat) (r' : sku_row) :
  process_sku_data rows = Ok out → out !! i = Some r' →
  (num_lt (Units_Sold r') 0 = true ∨ num_eq (Units_Sold r') 0 = true →
   Avg_Sale_Price r' = 0%float ∧ Profit_Per_Unit r' = 0%float)
  ∧ (num_gt (Units_Sold r') 0 = true →
     Avg_Sale_Price r' = (Revenue r' / num_to_float (Units_Sold r'))%float
     ∧ Profit_Per_Unit r' = (Net_Profit r' / num_to_float (Units_Sold r'))%float).
Proof.
  intros Hout Hi.
  destruct (process_sku_data_lookup _ _ _ _ Hout Hi) as (r & p & _ & Hp & ->).
  destruct (per_unit_of_row _ _ Hp) as (Havg & Hppu).
  change (Avg_Sale_Price (set_SKU (sku_label i) p)) with (Avg_Sale_Price p).
  change (Profit_Per_Unit (set_SKU (sku_label i) p)) with (Profit_Per_Unit p).
  change (Units_Sold (set_SKU (sku_label i) p)) with (Units_Sold p).
  change (Revenue (set_SKU (sku_label i) p)) with (Revenue p).
  change (Net_Profit (set_SKU (sku_label i) p)) with (Net_Profit p).
  rewrite Havg, Hppu. unfold avg_sale_price, profit_per_unit, np_where.
  split.
  - by intros ->%num_nonpos_not_pos.
  - by intros ->.
Qed.

Lemma per_unit_metrics_guarded_witness :
  ∃ (out : list sku_row) (r' : sku_row),
    process_sku_data [Samples.negative_cogs_row; Samples.unsold_row] = Ok out
    ∧ out !! 0%nat = Some r'
    ∧ num_gt (Units_Sold r') 0 = true
    ∧ Avg_Sale_Price r' = (Revenue r' / num_to_float (Units_Sold r'))%float
    ∧ Profit_Per_Unit r' = (Net_Profit r' / num_to_float (Units_Sold r'))%float.
Proof.
  eexists _, _. split; [vm_compute; reflexivity|]. split; [reflexivity|].
  split; [reflexivity|].
  eapply (fun Hout Hi =>
            proj2 (per_unit_metrics_guarded
                     [Samples.negative_cogs_row; Samples.unsold_row]
                     _ 0%nat _ Hout Hi)).
  - vm_compute. reflexivity.
  - reflexivity.
  - reflexivity.
Defined.

(** X8. The table keeps its rows and their order: the row written at
    position [i] holds the cleaned money columns of the row read at position
    [i], and that row's [Units_Sold], [Refunds] and further columns
    unchanged; every row read has its row written. *)
Theorem process_sku_data_rowwise rows out (i : nat) :
  process_sku_data rows = Ok out →
  (∀ r' : sku_row, out !! i = Some r' →
     ∃ r : raw_row,
       rows !! i = Some r
       ∧ clean_european_number (in_Revenue r) = Ok (Revenue r')
       ∧ clean_european_number (in_COGS r) = Ok (COGS r')
       ∧ clean_european_number (in_Amazon_Fees r) = Ok (Amazon_Fees r')
       ∧ clean_european_number (in_Net_Profit r) = Ok (Net_Profit r')
       ∧ Units_Sold r' = in_Units_Sold r
       ∧ Refunds r' = in_Refunds r
       ∧ other r' = in_other r)
  ∧ (∀ r : raw_row, rows !! i = Some r → ∃ r' : sku_row, out !! i = Some r').
Proof.
  intros Hout. split.
  - intros r' Hi.
    destruct (process_sku_data_lookup _ _ _ _ Hout Hi) as (r & p & Hr & Hp & ->).
    destruct (process_row_Ok _ _ Hp) as (H1 & H2 & H3 & H4 & H5 & H6 & _).
    destruct (process_row_rest _ _ Hp) as (H7 & _).
    exists r. by repeat split.
  - intros r Hr. apply lookup_lt_is_Some_2.
    rewrite (process_sku_data_length _ _ Hout). by apply lookup_lt_Some in Hr.
Qed.

Lemma process_sku_data_rowwise_witness :
  ∃ out : list sku_row,
    process_sku_data [Samples.negative_cogs_row; Samples.unsold_row] = Ok out
    ∧ ∃ r' : sku_row, out !! 1%nat = Some r'.
Proof.
  eexists. split; [vm_compute; reflexivity|].
  eapply (fun Hout =>
            proj2 (process_sku_data_rowwise
                     [Samples.negative_cogs_row; Samples.unsold_row] _ 1%nat Hout)
                  Samples.unsold_row eq_refl).
  vm_compute. reflexivity.
Defined.

Lemma clean_european_number_Ok_convertible (v : cell) (f : float) :
  clean_european_number v = Ok f → convertible v.
Proof.
  intros Hok z ->.
  destruct (Z.lt_ge_cases (Z.abs z) (2 ^ 1024 - 2 ^ 970)) as [Hlt|Hge]; [done|].
  rewrite (clean_european_number_int_overflow _ Hge) in Hok. discriminate Hok.
Qed.

Lemma process_rows_Ok_convertible rows out :
  process_rows rows = Ok out → Forall row_convertible rows.
Proof.
  intros Hall%process_rows_Ok.
  induction Hall as [|r p rows out Hp _ IH]; constructor; [|done].
  destruct (process_row_Ok _ _ Hp) as (H1 & H2 & H3 & H4 & _).
  unfold row_convertible. eauto 10 using clean_european_number_Ok_convertible.
Qed.

Lemma sku_label_inj (i j : nat) : sku_label i = sku_label j → i = j.
Proof.
  destruct (sku_label_digits i) as (di & Hi & _ & _ & Hvi).
  destruct (sku_label_digits j) as (dj & Hj & _ & _ & Hvj).
  rewrite Hi, Hj. intros Heq.
  assert (di = dj) as -> by (by injection Heq).
  rewrite Hvi in Hvj. apply (f_equal (fun t => t.1.1)) in Hvj.
  cbn [fst] in Hvj. lia.
Qed.

(** X10. The labels written to the [SKU] column are pairwise distinct. *)
Theorem sku_labels_distinct rows out :
  process_sku_data rows = Ok out → NoDup (SKU <$> out).
Proof.
  intros Hout. apply NoDup_alt. intros i j x.
  rewrite !list_lookup_fmap.
  intros (ri & Hi & ->)%fmap_Some (rj & Hj & Heq)%fmap_Some.
  destruct (process_sku_data_lookup _ _ _ _ Hout Hi) as (? & pi & _ & _ & ->).
  destruct (process_sku_data_lookup _ _ _ _ Hout Hj) as (? & pj & _ & _ & ->).
  cbn [SKU set_SKU] in Heq. apply sku_label_inj. congruence.
Qed.

Lemma sku_labels_distinct_witness :
  ∃ out : list sku_row,
    process_sku_data [Samples.unsold_row; Samples.unsold_row] = Ok out
    ∧ NoDup (SKU <$> out).
Proof.
  eexists. split; [vm_compute; reflexivity|].
  eapply (sku_labels_distinct [Samples.unsold_row; Samples.unsold_row]).
  vm_compute. reflexivity.
Defined.

(** The count only adds up; the number read and the rest do not depend on
    it. *)
Lemma digits_count (acc count : Z) (s : string) :
  digits acc count s
  = ((digits acc 0 s).1.1, (count + (digits acc 0 s).1.2)%Z, (digits acc 0 s).2).
Proof.
  revert acc count. induction s as [|c s IH]; intros acc count.
  - cbn. f_equal. f_equal. lia.
  - rewrite !digits_cons. destruct (is_digit c).
    + rewrite (IH _ (count + 1)%Z), (IH _ (0 + 1)%Z). cbn [fst snd].
      f_equal. f_equal. lia.
    + cbn. f_equal. f_equal. lia.
Qed.

(** A run of [k] digits writes a number below [10^k]. *)
Lemma digits_below (s : string) (acc : Z) :
  all_chars is_digit s = true → (0 <= acc)%Z →
  ((digits acc 0 s).1.1 < (acc + 1) * 10 ^ Z.of_nat (String.length s))%Z.
Proof.
  revert acc. induction s as [|c s IH]; intros acc Hs Hacc.
  - cbn. lia.
  - rewrite all_chars_cons, andb_true_iff in Hs. destruct Hs as [Hc Hs].
    rewrite digits_cons, Hc, digits_count. cbn [fst].
    assert (0 <= digit_value c <= 9)%Z as Hd.
    { revert Hc. unfold is_digit, digit_value.
      rewrite andb_true_iff, !N.leb_le. lia. }
    specialize (IH (10 * acc + digit_value c)%Z Hs ltac:(lia)).
    change (String.length (String c s)) with (S (String.length s)).
    rewrite Nat2Z.inj_succ, Z.pow_succ_r by lia. nia.
Qed.

Lemma of_nat_short (n : nat) :
  (n < 10 ^ 4)%nat → (String.length (of_nat n) <= 4)%nat.
Proof.
  intros Hn.
  assert (Hall : forallb (fun n => String.length (of_nat n) <=? 4)%nat
                   (seq 0 (10 ^ 4)) = true) by (vm_compute; reflexivity).
  rewrite forallb_forall in Hall. apply Nat.leb_le, Hall, in_seq. lia.
Qed.

Lemma of_nat_long (n : nat) :
  (10 ^ 4 <= n)%nat → (4 < String.length (of_nat n))%nat.
Proof.
  intros Hn.
  destruct (Nat.le_gt_cases (String.length (of_nat n)) 4) as [Hle|]; [|done].
  exfalso. destruct (of_nat_digits n 0) as (Hdig & Hv).
  pose proof (digits_below (of_nat n) 0%Z Hdig ltac:(lia)) as Hbound.
  rewrite Hv in Hbound. cbn [fst] in Hbound.
  assert (10 ^ Z.of_nat (String.length (of_nat n)) <= 10 ^ 4)%Z
    by (apply Z.pow_le_mono_r; lia).
  assert (Z.of_nat (10 ^ 4) = 10 ^ 4)%Z by reflexivity.
  lia.
Qed.

(** X11. The first 9999 labels all have eight characters; from row 10000 on
    the label is longer. *)
Theorem sku_label_width (i : nat) :
  ((i + 1 < 10 ^ 4)%nat → String.length (sku_label i) = 8%nat)
  ∧ ((10 ^ 4 <= i + 1)%nat → (8 < String.length (sku_label i))%nat).
Proof.
  destruct (sku_label_digits i) as (ds & -> & Hlen & _).
  rewrite append_length, Hlen. change (String.length "SKU-") with 4%nat.
  split; intros Hi.
  - pose proof (of_nat_short _ Hi). lia.
  - pose proof (of_nat_long _ Hi). lia.
Qed.

Lemma sku_label_width_witness :
  (41 + 1 < 10 ^ 4)%nat ∧ String.length (sku_label 41) = 8%nat.
Proof.
  assert (H : (41 + 1 < 10 ^ 4)%nat) by (vm_compute; lia).
  split; [exact H|]. exact (proj1 (sku_label_width 41) H).
Defined.

End sku_table_more.

(** ** The SKU table: which error, and when *)

Section sku_csv.
Import Cleaner SkuTable SkuCsv.

Lemma mapM_cons {A B} (f : A → result B) (x : A) (l : list A) :
  mapM f (x :: l) = y ← f x; k ← mapM f l; Ok (y :: k).
Proof. reflexivity. Qed.

Lemma mapM_Ok {A B} (f : A → result B) (l : list A) (k : list B) :
  mapM f l = Ok k ↔ Forall2 (fun x y => f x = Ok y) l k.
Proof.
  revert k. induction l as [|x l IH]; intros k.
  - split; [intros [= <-]; constructor|by inversion 1].
  - rewrite mapM_cons. split.
    + destruct (f x) as [y|e] eqn:Hy; [|done]. cbn [mbind result_bind].
      destruct (mapM f l) as [k'|e] eqn:Hk; [|done].
      intros [= <-]. constructor; [done|]. by apply IH.
    + inversion 1 as [|? y ? k' Hy Hk]; subst. rewrite Hy.
      apply IH in Hk. cbn [mbind result_bind]. by rewrite Hk.
Qed.

Lemma mapM_Raise {A B} (f : A → result B) (l : list A) (e : pyerr) :
  mapM f l = Raise e → ∃ x, x ∈ l ∧ f x = Raise e.
Proof.
  induction l as [|x l IH]; [done|]. rewrite mapM_cons.
  destruct (f x) as [y|e'] eqn:Hy; cbn [mbind result_bind].
  - destruct (mapM f l) as [k|e'] eqn:Hk; [done|]. intros [= ->].
    destruct (IH eq_refl) as (x' & Hx' & He). exists x'. split; [by right|done].
  - intros [= ->]. exists x. split; [by left|done].
Qed.

Lemma clean_money_Ok (r : csv_row) :
  (∃ m, clean_money r = Ok m) ↔ money_convertible r.
Proof.
  unfold clean_money, money_convertible. split.
  - intros [m Hm].
    destruct (clean_european_number (csv_Revenue r)) as [x1|] eqn:H1; [|done].
    destruct (clean_european_number (csv_COGS r)) as [x2|] eqn:H2; [|done].
    destruct (clean_european_number (csv_Amazon_Fees r)) as [x3|] eqn:H3;
      [|done].
    destruct (clean_european_number (csv_Net_Profit r)) as [x4|] eqn:H4;
      [|done].
    eauto 10 using clean_european_number_Ok_convertible.
  - intros (H1 & H2 & H3 & H4).
    destruct (clean_european_number_Ok _ H1) as [x1 ->].
    destruct (clean_european_number_Ok _ H2) as [x2 ->].
    destruct (clean_european_number_Ok _ H3) as [x3 ->].
    destruct (clean_european_number_Ok _ H4) as [x4 ->].
    by eexists.
Qed.

Lemma clean_money_raises (r : csv_row) (e : pyerr) :
  clean_money r = Raise e → e = OverflowError.
Proof.
  unfold clean_money.
  destruct (clean_european_number (csv_Revenue r)) as [x1|e1] eqn:H1;
    [|intros [= <-]; by eapply clean_european_number_raises].
  destruct (clean_european_number (csv_COGS r)) as [x2|e2] eqn:H2;
    [|intros [= <-]; by eapply clean_european_number_raises].
  destruct (clean_european_number (csv_Amazon_Fees r)) as [x3|e3] eqn:H3;
    [|intros [= <-]; by eapply clean_european_number_raises].
  destruct (clean_european_number (csv_Net_Profit r)) as [x4|e4] eqn:H4;
    [done|intros [= <-]; by eapply clean_european_number_raises].
Qed.

Lemma cleaning_Ok (rows : list csv_row) :
  (∃ ms, mapM clean_money rows = Ok ms) ↔ Forall money_convertible rows.
Proof.
  split.
  - intros [ms Hms%mapM_Ok].
    induction Hms as [|r m rows ms Hm _ IH]; constructor; [|done].
    apply clean_money_Ok. by exists m.
  - induction 1 as [|r rows Hr _ [ms IH]]; [by exists []|].
    apply clean_money_Ok in Hr as [m Hm].
    exists (m :: ms). rewrite mapM_cons, Hm. cbn [mbind result_bind].
    by rewrite IH.
Qed.

Lemma cleaning_raises (rows : list csv_row) (e : pyerr) :
  mapM clean_money rows = Raise e → e = OverflowError.
Proof.
  intros (r & _ & Hr)%mapM_Raise. by eapply clean_money_raises.
Qed.

Lemma numeric_row_Ok (r : csv_row) :
  (∃ raw, numeric_row r = Ok raw) ↔ numeric_columns r.
Proof.
  unfold numeric_row, numeric_columns. split.
  - intros [raw Hraw].
    destruct (csv_Units_Sold r) as [x|]; [|done].
    destruct (csv_Refunds r) as [y|]; [|done]. eauto.
  - intros [[x ->] [y ->]]. by eexists.
Qed.

Lemma numeric_row_raises (r : csv_row) (e : pyerr) :
  numeric_row r = Raise e → e = TypeError.
Proof.
  unfold numeric_row.
  destruct (csv_Units_Sold r) as [x|]; [|by intros [= <-]].
  destruct (csv_Refunds r) as [y|]; [done|by intros [= <-]].
Qed.

Lemma numeric_rows_Ok (rows : list csv_row) :
  (∃ raws, mapM numeric_row rows = Ok raws) ↔ Forall numeric_columns rows.
Proof.
  split.
  - intros [raws Hraws%mapM_Ok].
    induction Hraws as [|r raw rows raws Hraw _ IH]; constructor; [|done].
    apply numeric_row_Ok. by exists raw.
  - induction 1 as [|r rows Hr _ [raws IH]]; [by exists []|].
    apply numeric_row_Ok in Hr as [raw Hraw].
    exists (raw :: raws). rewrite mapM_cons, Hraw. cbn [mbind result_bind].
    by rewrite IH.
Qed.

Lemma numeric_rows_raises (rows : list csv_row) (e : pyerr) :
  mapM numeric_row rows = Raise e → e = TypeError.
Proof.
  intros (r & _ & Hr)%mapM_Raise. by eapply numeric_row_raises.
Qed.

(** The numeric rows of a table with clean money columns go through. *)
Lemma numeric_rows_convertible (rows : list csv_row) (raws : list raw_row) :
  mapM numeric_row rows = Ok raws → Forall money_convertible rows →
  Forall row_convertible raws.
Proof.
  intros Hraws%mapM_Ok Hmoney.
  induction Hraws as [|r raw rows raws Hraw _ IH]; [constructor|].
  apply Forall_cons in Hmoney as [Hr Hmoney]. constructor; [|by apply IH].
  unfold numeric_row in Hraw.
  destruct (csv_Units_Sold r) as [x|]; [|done].
  destruct (csv_Refunds r) as [y|]; [|done].
  by injection Hraw as <-.
Qed.



End sku_csv.

(** ** Ratios of the daily table and of the summary *)

Section ratios_more.
Import SkuTable DailyRatios Summary.

Lemma float_nan_not_gt (c f : float) :
  PrimFloat.is_nan f = true → PrimFloat.ltb c f = false.
Proof.
  intros Hnan. rewrite FloatAxioms.ltb_spec, (float_is_nan _ Hnan).
  unfold SFltb. by destruct (Prim2SF c).
Qed.

Lemma float_nan_ratio (f d : float) :
  PrimFloat.is_nan f = true → (f / d * 100)%float = nan.
Proof.
  intros Hnan. apply Prim2SF_inj.
  rewrite FloatAxioms.mul_spec, FloatAxioms.div_spec, (float_is_nan _ Hnan).
  by destruct (Prim2SF d).
Qed.

(** X13. The daily conversion rate and the daily margin are 0 when their
    denominator ([Sessions], [Revenue]) is missing (NaN), negative or zero,
    and are numerator / denominator * 100 when it is positive; a missing
    numerator over a positive denominator gives a missing value (NaN),
    not 0. *)
Theorem daily_ratios_guarded (orders sessions net_profit revenue : num) :
  (∀ f, PrimFloat.is_nan f = true →
        conversion_rate_pct orders (NFloat f) = 0%float
        ∧ daily_margin_pct net_profit (NFloat f) = 0%float)
  ∧ (num_lt sessions 0 = true ∨ num_eq sessions 0 = true →
     conversion_rate_pct orders sessions = 0%float)
  ∧ (num_gt sessions 0 = true →
     conversion_rate_pct orders sessions
     = (num_to_float orders / num_to_float sessions * 100)%float
     ∧ ∀ f, PrimFloat.is_nan f = true →
            conversion_rate_pct (NFloat f) sessions = nan)
  ∧ (num_lt revenue 0 = true ∨ num_eq revenue 0 = true →
     daily_margin_pct net_profit revenue = 0%float)
  ∧ (num_gt revenue 0 = true →
     daily_margin_pct net_profit revenue
     = (num_to_float net_profit / num_to_float revenue * 100)%float
     ∧ ∀ f, PrimFloat.is_nan f = true →
            daily_margin_pct (NFloat f) revenue = nan).
Proof.
  unfold conversion_rate_pct, daily_margin_pct, np_where.
  split; [|split; [|split; [|split]]].
  - intros f Hnan. cbn [num_gt]. by rewrite (float_nan_not_gt _ _ Hnan).
  - by intros ->%num_nonpos_not_pos.
  - intros ->. split; [done|]. intros f Hnan. by apply float_nan_ratio.
  - by intros ->%num_nonpos_not_pos.
  - intros ->. split; [done|]. intros f Hnan. by apply float_nan_ratio.
Qed.

Lemma daily_ratios_guarded_witness :
  conversion_rate_pct (NInt 3) (NInt 0) = 0%float
  ∧ conversion_rate_pct (NInt 3) (NInt 120) = 2.5%float
  ∧ conversion_rate_pct (NFloat nan) (NInt 120) = nan.
Proof.
  split; [|split].
  - apply (proj1 (proj2 (daily_ratios_guarded (NInt 3) (NInt 0) (NInt 0) (NInt 0)))).
    right. reflexivity.
  - rewrite (proj1 (proj1 (proj2 (proj2
               (daily_ratios_guarded (NInt 3) (NInt 120) (NInt 0) (NInt 0))))
               eq_refl)).
    reflexivity.
  - apply (proj2 (proj1 (proj2 (proj2
             (daily_ratios_guarded (NInt 3) (NInt 120) (NInt 0) (NInt 0))))
             eq_refl)).
    reflexivity.
Defined.

Lemma float_pos_not_zero (x : float) :
  PrimFloat.ltb 0 x = true → PrimFloat.eqb x 0 = false.
Proof.
  rewrite FloatAxioms.ltb_spec, FloatAxioms.eqb_spec.
  change (Prim2SF 0) with (S754_zero false). unfold SFltb, SFeqb.
  destruct (Prim2SF x) as [s|s| |s m e]; try destruct s; simpl; congruence.
Qed.

Lemma float_neg_not_zero (x : float) :
  PrimFloat.ltb x 0 = true → PrimFloat.eqb x 0 = false.
Proof.
  rewrite FloatAxioms.ltb_spec, FloatAxioms.eqb_spec.
  change (Prim2SF 0) with (S754_zero false). unfold SFltb, SFeqb.
  destruct (Prim2SF x) as [s|s| |s m e]; try destruct s; simpl; congruence.
Qed.

(** X14. The average margin of the summary is guarded by the truth value of
    the total revenue, not by its sign: it is 0 for a total revenue of
    zero, agrees with the row formula [margin_pct] for a positive one, and
    for a negative total revenue it is the ratio where [margin_pct] is 0. *)
Theorem avg_margin_guard (total_profit total_revenue : float) :
  (PrimFloat.eqb total_revenue 0 = true →
   avg_margin total_profit total_revenue = 0%float
   ∧ margin_pct total_profit total_revenue = 0%float)
  ∧ (PrimFloat.ltb 0 total_revenue = true →
     avg_margin total_profit total_revenue
     = margin_pct total_profit total_revenue)
  ∧ (PrimFloat.ltb total_revenue 0 = true →
     avg_margin total_profit total_revenue
     = (total_profit / total_revenue * 100)%float
     ∧ margin_pct total_profit total_revenue = 0%float).
Proof.
  unfold avg_margin, margin_pct, np_where. split; [|split]; intros H.
  - by rewrite H, (float_neg_or_zero_not_pos _ (or_intror H)).
  - by rewrite H, (float_pos_not_zero _ H).
  - by rewrite (float_neg_not_zero _ H),
      (float_neg_or_zero_not_pos _ (or_introl H)).
Qed.

Lemma avg_margin_guard_witness :
  avg_margin 30 (-120) = (-25)%float ∧ margin_pct 30 (-120) = 0%float.
Proof.
  apply (proj2 (proj2 (avg_margin_guard 30 (-120)))). reflexivity.
Defined.

End ratios_more.

(** ** Rolling means over columns with gaps *)

Section daily_more.
Import SkuTable Daily MeanSpec.
Local Open Scope Z_scope.

Implicit Types (values : list float) (st : roll_state).

Lemma observed_cons (x : float) values :
  observed (x :: values)
  = if (x =? x)%float then observed values + 1 else observed values.
Proof. reflexivity. Qed.

Lemma observed_snoc values (x : float) :
  observed (values ++ [x])
  = if (x =? x)%float then observed values + 1 else observed values.
Proof.
  induction values as [|y values IH]; [done|].
  change ((y :: values) ++ [x]) with (y :: (values ++ [x])).
  rewrite !observed_cons, IH.
  by destruct (x =? x)%float, (y =? y)%float.
Qed.

Lemma nobs_add_mean (v : float) st :
  nobs (add_mean v st) = if (v =? v)%float then nobs st + 1 else nobs st.
Proof. unfold add_mean. by destruct (v =? v)%float. Qed.

Lemma nobs_remove_mean (v : float) st :
  nobs (remove_mean v st) = if (v =? v)%float then nobs st - 1 else nobs st.
Proof. unfold remove_mean. by destruct (v =? v)%float. Qed.

(** Whatever the floats are, [roll_mean] counts the observations of the
    window. *)
Lemma nobs_roll_step values (window i : nat) st (v : float) :
  (2 <= window)%nat → values !! i = Some v →
  i = 0%nat ∨ nobs st = observed (window_upto window i values) →
  nobs (roll_step values window i st)
  = observed (window_upto window (S i) values).
Proof.
  intros Hw Hv Hst. pose proof (lookup_lt_Some _ _ _ Hv) as Hi.
  rewrite (window_upto_S window i values v) by (done || lia).
  rewrite observed_snoc.
  destruct (Nat.eq_dec i 0%nat) as [->|Hne].
  - rewrite (roll_step_start values window st v) by (done || lia).
    rewrite nobs_add_mean.
    by replace (window <=? 0)%nat with false
      by (symmetry; apply Nat.leb_gt; lia).
  - destruct Hst as [?|Hst]; [done|].
    rewrite (roll_step_moving values window i st v) by (done || lia).
    rewrite nobs_add_mean.
    destruct (Nat.leb_spec window i) as [Hle|Hlt]; [|by rewrite Hst].
    destruct (window_upto_head window i values) as (x & Hx & Hhead); [lia..|].
    rewrite Hx. cbn [default]. rewrite nobs_remove_mean, Hst.
    set (rest := drop 1 (window_upto window i values)) in *.
    rewrite Hhead, observed_cons. unfold id.
    destruct (x =? x)%float, (v =? v)%float; lia.
Qed.

Lemma roll_from_nobs values (window : nat) (minp : Z) (n i j : nat) st
    (x : float) :
  (2 <= window)%nat → (i + n <= length values)%nat →
  i = 0%nat ∨ nobs st = observed (window_upto window i values) →
  roll_from values window minp i n st !! j = Some x →
  ∃ st', x = calc_mean minp st'
         ∧ nobs st' = observed (window_upto window (S (i + j)) values).
Proof.
  intros Hw. revert i j st. induction n as [|n IH]; intros i j st Hlen Hst;
    [done|].
  destruct (lookup_lt_is_Some_2 values i) as [v Hv]; [lia|].
  pose proof (nobs_roll_step values window i st v Hw Hv Hst) as Hstep.
  cbn [roll_from]. destruct j as [|j].
  - intros [= <-]. eexists. split; [done|]. by rewrite Nat.add_0_r.
  - cbn [lookup list_lookup]. intros Hx.
    destruct (IH (S i) j _ ltac:(lia) (or_intror Hstep) Hx) as (st' & -> & Hn).
    exists st'. split; [done|]. by replace (i + S j)%nat with (S i + j)%nat by lia.
Qed.

Lemma calc_mean_no_observation (minp : Z) st :
  nobs st = 0 → calc_mean minp st = nan.
Proof.
  intros Hn. unfold calc_mean. rewrite Hn. cbn [Z.ltb Z.compare].
  by rewrite andb_false_r.
Qed.

Lemma observed_missing (column : list num) :
  Forall (fun v => missing v = true) column →
  observed (prep_values column) = 0.
Proof.
  unfold prep_values. induction 1 as [|v column Hv _ IH]; [done|].
  cbn [fmap list_fmap]. rewrite observed_cons, IH. unfold missing in Hv.
  destruct (PrimFloat.is_infinity (num_to_float v)); [done|].
  rewrite orb_false_r in Hv. unfold PrimFloat.is_nan in Hv.
  by destruct (num_to_float v =? num_to_float v)%float.
Qed.

Lemma rolling_mean_all_missing (column : list num) (i : nat) :
  (i < length column)%nat →
  Forall (fun v => missing v = true) (last_seven i column) →
  default nan (rolling_mean 7 1 column !! i) = nan.
Proof.
  intros Hi Hmissing. unfold rolling_mean, roll_mean.
  destruct (roll_from _ _ _ _ _ _ !! i) as [x|] eqn:Hx; [|done].
  apply roll_from_nobs in Hx as (st' & -> & Hn); [|lia|lia|by left].
  cbn [default]. apply calc_mean_no_observation. rewrite Hn.
  cbn [Nat.add]. rewrite <- last_seven_window.
  unfold last_seven, prep_values. rewrite <- fmap_drop, <- fmap_take.
  by apply observed_missing.
Qed.

(** X15. A moving average is missing (NaN) where its window holds no
    number: when every cell of the column among the records at positions
    [max(0, i-6)] to [i] is NaN or infinite, whatever the column holds before
    them.  An infinite cell counts as a missing one. *)
Theorem moving_average_of_no_number (records df : list daily_raw) (i : nat)
    (row : daily_row) :
  NoDup (Date <$> records) → df ≡ₚ records → Sorted date_le df →
  process_daily_data records !! i = Some row →
  (Forall (fun v => missing v = true) (last_seven i (Net_Profit <$> df)) →
   Profit_7day_MA row = nan)
  ∧ (Forall (fun v => missing v = true) (last_seven i (Units_Sold <$> df)) →
     Units_7day_MA row = nan)
  ∧ (Forall (fun v => missing v = true) (last_seven i (Revenue <$> df)) →
     Revenue_7day_MA row = nan).
Proof.
  intros Hdates Hperm Hsorted.
  rewrite <- (sorted_by_date_unique records df Hdates Hperm Hsorted).
  unfold process_daily_data. rewrite list_lookup_imap.
  intros (r & Hr & ->)%fmap_Some.
  cbn [Profit_7day_MA Units_7day_MA Revenue_7day_MA].
  pose proof (lookup_lt_Some _ _ _ Hr) as Hi.
  split; [|split]; intros Hmissing;
    apply rolling_mean_all_missing; (done || by rewrite length_fmap).
Qed.

Lemma moving_average_of_no_number_witness :
  ∃ row : daily_row,
    process_daily_data DailySamples.gappy_days !! 1%nat = Some row
    ∧ Net_Profit (day row) = NFloat infinity
    ∧ Profit_7day_MA row = nan.
Proof.
  destruct (process_daily_data DailySamples.gappy_days !! 1%nat)
    as [row|] eqn:Hrow; [|vm_compute in Hrow; discriminate].
  exists row. split; [reflexivity|]. split.
  { vm_compute in Hrow. by injection Hrow as <-. }
  assert (NoDup (Date <$> DailySamples.gappy_days)) as Hdates.
  { apply (bool_decide_unpack _). vm_compute. exact I. }
  assert (Sorted date_le DailySamples.gappy_days) as Hsorted.
  { repeat constructor; unfold date_le; cbn; lia. }
  apply (moving_average_of_no_number DailySamples.gappy_days
           DailySamples.gappy_days 1%nat row Hdates
           (Permutation_refl _) Hsorted Hrow).
  repeat constructor.
Defined.

(** X16. [process_daily_data] keeps every record of the input, each as
    often as it occurs there, and lists them by ascending [Date]: no record
    is dropped or invented, and a record never comes before one of an
    earlier date, whatever the order of the input. *)
Theorem process_daily_data_sorted (records : list daily_raw) :
  day <$> process_daily_data records ≡ₚ records
  ∧ StronglySorted date_le (day <$> process_daily_data records)
  ∧ length (process_daily_data records) = length records.
Proof.
  pose proof date_le_trans as Htrans. pose proof date_le_total as Htotal.
  rewrite <- (length_fmap day (process_daily_data records)).
  rewrite process_daily_data_days. unfold sort_values.
  split; [|split].
  - apply merge_sort_Permutation.
  - by apply StronglySorted_merge_sort.
  - apply Permutation_length, merge_sort_Permutation.
Qed.

End daily_more.

Section daily_signs.
Import SkuTable Daily MeanSpec.
Local Open Scope Z_scope.

Implicit Types (values : list float) (st : roll_state).

Lemma negative_observed_cons (x : float) values :
  negative_observed (x :: values)
  = if (x =? x)%float && signbit x
    then negative_observed values + 1 else negative_observed values.
Proof. reflexivity. Qed.

Lemma negative_observed_snoc values (x : float) :
  negative_observed (values ++ [x])
  = if (x =? x)%float && signbit x
    then negative_observed values + 1 else negative_observed values.
Proof.
  induction values as [|y values IH]; [done|].
  change ((y :: values) ++ [x]) with (y :: (values ++ [x])).
  rewrite !negative_observed_cons, IH.
  by destruct ((x =? x)%float && signbit x), ((y =? y)%float && signbit y).
Qed.

Lemma neg_ct_add_mean (v : float) st :
  neg_ct (add_mean v st)
  = if (v =? v)%float && signbit v then neg_ct st + 1 else neg_ct st.
Proof. unfold add_mean. by destruct (v =? v)%float. Qed.

Lemma neg_ct_remove_mean (v : float) st :
  neg_ct (remove_mean v st)
  = if (v =? v)%float && signbit v then neg_ct st - 1 else neg_ct st.
Proof. unfold remove_mean. by destruct (v =? v)%float. Qed.

Lemma prev_value_add_mean (v : float) st :
  prev_value (add_mean v st) = if (v =? v)%float then v else prev_value st.
Proof. unfold add_mean. by destruct (v =? v)%float. Qed.

Lemma prev_value_remove_mean (v : float) st :
  prev_value (remove_mean v st) = prev_value st.
Proof. unfold remove_mean. by destruct (v =? v)%float. Qed.

Lemma last_observed_snoc (p : float) values (x : float) :
  last_observed p (values ++ [x])
  = if (x =? x)%float then x else last_observed p values.
Proof. unfold last_observed. by rewrite foldl_app. Qed.

(** Whatever the floats are, [roll_mean] counts the observations of the
    window that have the sign bit set, and remembers the latest
    observation. *)
Lemma signs_roll_step values (window i : nat) st (v : float) :
  (2 <= window)%nat → values !! i = Some v →
  i = 0%nat
  ∨ (neg_ct st = negative_observed (window_upto window i values)
     ∧ prev_value st
       = last_observed (default nan (values !! 0%nat)) (take i values)) →
  neg_ct (roll_step values window i st)
  = negative_observed (window_upto window (S i) values)
  ∧ prev_value (roll_step values window i st)
    = last_observed (default nan (values !! 0%nat)) (take (S i) values).
Proof.
  intros Hw Hv Hst. pose proof (lookup_lt_Some _ _ _ Hv) as Hi.
  rewrite (window_upto_S window i values v) by (done || lia).
  rewrite negative_observed_snoc, (take_S_r _ _ _ Hv), last_observed_snoc.
  destruct (Nat.eq_dec i 0%nat) as [->|Hne].
  - rewrite (roll_step_start values window st v) by (done || lia).
    rewrite neg_ct_add_mean, prev_value_add_mean.
    by replace (window <=? 0)%nat with false
      by (symmetry; apply Nat.leb_gt; lia).
  - destruct Hst as [?|[Hneg Hprev]]; [done|].
    rewrite (roll_step_moving values window i st v) by (done || lia).
    rewrite neg_ct_add_mean, prev_value_add_mean.
    destruct (Nat.leb_spec window i) as [Hle|Hlt]; [|by rewrite Hneg, Hprev].
    destruct (window_upto_head window i values) as (x & Hx & Hhead); [lia..|].
    rewrite Hx. cbn [default]. unfold id.
    rewrite neg_ct_remove_mean, prev_value_remove_mean, Hneg, Hprev.
    set (rest := drop 1 (window_upto window i values)) in *.
    rewrite Hhead, negative_observed_cons. split; [|done].
    destruct ((x =? x)%float && signbit x), ((v =? v)%float && signbit v); lia.
Qed.

Lemma roll_from_signs values (window : nat) (minp : Z) (n i j : nat) st
    (x : float) :
  (2 <= window)%nat → (i + n <= length values)%nat →
  i = 0%nat
  ∨ (nobs st = observed (window_upto window i values)
     ∧ neg_ct st = negative_observed (window_upto window i values)
     ∧ prev_value st
       = last_observed (default nan (values !! 0%nat)) (take i values)) →
  roll_from values window minp i n st !! j = Some x →
  ∃ st', x = calc_mean minp st'
         ∧ nobs st' = observed (window_upto window (S (i + j)) values)
         ∧ neg_ct st'
           = negative_observed (window_upto window (S (i + j)) values)
         ∧ prev_value st'
           = last_observed (default nan (values !! 0%nat))
               (take (S (i + j)) values).
Proof.
  intros Hw. revert i j st. induction n as [|n IH]; intros i j st Hlen Hst;
    [done|].
  destruct (lookup_lt_is_Some_2 values i) as [v Hv]; [lia|].
  assert (nobs (roll_step values window i st)
          = observed (window_upto window (S i) values)) as Hnobs.
  { apply (nobs_roll_step values window i st v Hw Hv).
    destruct Hst as [?|[? _]]; [by left|by right]. }
  destruct (signs_roll_step values window i st v Hw Hv) as [Hneg Hprev].
  { destruct Hst as [?|(_ & ? & ?)]; [by left|by right]. }
  cbn [roll_from]. destruct j as [|j].
  - intros [= <-]. eexists. split; [done|]. by rewrite Nat.add_0_r.
  - cbn [lookup list_lookup]. intros Hx.
    destruct (IH (S i) j _ ltac:(lia) (or_intror (conj Hnobs (conj Hneg Hprev)))
                Hx) as (st' & -> & Hn).
    exists st'. split; [done|].
    by replace (i + S j)%nat with (S i + j)%nat by lia.
Qed.

Lemma signbit_not_below_zero (x : float) :
  signbit x = false → (x <? 0)%float = false.
Proof.
  unfold signbit. rewrite FloatAxioms.ltb_spec.
  change (Prim2SF 0) with (S754_zero false).
  by destruct (Prim2SF x) as [[]|[]| |[] ? ?].
Qed.

Lemma signbit_not_above_zero (x : float) :
  signbit x = true → (0 <? x)%float = false.
Proof.
  unfold signbit. rewrite FloatAxioms.ltb_spec.
  change (Prim2SF 0) with (S754_zero false).
  by destruct (Prim2SF x) as [[]|[]| |[] ? ?].
Qed.

(** The latest observation of a list that has one is one of its items. *)
Lemma last_observed_in (Q : float → Prop) (p : float) values :
  Forall (fun x => (x =? x)%float = true → Q x) values →
  0 < observed values → Q (last_observed p values).
Proof.
  intros Hall. revert p.
  assert (∀ p, Q p ∨ 0 < observed values → Q (last_observed p values)) as H;
    [|by eauto].
  induction Hall as [|x values Hx _ IH]; intros p Hp.
  - by destruct Hp as [?|?].
  - change (last_observed p (x :: values))
      with (last_observed (if (x =? x)%float then x else p) values).
    rewrite observed_cons in Hp. apply IH.
    destruct (x =? x)%float eqn:Hobs; [left; by apply Hx|].
    destruct Hp; [by left|by right].
Qed.

Lemma observed_range values : 0 <= observed values.
Proof.
  induction values as [|x values IH]; [done|].
  rewrite observed_cons. destruct (x =? x)%float; lia.
Qed.

Lemma last_observed_window (Q : float → Prop) (p : float) values
    (window i : nat) :
  Forall (fun x => (x =? x)%float = true → Q x) (window_upto window i values) →
  0 < observed (window_upto window i values) →
  Q (last_observed p (take i values)).
Proof.
  intros Hall Hobs. unfold window_upto in *.
  rewrite <- (take_drop (i - window) (take i values)).
  unfold last_observed. rewrite foldl_app.
  by apply last_observed_in.
Qed.

Lemma negative_observed_none values :
  Forall (fun x => (x =? x)%float = true → signbit x = false) values →
  negative_observed values = 0.
Proof.
  induction 1 as [|x values Hx _ IH]; [done|].
  rewrite negative_observed_cons, IH.
  destruct (x =? x)%float; [|done]. by rewrite Hx.
Qed.

Lemma negative_observed_all values :
  Forall (fun x => (x =? x)%float = true → signbit x = true) values →
  negative_observed values = observed values.
Proof.
  induction 1 as [|x values Hx _ IH]; [done|].
  rewrite negative_observed_cons, observed_cons, IH.
  destruct (x =? x)%float; [|done]. by rewrite Hx.
Qed.

(** The clamps of [calc_mean]. *)
Lemma calc_mean_not_negative (minp : Z) st :
  neg_ct st = 0 → (0 < nobs st → signbit (prev_value st) = false) →
  (calc_mean minp st <? 0)%float = false.
Proof.
  intros Hneg Hprev. unfold calc_mean.
  destruct ((minp <=? nobs st) && (0 <? nobs st)) eqn:Hn; [|done].
  apply andb_true_iff in Hn as [_ Hn%Z.ltb_lt].
  destruct (nobs st <=? num_consecutive_same_value st).
  { by apply signbit_not_below_zero, Hprev. }
  rewrite Hneg. cbn [Z.eqb andb].
  destruct (sum_x st / Z_to_float (nobs st) <? 0)%float eqn:Hr; [done|].
  by destruct (_ && _).
Qed.

Lemma calc_mean_not_positive (minp : Z) st :
  neg_ct st = nobs st → (0 < nobs st → signbit (prev_value st) = true) →
  (0 <? calc_mean minp st)%float = false.
Proof.
  intros Hneg Hprev. unfold calc_mean.
  destruct ((minp <=? nobs st) && (0 <? nobs st)) eqn:Hn; [|done].
  apply andb_true_iff in Hn as [_ Hn%Z.ltb_lt].
  destruct (nobs st <=? num_consecutive_same_value st).
  { by apply signbit_not_above_zero, Hprev. }
  rewrite Hneg. replace (nobs st =? 0) with false
    by (symmetry; apply Z.eqb_neq; lia).
  rewrite Z.eqb_refl. cbn [andb].
  by destruct (0 <? sum_x st / Z_to_float (nobs st))%float eqn:Hr.
Qed.

Lemma prep_values_signs (column : list num) :
  (Forall (fun v => not_negative v = true) column →
   Forall (fun x => (x =? x)%float = true → signbit x = false)
     (prep_values column))
  ∧ (Forall (fun v => missing_or_negative v = true) column →
     Forall (fun x => (x =? x)%float = true → signbit x = true)
       (prep_values column)).
Proof.
  unfold prep_values. split.
  - induction 1 as [|v column Hv _ IH]; [constructor|].
    cbn [fmap list_fmap]. constructor; [|done].
    unfold not_negative in Hv. apply negb_true_iff in Hv.
    by destruct (PrimFloat.is_infinity (num_to_float v)).
  - induction 1 as [|v column Hv _ IH]; [constructor|].
    cbn [fmap list_fmap]. constructor; [|done].
    unfold missing_or_negative, missing in Hv.
    destruct (PrimFloat.is_infinity (num_to_float v)); [done|].
    rewrite orb_false_r in Hv. unfold PrimFloat.is_nan in Hv. intros Hobs.
    rewrite Hobs in Hv. done.
Qed.

Lemma rolling_mean_signs (column : list num) (i : nat) :
  (i < length column)%nat →
  (Forall (fun v => not_negative v = true) (last_seven i column) →
   (default nan (rolling_mean 7 1 column !! i) <? 0)%float = false)
  ∧ (Forall (fun v => missing_or_negative v = true) (last_seven i column) →
     (0 <? default nan (rolling_mean 7 1 column !! i))%float = false).
Proof.
  intros Hi. unfold rolling_mean, roll_mean.
  destruct (roll_from _ _ _ _ _ _ !! i) as [x|] eqn:Hx; [|done].
  apply roll_from_signs in Hx as (st' & -> & Hn & Hneg & Hprev);
    [|lia|lia|by left].
  cbn [default Nat.add] in *.
  assert (window_upto 7 (S i) (prep_values column)
          = prep_values (last_seven i column)) as Hwin.
  { rewrite <- last_seven_window. unfold last_seven, prep_values.
    by rewrite <- fmap_drop, <- fmap_take. }
  rewrite Hwin in Hn, Hneg.
  destruct (prep_values_signs (last_seven i column)) as [Hpos Hnegs].
  split; intros Hall.
  - apply calc_mean_not_negative.
    + rewrite Hneg. by apply negative_observed_none, Hpos.
    + intros Hobs. rewrite Hprev.
      apply (last_observed_window (fun x => signbit x = false) _ _ 7).
      * rewrite Hwin. by apply Hpos.
      * rewrite Hwin. lia.
  - apply calc_mean_not_positive.
    + rewrite Hneg, Hn. by apply negative_observed_all, Hnegs.
    + intros Hobs. rewrite Hprev.
      apply (last_observed_window (fun x => signbit x = true) _ _ 7).
      * rewrite Hwin. by apply Hnegs.
      * rewrite Hwin. lia.
Qed.

(** X22. The rounding of the running sum never gives a moving average the
    wrong sign: where no cell of the column among the records at positions
    [max(0, i-6)] to [i] is below zero, the 7-day moving average at [i] is
    not below zero, and where every cell there is missing or below zero it
    is not above zero. *)
Theorem moving_average_keeps_sign (records df : list daily_raw) (i : nat)
    (row : daily_row) :
  NoDup (Date <$> records) → df ≡ₚ records → Sorted date_le df →
  process_daily_data records !! i = Some row →
  ((Forall (fun v => not_negative v = true)
      (last_seven i (Net_Profit <$> df)) →
    (Profit_7day_MA row <? 0)%float = false)
   ∧ (Forall (fun v => missing_or_negative v = true)
        (last_seven i (Net_Profit <$> df)) →
      (0 <? Profit_7day_MA row)%float = false))
  ∧ ((Forall (fun v => not_negative v = true)
        (last_seven i (Units_Sold <$> df)) →
      (Units_7day_MA row <? 0)%float = false)
     ∧ (Forall (fun v => missing_or_negative v = true)
          (last_seven i (Units_Sold <$> df)) →
        (0 <? Units_7day_MA row)%float = false))
  ∧ ((Forall (fun v => not_negative v = true)
        (last_seven i (Revenue <$> df)) →
      (Revenue_7day_MA row <? 0)%float = false)
     ∧ (Forall (fun v => missing_or_negative v = true)
          (last_seven i (Revenue <$> df)) →
        (0 <? Revenue_7day_MA row)%float = false)).
Proof.
  intros Hdates Hperm Hsorted.
  rewrite <- (sorted_by_date_unique records df Hdates Hperm Hsorted).
  unfold process_daily_data. rewrite list_lookup_imap.
  intros (r & Hr & ->)%fmap_Some.
  cbn [Profit_7day_MA Units_7day_MA Revenue_7day_MA].
  pose proof (lookup_lt_Some _ _ _ Hr) as Hi.
  split; [|split]; apply rolling_mean_signs; by rewrite length_fmap.
Qed.

Lemma moving_average_keeps_sign_witness :
  ∃ row : daily_row,
    process_daily_data DailySamples.cancelling_days !! 8%nat = Some row
    ∧ (Profit_7day_MA row <? 0)%float = false
    ∧ Profit_7day_MA row = 0%float.
Proof.
  destruct (process_daily_data DailySamples.cancelling_days !! 8%nat)
    as [row|] eqn:Hrow; [|vm_compute in Hrow; discriminate].
  exists row. split; [reflexivity|].
  assert (NoDup (Date <$> DailySamples.cancelling_days)) as Hdates.
  { apply (bool_decide_unpack _). vm_compute. exact I. }
  assert (Sorted date_le DailySamples.cancelling_days) as Hsorted.
  { repeat constructor; unfold date_le; cbn; lia. }
  split.
  - apply (proj1 (proj1 (moving_average_keeps_sign DailySamples.cancelling_days
             DailySamples.cancelling_days 8%nat row Hdates
             (Permutation_refl _) Hsorted Hrow))).
    repeat constructor.
  - vm_compute in Hrow. by injection Hrow as <-.
Defined.

End daily_signs.

(** ** Categories of longer names *)

Section category_more.
Import Str Category CategorySpec CategoryRank.

Lemma lower_app (s t : string) : lower (s +:+ t) = lower s +:+ lower t.
Proof.
  induction s as [|c s IH]; [done|].
  rewrite append_cons. cbn [lower]. by rewrite IH, append_cons.
Qed.

Lemma lower_char_idem (c : ascii) : lower_char (lower_char c) = lower_char c.
Proof. destruct c as [[] [] [] [] [] [] [] []]; reflexivity. Qed.

Lemma lower_idem (s : string) : lower (lower s) = lower s.
Proof.
  induction s as [|c s IH]; [done|].
  cbn [lower]. by rewrite lower_char_idem, IH.
Qed.

Lemma occurs_extend (kw s pre post : string) :
  occurs kw s → occurs kw (pre +:+ s +:+ post).
Proof.
  intros (pre' & post' & ->). exists (pre +:+ pre'), (post' +:+ post).
  by rewrite !append_assoc.
Qed.

Lemma any_keyword_extend (s pre post : string) (keywords : list string) :
  any_keyword (lower s) keywords = true →
  any_keyword (lower (pre +:+ s +:+ post)) keywords = true.
Proof.
  rewrite !any_keyword_matches, !lower_app.
  intros (kw & Hkw & Hoccurs). exists kw. split; [done|].
  by apply occurs_extend.
Qed.

Lemma scan_default_label (name_lower other : string)
    (table : list (string * list string)) :
  default other (scan name_lower table) ∈ table.*1 ++ [other].
Proof.
  destruct (scan name_lower table) as [c|] eqn:Hscan; cbn [default].
  - apply elem_of_app. left. by apply scan_label in Hscan.
  - apply elem_of_app. right. by left.
Qed.

(** A name that matches wherever another one does is placed no later. *)
Lemma scan_position_monotone (n1 n2 other : string)
    (table : list (string * list string)) :
  NoDup (table.*1 ++ [other]) →
  (∀ keywords, any_keyword n1 keywords = true → any_keyword n2 keywords = true) →
  position (default other (scan n2 table)) (table.*1 ++ [other])
  ≤ position (default other (scan n1 table)) (table.*1 ++ [other]).
Proof.
  intros Hnodup Hmore. induction table as [|[c kws] table IH].
  - done.
  - cbn [scan fmap list_fmap fst app] in *.
    apply NoDup_cons in Hnodup as [Hc Hnodup].
    destruct (any_keyword n1 kws) eqn:H1.
    + by rewrite (Hmore _ H1).
    + destruct (any_keyword n2 kws) eqn:H2.
      * cbn [default position]. rewrite decide_True by done. lia.
      * cbn [position].
        destruct (decide (c = default other (scan n2 table))); [lia|].
        rewrite decide_False.
        -- specialize (IH Hnodup). lia.
        -- intros ->. apply Hc, scan_default_label.
Qed.

(** X17. Adding text before or after a product name never moves it to a
    later place of the category table: the longer name gets the same
    category or one that the loop tries earlier, and a name that has a
    category other than [Other] never falls back to [Other]. *)
Theorem category_extension_monotone (pre s post : string) :
  rank (assign_category (pre +:+ s +:+ post)) ≤ rank (assign_category s)
  ∧ (assign_category s ≠ "Other"%string →
     assign_category (pre +:+ s +:+ post) ≠ "Other"%string).
Proof.
  assert (Hnodup : NoDup (category_keywords.*1 ++ ["Other"%string])).
  { apply (bool_decide_unpack _). vm_compute. exact I. }
  assert (Hrank : rank (assign_category (pre +:+ s +:+ post))
                  ≤ rank (assign_category s)).
  { apply (scan_position_monotone (lower s) (lower (pre +:+ s +:+ post))
             "Other" category_keywords Hnodup).
    intros keywords. apply any_keyword_extend. }
  split; [exact Hrank|].
  intros Hs Hlong. rewrite Hlong in Hrank.
  pose proof (scan_default_label (lower s) "Other" category_keywords) as Hin.
  change (default "Other"%string (scan (lower s) category_keywords))
    with (assign_category s) in Hin.
  revert Hs Hrank. generalize (assign_category s) Hin. intros c Hc Hs.
  repeat (apply elem_of_cons in Hc as [->|Hc]; [vm_compute; lia|]).
  apply elem_of_cons in Hc as [->|Hc]; [done|].
  by apply elem_of_nil in Hc.
Qed.

Lemma category_extension_monotone_witness :
  assign_category "Glass Bottle" = "Drinkware"%string
  ∧ assign_category ("Perfume " +:+ "Glass Bottle" +:+ " Set") ≠ "Other"%string.
Proof.
  split; [reflexivity|].
  apply (proj2 (category_extension_monotone "Perfume " "Glass Bottle" " Set")).
  vm_compute. discriminate.
Defined.

(** X18. The category does not depend on letter case: a name and its
    lower-cased form get the same category, and so do any two names that
    differ in the case of their ASCII letters only. *)
Theorem category_case_insensitive (s t : string) :
  assign_category (lower s) = assign_category s
  ∧ (lower s = lower t → assign_category s = assign_category t).
Proof.
  unfold assign_category. rewrite lower_idem. split; [done|].
  by intros ->.
Qed.

Lemma category_case_insensitive_witness :
  lower "USB CABLE" = lower "usb Cable"
  ∧ assign_category "USB CABLE" = assign_category "usb Cable".
Proof.
  split; [reflexivity|].
  apply (proj2 (category_case_insensitive "USB CABLE" "usb Cable")).
  reflexivity.
Defined.

End category_more.

(** ** Separators in the number cleaner *)

Section cleaner_more.
Import Str Cleaner CleanerSpec.

Lemma points_cons (c : ascii) (s : string) :
  points (String c s) = (if is_point c then 1 else 0) + points s.
Proof. reflexivity. Qed.

Lemma points_app (s t : string) : points (s +:+ t) = points s + points t.
Proof.
  induction s as [|c s IH]; [done|].
  rewrite append_cons, !points_cons, IH. lia.
Qed.

Lemma is_space_not_point (c : ascii) : is_space c = true → is_point c = false.
Proof. destruct c as [[] [] [] [] [] [] [] []]; vm_compute; congruence. Qed.

Lemma is_digit_not_point (c : ascii) : is_digit c = true → is_point c = false.
Proof. destruct c as [[] [] [] [] [] [] [] []]; vm_compute; congruence. Qed.

Lemma lower_char_point (c : ascii) :
  is_point (lower_char c) = is_point c.
Proof. destruct c as [[] [] [] [] [] [] [] []]; reflexivity. Qed.

(** The cleaned text has a point for every comma and point of the value. *)
Lemma points_cleaned (s : string) :
  points (replace "," "." (replace " " EmptyString s)) = separators s.
Proof.
  induction s as [|c s IH]; [done|].
  unfold separators. cbn [count]. fold (separators s). rewrite <- IH.
  cbn [replace]. destruct (Ascii.eqb c " ") eqn:Hspace.
  - apply Ascii.eqb_eq in Hspace as ->. by rewrite append_empty_l.
  - cbn [replace]. unfold is_separator.
    destruct (Ascii.eqb c ",") eqn:Hcomma.
    + by rewrite points_app.
    + rewrite points_cons. unfold is_point. by rewrite orb_false_l.
Qed.

Lemma points_drop_underscores (prev : ascii) (s t : string) :
  drop_underscores prev s = Some t → points t = points s.
Proof.
  revert prev t. induction s as [|c s IH]; intros prev t; cbn [drop_underscores].
  - destruct (Ascii.eqb prev "_"); [done|by intros [= <-]].
  - destruct (Ascii.eqb c "_") eqn:Hc.
    + apply Ascii.eqb_eq in Hc as ->.
      destruct (is_digit prev); [|done]. intros Ht.
      by rewrite (IH _ _ Ht).
    + destruct (Ascii.eqb prev "_" && negb (is_digit c)); [done|].
      destruct (drop_underscores c s) as [t'|] eqn:Ht'; [|done].
      intros [= <-]. by rewrite !points_cons, (IH _ _ Ht').
Qed.

Lemma points_lstrip (s : string) : points (lstrip s) = points s.
Proof.
  induction s as [|c s IH]; [done|].
  cbn [lstrip]. destruct (is_space c) eqn:Hc; [|done].
  by rewrite points_cons, (is_space_not_point _ Hc), IH.
Qed.

Lemma points_rstrip (s : string) : points (rstrip s) = points s.
Proof.
  induction s as [|c s IH]; [done|].
  cbn [rstrip]. rewrite (points_cons c s), <- IH.
  destruct (rstrip s) as [|c' r].
  - destruct (is_space c) eqn:Hc.
    + by rewrite (is_space_not_point _ Hc).
    + by rewrite points_cons.
  - by rewrite (points_cons c).
Qed.

Lemma points_digits (s : string) (acc count : Z) :
  points (digits acc count s).2 = points s.
Proof.
  revert acc count. induction s as [|c s IH]; intros acc count; [done|].
  rewrite digits_cons. destruct (is_digit c) eqn:Hc; [|done].
  by rewrite IH, points_cons, (is_digit_not_point _ Hc).
Qed.

Lemma points_parse_sign (s : string) : points (parse_sign s).2 = points s.
Proof.
  destruct s as [|c s]; [done|]. cbn [parse_sign].
  destruct (Ascii.eqb c "-") eqn:Hminus.
  { by apply Ascii.eqb_eq in Hminus as ->. }
  destruct (Ascii.eqb c "+") eqn:Hplus; [|done].
  by apply Ascii.eqb_eq in Hplus as ->.
Qed.

Lemma points_parse_exponent (s : string) :
  points (parse_exponent s).2 = points s.
Proof.
  destruct s as [|c s]; [done|]. cbn [parse_exponent].
  destruct (Ascii.eqb c "e" || Ascii.eqb c "E") eqn:He; [|done].
  pose proof (points_parse_sign s) as Hsign.
  destruct (parse_sign s) as [esign s2]. cbn [snd] in Hsign.
  pose proof (points_digits s2 0 0) as Hdigits.
  destruct (digits 0 0 s2) as [[abs_exp n] s3]. cbn [snd] in Hdigits.
  destruct (n =? 0)%Z; [done|]. cbn [snd].
  rewrite Hdigits, Hsign, points_cons.
  apply orb_true_iff in He as [He|He]; by apply Ascii.eqb_eq in He as ->.
Qed.

(** A numeral holds one point at most. *)
Lemma points_strtod (s rest : string) (x : float) :
  strtod s = Some (x, rest) → points s ≤ S (points rest).
Proof.
  unfold strtod.
  pose proof (points_parse_sign s) as Hsign.
  destruct (parse_sign s) as [neg s1]. cbn [snd] in Hsign.
  pose proof (points_digits s1 0 0) as H1.
  destruct (digits 0 0 s1) as [[m1 n1] s2]. cbn [snd] in H1.
  assert (∃ m nfrac s3,
            match s2 with
            | String c s2' =>
                if Ascii.eqb c "." then digits m1 0 s2' else (m1, 0%Z, s2)
            | EmptyString => (m1, 0%Z, s2)
            end = (m, nfrac, s3) ∧ points s2 ≤ S (points s3))
    as (m & nfrac & s3 & -> & H2).
  { destruct s2 as [|c s2']; [eexists _, _, _; split; [reflexivity|lia]|].
    destruct (Ascii.eqb c ".").
    - pose proof (points_digits s2' m1 0) as Hfrac.
      destruct (digits m1 0 s2') as [[m nfrac] s3]. cbn [snd] in Hfrac.
      eexists _, _, _. split; [reflexivity|].
      rewrite Hfrac, points_cons. destruct (is_point c); lia.
    - eexists _, _, _. split; [reflexivity|]. lia. }
  destruct (n1 + nfrac =? 0)%Z; [done|].
  pose proof (points_parse_exponent s3) as H3.
  destruct (parse_exponent s3) as [e s4]. cbn [snd] in H3.
  intros [= _ <-]. lia.
Qed.

Lemma points_match_nocase (pat s rest : string) :
  points pat = 0 → match_nocase pat s = Some rest → points rest = points s.
Proof.
  revert s. induction pat as [|p pat IH]; intros s Hpat; cbn [match_nocase].
  - by intros [= ->].
  - destruct s as [|c s]; [done|].
    rewrite points_cons in Hpat.
    destruct (Ascii.eqb (lower_char c) p) eqn:Hc; [|done].
    apply Ascii.eqb_eq in Hc as <-. rewrite lower_char_point in Hpat.
    intros Hrest. rewrite points_cons, (IH s) by (done || lia).
    destruct (is_point c); [done|lia].
Qed.

Lemma points_parse_inf_or_nan (s rest : string) (x : float) :
  parse_inf_or_nan s = Some (x, rest) → points rest = points s.
Proof.
  unfold parse_inf_or_nan.
  pose proof (points_parse_sign s) as Hsign.
  destruct (parse_sign s) as [neg s1]. cbn [snd] in Hsign.
  destruct (match_nocase "inf" s1) as [s2|] eqn:Hinf.
  - apply points_match_nocase in Hinf; [|done].
    destruct (match_nocase "inity" s2) as [s3|] eqn:Hinity; cbn [default].
    + apply points_match_nocase in Hinity; [|done].
      intros [= _ <-]. lia.
    + intros [= _ <-]. lia.
  - destruct (match_nocase "nan" s1) as [s2|] eqn:Hnan; [|done].
    apply points_match_nocase in Hnan; [|done].
    intros [= _ <-]. lia.
Qed.

Lemma float_of_string_two_points (s : string) :
  2 ≤ points s → float_of_string s = Raise ValueError.
Proof.
  intros Hs. unfold float_of_string.
  destruct (drop_underscores _ s) as [t|] eqn:Ht; [|done].
  apply points_drop_underscores in Ht.
  assert (Hstrip : points (rstrip (lstrip t)) = points s).
  { by rewrite points_rstrip, points_lstrip. }
  unfold string_to_double.
  destruct (strtod _) as [[x rest]|] eqn:Hstrtod.
  - apply points_strtod in Hstrtod.
    destruct rest as [|c rest]; [|done]. cbn in Hstrtod. lia.
  - destruct (parse_inf_or_nan _) as [[x rest]|] eqn:Hinf; [|done].
    apply points_parse_inf_or_nan in Hinf.
    destruct rest as [|c rest]; [|done]. cbn in Hinf. lia.
Qed.

(** X19. A text with two or more separators (commas or points) is read as
    0.0: the cleaner turns each comma into a point, [float] takes one point
    at most, and the [ValueError] is caught.  So a numeral with points as
    thousands separators and a decimal comma, [1.234,56], silently
    becomes 0.0. *)
Theorem clean_european_number_two_separators (s : string) :
  2 ≤ separators s → clean_european_number (CStr s) = Ok 0%float.
Proof.
  intros Hs. rewrite clean_european_number_str.
  by rewrite float_of_string_two_points by (by rewrite points_cleaned).
Qed.

Lemma clean_european_number_two_separators_witness :
  2 ≤ separators "1.234,56"
  ∧ clean_european_number (CStr "1.234,56") = Ok 0%float.
Proof.
  assert (H : 2 ≤ separators "1.234,56") by (vm_compute; lia).
  split; [exact H|].
  apply (clean_european_number_two_separators "1.234,56" H).
Defined.

(** X20. Spaces carry no meaning and a comma reads as a point, wherever
    they stand in the text: removing a space, or writing a point for a
    comma, does not change the result. *)
Theorem clean_european_number_separators (s1 s2 : string) :
  clean_european_number (CStr (s1 +:+ " " +:+ s2))
  = clean_european_number (CStr (s1 +:+ s2))
  ∧ clean_european_number (CStr (s1 +:+ "," +:+ s2))
    = clean_european_number (CStr (s1 +:+ "." +:+ s2)).
Proof.
  rewrite !clean_european_number_str, !replace_app.
  split; reflexivity.
Qed.

Lemma lower_char_spelling (c : ascii) :
  c = lower_char c ∨ c = ascii_of_N (code (lower_char c) - 32).
Proof.
  destruct c as [[] [] [] [] [] [] [] []];
    first [by left | by right].
Qed.

Lemma lower_spellings (s : string) : s ∈ spellings (lower s).
Proof.
  induction s as [|c s IH]; [by left|].
  cbn [lower spellings]. apply elem_of_app.
  destruct (lower_char_spelling c) as [Hc|Hc]; [left|right];
    apply list_elem_of_fmap; exists s; (split; [|done]);
    by rewrite <- Hc.
Qed.

Lemma spellings_all (P : string → Prop) (p : string) :
  Forall (fun t => lower t = p → P t) (spellings p) →
  ∀ s, lower s = p → P s.
Proof.
  intros Hall s Hs. rewrite Forall_forall in Hall.
  apply (Hall s); [|done]. rewrite <- Hs. apply lower_spellings.
Qed.

Ltac each_spelling :=
  match goal with
  | |- Forall ?P (spellings ?p) =>
      let l := eval vm_compute in (spellings p) in
      change (Forall P l)
  end;
  repeat (apply List.Forall_cons;
          [first [ intros _; vm_compute; reflexivity
                 | intros H; vm_compute in H; discriminate H ]|]);
  apply List.Forall_nil.

(** X21. Text is not always turned into a finite number: a value that
    spells [nan], [inf] or [infinity], in any mix of upper and lower case
    letters, is accepted by [float], so the cleaner returns NaN or positive
    infinity for it rather than 0.0. *)
Theorem clean_european_number_not_finite (s : string) :
  (lower s = "nan"%string → clean_european_number (CStr s) = Ok nan)
  ∧ (lower s = "inf"%string ∨ lower s = "infinity"%string →
     clean_european_number (CStr s) = Ok infinity).
Proof.
  split.
  - revert s. apply spellings_all. each_spelling.
  - intros [Hs|Hs]; revert s Hs; apply spellings_all; each_spelling.
Qed.

Lemma clean_european_number_not_finite_witness :
  lower "NaN" = "nan"%string
  ∧ clean_european_number (CStr "NaN") = Ok nan
  ∧ clean_european_number (CStr "Infinity") = Ok infinity.
Proof.
  split; [reflexivity|]. split.
  - apply (proj1 (clean_european_number_not_finite "NaN")). reflexivity.
  - apply (proj2 (clean_european_number_not_finite "Infinity")).
    right. reflexivity.
Defined.

End cleaner_more.
